(** * Relocation impact analyzer: the commute-impact engine

    A shallow embedding of the parts of [relocation_impact_analyzer] that
    compute commute durations, costs, emissions and their comparisons:
    [analyzer.py] (class [Analyzer]: the parsers of durations and
    distances, the phase tracker, the geocoding and commute loops with
    their throttle and retry, the annotations, the differential and
    attrition analyses), [project.py] (class [Project]: the configuration
    and the data files), [g_api.py] (class [GAPI]: the recoverability
    table and the wrappers [commute] and [geocode]) and [graphing.py]
    ([filter_drive_distance], [filter_drive_time], [get_commute_values]).

    Conventions of the embedding.
    - Python [int] is [Z]; Python [float] is idealised as an exact rational
      [Q] (no rounding, no infinities); [/] raises [ZeroDivisionError] on a
      zero divisor, as it does on Python numbers.
    - Python [str] is [string]; the text is taken to be ASCII (a character
      above 127 is neither a digit, nor white space, nor a letter).
    - A call that may raise returns [res A]: [Ok a] or [Raise e], where [e]
      carries the class name of the exception ([e.__class__.__name__]).
    - [None] returned by a function is [PyNone] / [option].
    - Mutable state (the analyzer's attributes, the wall clock, the log of
      provider calls) is threaded explicitly. *)

From Stdlib Require Import ZArith QArith Qround Lqa Lia List String Ascii Bool.
From stdpp Require Import base gmap strings list.

Local Open Scope string_scope.

(** ** Python results and exceptions *)

Record exn : Type := Exn { exn_class : string; exn_msg : string }.

Inductive res (A : Type) : Type :=
| Ok (a : A)
| Raise (e : exn).
Arguments Ok {A} a.
Arguments Raise {A} e.

(** Sequencing: the first exception raised ends the computation.
    With these instances stdpp's [x ← m; k] is Python's statement order. *)
#[global] Instance res_ret : MRet res := fun A a => Ok a.
#[global] Instance res_bind : MBind res := fun A B f m =>
  match m with
  | Ok a => f a
  | Raise e => Raise e
  end.

Definition is_ok {A : Type} (m : res A) : bool :=
  match m with Ok _ => true | Raise _ => false end.

Definition TypeError (msg : string) : exn := Exn "TypeError" msg.
Definition ZeroDivisionError : exn := Exn "ZeroDivisionError" "float division by zero".
Definition IndexError : exn := Exn "IndexError" "index 0 is out of bounds for axis 0 with size 0".
Definition ValueError (msg : string) : exn := Exn "ValueError" msg.
Definition NotADirectoryError : exn := Exn "NotADirectoryError" "Not a directory".

(** [a / b] on Python numbers. *)
Definition py_div (a b : Q) : res Q :=
  if Qeq_bool b 0 then Raise ZeroDivisionError else Ok (a / b)%Q.

(** [a < b] on Python numbers. *)
Definition Qltb (a b : Q) : bool := negb (Qle_bool b a).

(** ** Regular expressions ([re.findall])

    The fragment of Python's [re] that the duration pattern uses, with
    Python's matching order: leftmost match, ordered alternation, greedy
    repetition with backtracking. *)

Module Regex.

Inductive re : Type :=
| Eps
| Lit (c : ascii)
| Digit
| Space
| Seq (r1 r2 : re)
| Alt (r1 r2 : re)
| Star (r : re)
| Group (i : nat) (r : re).

Definition Plus (r : re) : re := Seq r (Star r).
Definition Opt (r : re) : re := Alt r Eps.

Fixpoint lit (s : string) : re :=
  match s with
  | EmptyString => Eps
  | String c s' => Seq (Lit c) (lit s')
  end.

Fixpoint alts (l : list string) : re :=
  match l with
  | [] => Eps
  | [s] => lit s
  | s :: l' => Alt (lit s) (alts l')
  end.

(** [\d] on ASCII text. *)
Definition is_digit (c : ascii) : bool :=
  let n := nat_of_ascii c in (48 <=? n)%nat && (n <=? 57)%nat.

(** [\s] on ASCII text: what [str.isspace] accepts below 128. *)
Definition is_space (c : ascii) : bool :=
  let n := nat_of_ascii c in
  ((9 <=? n)%nat && (n <=? 13)%nat) || ((28 <=? n)%nat && (n <=? 32)%nat).

Definition lower (c : ascii) : ascii :=
  let n := nat_of_ascii c in
  if (65 <=? n)%nat && (n <=? 90)%nat then ascii_of_nat (n + 32) else c.

Fixpoint lower_str (s : string) : string :=
  match s with
  | EmptyString => EmptyString
  | String c s' => String (lower c) (lower_str s')
  end.

(** A literal matches itself, or its other case under [re.IGNORECASE]. *)
Definition lit_match (icase : bool) (p c : ascii) : bool :=
  if icase then Ascii.eqb (lower p) (lower c) else Ascii.eqb p c.

Fixpoint take_str (n : nat) (s : string) : string :=
  match n, s with
  | S n', String c s' => String c (take_str n' s')
  | _, _ => EmptyString
  end.

Definition captures : Type := gmap nat string.

(** [run icase r s caps k]: match [r] at the start of [s], then continue
    with [k] on the rest; the first success in backtracking order. *)
Fixpoint run {A : Type} (icase : bool) (r : re) (s : string) (caps : captures)
    (k : string -> captures -> option A) : option A :=
  match r with
  | Eps => k s caps
  | Lit p =>
      match s with
      | String c s' => if lit_match icase p c then k s' caps else None
      | EmptyString => None
      end
  | Digit =>
      match s with
      | String c s' => if is_digit c then k s' caps else None
      | EmptyString => None
      end
  | Space =>
      match s with
      | String c s' => if is_space c then k s' caps else None
      | EmptyString => None
      end
  | Seq r1 r2 => run icase r1 s caps (fun s' caps' => run icase r2 s' caps' k)
  | Alt r1 r2 =>
      match run icase r1 s caps k with
      | Some x => Some x
      | None => run icase r2 s caps k
      end
  | Star r' =>
      (fix loop (n : nat) (s : string) (caps : captures) : option A :=
         match n with
         | O => k s caps
         | S n' =>
             match run icase r' s caps
                     (fun s' caps' =>
                        if (String.length s' <? String.length s)%nat
                        then loop n' s' caps' else None) with
             | Some x => Some x
             | None => k s caps
             end
         end) (S (String.length s)) s caps
  | Group i r' =>
      run icase r' s caps
        (fun s' caps' =>
           k s' (<[i := take_str (String.length s - String.length s') s]> caps'))
  end.

Definition match_here (icase : bool) (r : re) (s : string)
    : option (string * captures) :=
  run icase r s ∅ (fun s' caps => Some (s', caps)).

(** [re.findall]: scan from the left; after a match resume at its end
    (one further when the match is empty); [skip] counts the characters
    of the last match still to be passed over. *)
Fixpoint findall_from (icase : bool) (r : re) (s : string) (skip : nat)
    : list captures :=
  match s with
  | EmptyString =>
      match skip, match_here icase r EmptyString with
      | O, Some (_, caps) => [caps]
      | _, _ => []
      end
  | String c s' =>
      match skip with
      | S n => findall_from icase r s' n
      | O =>
          match match_here icase r s with
          | Some (s1, caps) =>
              caps :: findall_from icase r s'
                        (String.length s - String.length s1 - 1)
          | None => findall_from icase r s' 0
          end
      end
  end.

Definition group (caps : captures) (i : nat) : string :=
  default EmptyString (caps !! i).

(** [re.findall] on a pattern with two groups returns the pairs. *)
Definition findall2 (icase : bool) (r : re) (s : string) : list (string * string) :=
  map (fun caps => (group caps 1, group caps 2)) (findall_from icase r s 0).

End Regex.

(** ** UnitParser: [Analyzer.convert_stringtime_to_minutes] *)

Module UnitParser.
Import Regex.

(** [(\d+)\s*(hour|minute|second|min|sec|hrs|hours|minutes|mins|seconds)s?] *)
Definition time_pattern : re :=
  Seq (Group 1 (Plus Digit))
    (Seq (Star Space)
       (Seq (Group 2 (alts ["hour"; "minute"; "second"; "min"; "sec"; "hrs";
                            "hours"; "minutes"; "mins"; "seconds"]))
            (Opt (Lit "s")))).

(** [int(amount)] on a string of decimal digits. *)
Definition int_of_digits (s : string) : Z :=
  fold_left (fun acc c => (10 * acc + (Z.of_nat (nat_of_ascii c) - 48))%Z)
            (list_ascii_of_string s) 0%Z.

Record time_values : Type :=
  { hours : Z; minutes : Z; seconds : Z }.

Definition startswith (s p : string) : bool := String.prefix p s.

(** The body of the loop over [matches]. *)
Definition add_match (tv : time_values) (m : string * string) : time_values :=
  let '(amount, unit) := m in
  if startswith unit "hour" || String.eqb unit "hrs" then
    {| hours := hours tv + int_of_digits amount;
       minutes := minutes tv; seconds := seconds tv |}
  else if startswith unit "min" then
    {| hours := hours tv;
       minutes := minutes tv + int_of_digits amount; seconds := seconds tv |}
  else if startswith unit "sec" then
    {| hours := hours tv; minutes := minutes tv;
       seconds := seconds tv + int_of_digits amount |}
  else tv.

Definition total_minutes (tv : time_values) : Z :=
  (0 + hours tv * 60 + minutes tv)%Z.

Definition minutes_of_matches (matches : list (string * string)) : Z :=
  total_minutes
    (fold_left add_match matches {| hours := 0; minutes := 0; seconds := 0 |}).

Definition convert_stringtime_to_minutes (time_string : string) : Z :=
  minutes_of_matches (findall2 true time_pattern time_string).

End UnitParser.

(** ** Project configuration: [Project.project_file_attributes] *)

Module Project.

(** A value read back from [project.json]. *)
Inductive pyval : Type :=
| PyNone
| PyBool (b : bool)
| PyNum (q : Q)
| PyStr (s : string).

(** [v == False]: Python's [False] equals the number zero. *)
Definition eq_False (v : pyval) : bool :=
  match v with
  | PyBool b => negb b
  | PyNum q => Qeq_bool q 0
  | _ => false
  end.

(** [v == s] for a string literal [s]. *)
Definition eq_str (v : pyval) (s : string) : bool :=
  match v with
  | PyStr s' => String.eqb s' s
  | _ => false
  end.

Record t : Type :=
  { use_gps_fuzzing : pyval;
    commute_range_cut_off : Q;
    commute_days_per_week : Z;
    commute_weeks_per_year : Z;
    CO2_per_mile : Q;
    traffic_regime_1 : Q;
    traffic_regime_2 : Q;
    traffic_regime_3 : Q;
    traffic_regime_1_coeff : Q;
    traffic_regime_2_coeff : Q;
    traffic_regime_3_coeff : Q;
    mileage_rate : Q;
    turnover_threshold_due_to_cost : Q;
    turnover_probability_time_cost : Q;
    employee_replacement_cost : Q;
    median_salary : Q;
    hours_per_year : Q }.

(** The defaults of [Project.__init__]. *)
Definition default : t :=
  {| use_gps_fuzzing := PyBool true;
     commute_range_cut_off := 50;
     commute_days_per_week := 2;
     commute_weeks_per_year := 50;
     CO2_per_mile := 404 # 1000;
     traffic_regime_1 := 0;
     traffic_regime_2 := 33554 # 1000;
     traffic_regime_3 := 55923 # 1000;
     traffic_regime_1_coeff := 7 # 10;
     traffic_regime_2_coeff := 53 # 100;
     traffic_regime_3_coeff := 125 # 100;
     mileage_rate := 67 # 100;
     turnover_threshold_due_to_cost := 3 # 100;
     turnover_probability_time_cost := 25 # 100;
     employee_replacement_cost := 60000;
     median_salary := 114068;
     hours_per_year := 2080 |}.

End Project.

(** ** AnalysisPhaseTracker: [Analyzer.update_analysis_phase] *)

Module Phase.

(** An entry of the project's directory: a file, or a directory with the
    names it holds. *)
Inductive node : Type :=
| File
| Dir (children : list string).

Definition listing : Type := list (string * node).

(** The analyzer as far as the phase is concerned: the loaded project
    (its configuration), the content of
    [project_directory/project_name] (a directory that exists), and the
    stored phase. *)
Record analyzer : Type :=
  { project : option Project.t;
    project_files : listing;
    analysis_phase : Z }.

Definition set_phase (a : analyzer) (n : Z) : analyzer :=
  {| project := project a; project_files := project_files a;
     analysis_phase := n |}.

(** [os.listdir] of the project's directory. *)
Definition listdir (a : analyzer) : list string := map fst (project_files a).

Fixpoint find_node (name : string) (l : listing) : option node :=
  match l with
  | [] => None
  | (n, x) :: l' => if String.eqb n name then Some x else find_node name l'
  end.

(** [os.listdir] of a sub-directory of the project's directory. *)
Definition listdir_sub (a : analyzer) (name : string) : res (list string) :=
  match find_node name (project_files a) with
  | Some (Dir children) => Ok children
  | Some File => Raise NotADirectoryError
  | None => Raise (Exn "FileNotFoundError" "No such file or directory")
  end.

Definition endswith (s suffix : string) : bool :=
  (String.length suffix <=? String.length s)%nat
  && String.eqb
       (substring (String.length s - String.length suffix)
                  (String.length suffix) s) suffix.

(** [Project.list_data_files]. *)
Definition list_data_files (a : analyzer) : list string :=
  List.filter (fun file => endswith file ".csv") (listdir a).

(** [x in l] on a Python list of strings. *)
Definition py_in (x : string) (l : list string) : bool :=
  existsb (String.eqb x) l.

(** ["d" in os.listdir(P) and "f" in os.listdir(P/d)], left to right. *)
Definition in_subdir (a : analyzer) (d f : string) : res bool :=
  if py_in d (listdir a)
  then children ← listdir_sub a d; Ok (py_in f children)
  else Ok false.

(** The result is the new analyzer and the value returned: [Some n] for
    [return n], [None] when control falls off the end of the function. *)
Definition update_analysis_phase (a : analyzer) : res (analyzer * option Z) :=
  match project a with
  | None => Ok (set_phase a 0, Some 0%Z)
  | Some p =>
      if negb (py_in "employee_addresses.csv" (list_data_files a)) then
        Ok (set_phase a 1, Some 1%Z)
      else if py_in "employee_addresses.csv" (list_data_files a)
              && py_in "office_addresses.csv" (list_data_files a) then
        if py_in "employee_gps.csv" (list_data_files a)
           && py_in "office_gps.csv" (list_data_files a) then
          if py_in "gps_fuzz.csv" (list_data_files a)
             || Project.eq_False (Project.use_gps_fuzzing p)
             || Project.eq_str (Project.use_gps_fuzzing p) "False" then
            if py_in "commute_data.csv" (list_data_files a) then
              graphed ← in_subdir a "plots" "graphs.json";
              if graphed : bool then
                tabled ← in_subdir a "tables" "tables.json";
                if tabled : bool then Ok (set_phase a 6, Some 6%Z)
                else Ok (set_phase a 6, Some 6%Z)
              else Ok (set_phase a 5, Some 5%Z)
            else Ok (set_phase a 4, Some 4%Z)
          else Ok (set_phase a 3, Some 3%Z)
        else Ok (set_phase a 2, Some 2%Z)
      else Ok (a, None)
  end.

End Phase.

(** ** TrafficRegimeClassifier and CostEmissionsAnnotator *)

Module Commute.

Inductive day : Type := Mon | Tue | Wed | Thu | Fri.
Inductive tod : Type := Morning | Evening.
Definition slot : Type := (day * tod)%type.

#[global] Instance day_eq_dec : EqDecision day.
Proof. solve_decision. Defined.
#[global] Instance tod_eq_dec : EqDecision tod.
Proof. solve_decision. Defined.

(** [["m","t","w","h","f"]] and [["morning","evening"]]. *)
Definition days : list day := [Mon; Tue; Wed; Thu; Fri].
Definition times : list tod := [Morning; Evening].

(** The slots in the order of the nested loops [for day: for time:]. *)
Definition slots : list slot :=
  d ← days; t ← times; [(d, t)].

(** A row of [commute_data.csv]; the columns
    [{day}_{time}_duration_in_traffic] and [{day}_{time}_emissions] are
    indexed by slot. *)
Record row : Type :=
  { office_address : string;
    origin_lat : Q;
    origin_long : Q;
    destination_lat : Q;
    destination_long : Q;
    miles : Q;
    duration : Q;
    emissions : Q;
    commute_cost : Q;
    duration_in_traffic : slot -> Q;
    slot_emissions : slot -> Q }.

Definition upd (f : slot -> Q) (s : slot) (v : Q) : slot -> Q :=
  fun s' => if decide (s' = s) then v else f s'.

Definition set_emissions (r : row) (v : Q) : row :=
  {| office_address := office_address r;
     origin_lat := origin_lat r; origin_long := origin_long r;
     destination_lat := destination_lat r;
     destination_long := destination_long r;
     miles := miles r; duration := duration r;
     emissions := v; commute_cost := commute_cost r;
     duration_in_traffic := duration_in_traffic r;
     slot_emissions := slot_emissions r |}.

Definition set_slot_emissions (r : row) (s : slot) (v : Q) : row :=
  {| office_address := office_address r;
     origin_lat := origin_lat r; origin_long := origin_long r;
     destination_lat := destination_lat r;
     destination_long := destination_long r;
     miles := miles r; duration := duration r;
     emissions := emissions r; commute_cost := commute_cost r;
     duration_in_traffic := duration_in_traffic r;
     slot_emissions := upd (slot_emissions r) s v |}.

Definition set_commute_cost (r : row) (v : Q) : row :=
  {| office_address := office_address r;
     origin_lat := origin_lat r; origin_long := origin_long r;
     destination_lat := destination_lat r;
     destination_long := destination_long r;
     miles := miles r; duration := duration r;
     emissions := emissions r; commute_cost := v;
     duration_in_traffic := duration_in_traffic r;
     slot_emissions := slot_emissions r |}.

Section WithProject.
Variable p : Project.t.

(** [Analyzer.get_traffic_regime]. *)
Definition get_traffic_regime (distance duration_in_traffic : Q) : res Z :=
  hours ← py_div duration_in_traffic 60;
  average_speed ← py_div distance hours;
  if Qltb average_speed (Project.traffic_regime_2 p) then Ok 1%Z
  else if Qltb average_speed (Project.traffic_regime_3 p) then Ok 2%Z
  else Ok 3%Z.

(** [Analyzer.get_traffic_emissions_factor]. *)
Definition get_traffic_emissions_factor (regime : Z) : Q :=
  if (regime =? 1)%Z then Project.traffic_regime_1_coeff p
  else if (regime =? 2)%Z then Project.traffic_regime_2_coeff p
  else if (regime =? 3)%Z then Project.traffic_regime_3_coeff p
  else 1.

(** The body of the loops over [day] and [time] for one row: [r0] is
    the row as [iterrows] yielded it, [r] the row of the frame being
    written. *)
Definition emissions_slot (r0 : row) (r : row) (s : slot) : res row :=
  regime ← get_traffic_regime (miles r0) (duration_in_traffic r0 s);
  let emissions_factor := get_traffic_emissions_factor regime in
  Ok (set_slot_emissions r s
        (miles r0 * Project.CO2_per_mile p * emissions_factor)%Q).

Fixpoint emissions_slots (r0 r : row) (ss : list slot) : res row :=
  match ss with
  | [] => Ok r
  | s :: ss' => r' ← emissions_slot r0 r s; emissions_slots r0 r' ss'
  end.

Definition emissions_row (r0 : row) : res row :=
  emissions_slots r0
    (set_emissions r0 (miles r0 * Project.CO2_per_mile p)%Q) slots.

(** [Analyzer.get_commute_emissions], the loop over the loaded frame
    (lines 778-786).  An exception leaves the loop at once: the call
    returns no frame and nothing is saved (what was written in memory up
    to that slot is not modelled). *)
Fixpoint get_commute_emissions (data : list row) : res (list row) :=
  match data with
  | [] => Ok []
  | r0 :: data' =>
      r ← emissions_row r0;
      rest ← get_commute_emissions data';
      Ok (r :: rest)
  end.

(** [Analyzer.get_commute_cost], the loop over the loaded frame. *)
Definition get_commute_cost (data : list row) : list row :=
  map (fun r0 => set_commute_cost r0 (miles r0 * Project.mileage_rate p)%Q)
      data.

End WithProject.

End Commute.

(** ** CommuteMatrixBuilder: provider calls, retry and throttle

    The commute provider is an injected capability.  Here it is a function
    of the number of calls already made and of the query, giving how long
    the call takes (microseconds) and how it ends.  The clock advances
    inside a provider call and inside [time.sleep] only; the statements
    between them take no time, and the two readings of [datetime.now()]
    in [sleepif] are the same instant.  Printing, the optional log file
    and the trailing newline of the error-log lines are left out. *)

Module Builder.

Definition gps : Type := (Q * Q)%type.

(** A provider query: origin, destination, departure (a timestamp). *)
Record query : Type :=
  { q_origin : gps; q_destination : gps; q_departure : Z }.

Record reply : Type :=
  { distance : string; duration : string; duration_in_traffic : string }.

Definition provider : Type := nat -> query -> Z * res reply.

Record call : Type :=
  { call_query : query; call_start : Z; call_end : Z }.

(** The analyzer's throttle attributes, the wall clock (microseconds),
    and what the run leaves behind: the provider calls in order, the
    arguments of [time.sleep], the lines of [error_log.txt]. *)
Record world : Type :=
  { sleep_time : Q;
    last_call : Z;
    now : Z;
    calls : list call;
    sleeps : list Q;
    error_log : list string }.

(** [Analyzer.__init__], lines 53-57, at wall-clock time [t]:
    [api_rate_limit = 300], [sleep_time = 60 / api_rate_limit],
    [last_call = now - timedelta(seconds=sleep_time)]. *)
Definition api_rate_limit : Z := 300.

Definition init (t : Z) : world :=
  {| sleep_time := 60 / inject_Z api_rate_limit;
     last_call := t - 200000;
     now := t;
     calls := [];
     sleeps := [];
     error_log := [] |}.

(** Computations that read and write the world and may raise. *)
Definition M (A : Type) : Type := world -> world * res A.

#[global] Instance M_ret : MRet M := fun A a w => (w, Ok a).
#[global] Instance M_bind : MBind M := fun A B f m w =>
  match m w with
  | (w', Ok a) => f a w'
  | (w', Raise e) => (w', Raise e)
  end.

Definition raise {A : Type} (e : exn) : M A := fun w => (w, Raise e).

(** [try: m except Exception as e: h e]. *)
Definition try_except {A : Type} (m : M A) (h : exn -> M A) : M A :=
  fun w =>
    match m w with
    | (w', Ok a) => (w', Ok a)
    | (w', Raise e) => h e w'
    end.

(** [timedelta.seconds] of a difference of [d] microseconds: the seconds
    field of the normalised (days, seconds, microseconds). *)
Definition td_seconds (d : Z) : Z := ((d / 1000000) mod 86400)%Z.

(** [time.sleep x]. *)
Definition sleep (x : Q) : M unit := fun w =>
  if Qltb x 0 then (w, Raise (ValueError "sleep length must be non-negative"))
  else
    ({| sleep_time := sleep_time w; last_call := last_call w;
        now := now w + Qfloor (x * 1000000);
        calls := calls w; sleeps := sleeps w ++ [x];
        error_log := error_log w |}, Ok tt).

(** [Analyzer.sleepif]. *)
Definition sleepif : M unit := fun w =>
  if Qltb (inject_Z (td_seconds (now w - last_call w))) (sleep_time w)
  then sleep (sleep_time w - inject_Z (td_seconds (now w - last_call w))) w
  else (w, Ok tt).

(** [Analyzer.log_error]. *)
Definition log_error (message : string) : M unit := fun w =>
  ({| sleep_time := sleep_time w; last_call := last_call w; now := now w;
      calls := calls w; sleeps := sleeps w;
      error_log := error_log w ++ [message] |}, Ok tt).

(** A call of the injected [commute] capability. *)
Definition gAPI_commute (prov : provider) (q : query) : M reply := fun w =>
  let '(took, outcome) := prov (length (calls w)) q in
  ({| sleep_time := sleep_time w; last_call := last_call w;
      now := now w + took;
      calls := calls w ++ [{| call_query := q; call_start := now w;
                              call_end := now w + took |}];
      sleeps := sleeps w; error_log := error_log w |}, outcome).

(** [GAPI.google_api_exceptions]. *)
Definition google_api_exceptions : gmap string string :=
  <["ApiError" := "non-recoverable"]>
  (<["TransportError" := "recoverable"]>
  (<["HttpError" := "recoverable"]>
  (<["Timeout" := "recoverable"]>
  (<["_RetriableRequest" := "recoverable"]>
  (<["_OverQueryLimit" := "recoverable"]>
  (<["EmptyResult" := "recoverable"]> ∅)))))).

(** [Analyzer.handle_GAPI_exception], on the injected table. *)
Definition handle_GAPI_exception (table : gmap string string) (exception : exn)
    : bool :=
  let exception_type := exn_class exception in
  match table !! exception_type with
  | Some action => if String.eqb action "recoverable" then true else false
  | None => false
  end.

(** Calling a tuple, as in [destination(0)]. *)
Definition call_tuple (t : gps) (arg : Z) : M Q :=
  raise (TypeError "'tuple' object is not callable").

Definition backoff : Q := 10000.

(** One pass of the inner loop of [Analyzer.get_commute_data], lines
    590-618: throttle, provider call, and the exception handler. *)
Definition query_slot (table : gmap string string) (prov : provider)
    (source destination : gps) (departure : Z) : M reply :=
  _ ← sleepif;
  try_except
    (gAPI_commute prov
       {| q_origin := (fst source, snd source);
          q_destination := (fst destination, snd destination);
          q_departure := departure |})
    (fun e =>
       _ ← log_error ("Exception calling commute function: " ++ exn_msg e);
       if handle_GAPI_exception table e then
         _ ← sleep backoff;
         try_except
           (d0 ← call_tuple destination 0;
            gAPI_commute prov
              {| q_origin := (fst source, snd source);
                 q_destination := (d0, snd destination);
                 q_departure := departure |})
           (fun e2 =>
              _ ← log_error
                    ("Recoverable error calling commute function, failed twice. Deemed unrecoverable. Exception: "
                     ++ exn_msg e2);
              raise e2)
       else
         _ ← log_error
               ("Unrecoverable error calling commute function, failed once. Exception: "
                ++ exn_msg e);
         raise e).

(** The source and destination of a slot: evening slots go from the
    employee to the office, morning slots from the office to the
    employee (lines 579-584). *)
Definition endpoints (office employee : gps) (time : Commute.tod) : gps * gps :=
  match time with
  | Commute.Evening => (employee, office)
  | Commute.Morning => (office, employee)
  end.

(** The loops over [day] and [time] for one office and one employee,
    as far as the provider is concerned: the replies in slot order. *)
Fixpoint query_slots (table : gmap string string) (prov : provider)
    (office employee : gps) (commutes : Commute.slot -> Z)
    (ss : list Commute.slot) : M (list reply) :=
  match ss with
  | [] => mret []
  | s :: ss' =>
      let '(source, destination) := endpoints office employee (snd s) in
      r ← query_slot table prov source destination (commutes s);
      rs ← query_slots table prov office employee commutes ss';
      mret (r :: rs)
  end.

End Builder.

(** ** ImpactAggregator: scope filter, cost differentials, attrition risk *)

Module Aggregator.
Import Commute.

(** A row of [employee_gps.csv] / [gps_fuzz.csv], and of [office_gps.csv]. *)
Record gps_row : Type := { latitude : Q; longitude : Q }.
Record office_row : Type :=
  { address : string; o_latitude : Q; o_longitude : Q }.

(** [Graphing.filter_drive_distance], the inner [check_d]: some row of
    [commute_data] from this origin to one of the targets has its miles
    within the radius (outside it, when [inside] is false). *)
Definition check_d (lat lon : Q) (targets : list office_row) (radius : Q)
    (commute_data : list row) (inside : bool) : bool :=
  existsb
    (fun t =>
       existsb
         (fun row2 =>
            if inside && Qle_bool (miles row2) radius then true
            else if negb inside && Qltb radius (miles row2) then true
            else false)
         (List.filter
            (fun r =>
               Qeq_bool (origin_lat r) lat && Qeq_bool (origin_long r) lon
               && Qeq_bool (destination_lat r) (o_latitude t)
               && Qeq_bool (destination_long r) (o_longitude t))
            commute_data))
    targets.

Definition filter_drive_distance (sources : list gps_row)
    (targets : list office_row) (radius : Q) (commute_data : list row)
    (inside : bool) : list gps_row :=
  map (fun s => {| latitude := latitude s; longitude := longitude s |})
    (List.filter
       (fun s => check_d (latitude s) (longitude s) targets radius
                   commute_data inside)
       sources).

(** A row of the per-office cost frame built by [get_base_cost_df]. *)
Record cost_row : Type :=
  { c_latitude : Q; c_longitude : Q; c_office : string; cost : Q }.

Definition get_base_cost_df (emp : list gps_row) (officeaddr : string)
    : list cost_row :=
  map (fun row => {| c_latitude := latitude row; c_longitude := longitude row;
                     c_office := officeaddr; cost := 0 |}) emp.

(** [commute_data[(origin_lat == lat) & (origin_long == lon)
     & (office_address == addr)]['commute_cost'].values[0]]. *)
Definition first_commute_cost (commute_data : list row) (lat lon : Q)
    (addr : string) : res Q :=
  match List.filter
          (fun r => Qeq_bool (origin_lat r) lat && Qeq_bool (origin_long r) lon
                    && String.eqb (office_address r) addr)
          commute_data with
  | r :: _ => Ok (commute_cost r)
  | [] => Raise IndexError
  end.

(** [df.loc[(df.latitude == lat) & (df.longitude == lon), 'cost'] = v]. *)
Definition set_cost (df : list cost_row) (lat lon v : Q) : list cost_row :=
  map (fun r =>
         if Qeq_bool (c_latitude r) lat && Qeq_bool (c_longitude r) lon
         then {| c_latitude := c_latitude r; c_longitude := c_longitude r;
                 c_office := c_office r; cost := v |}
         else r) df.

(** The loop over the employees within the cutoff (lines 1287-1290 and
    1300-1303). *)
Fixpoint fill_costs (commute_data : list row) (addr : string)
    (within : list gps_row) (df : list cost_row) : res (list cost_row) :=
  match within with
  | [] => Ok df
  | row :: within' =>
      v ← first_commute_cost commute_data (latitude row) (longitude row) addr;
      fill_costs commute_data addr within'
        (set_cost df (latitude row) (longitude row) v)
  end.

(** The cost frame of one office: every employee at cost 0, then the
    commute cost of those within the cutoff. *)
Definition office_costs (p : Project.t) (emp : list gps_row)
    (office : office_row) (commute_data : list row) : res (list cost_row) :=
  fill_costs commute_data (address office)
    (filter_drive_distance emp [office] (Project.commute_range_cut_off p)
       commute_data true)
    (get_base_cost_df emp (address office)).

Fixpoint all_office_costs (p : Project.t) (emp : list gps_row)
    (offices : list office_row) (commute_data : list row)
    : res (list (list cost_row)) :=
  match offices with
  | [] => Ok []
  | office :: offices' =>
      tmp_costs ← office_costs p emp office commute_data;
      rest ← all_office_costs p emp offices' commute_data;
      Ok (tmp_costs :: rest)
  end.

(** [cost_values[i]['cost'] - base_costs['cost']]: both frames list the
    employees in the order of [emp], so the subtraction is row by row. *)
Definition headline (alt base : list cost_row) : list Q :=
  zip_with (fun a b => (cost a - cost b)%Q) alt base.

(** [(cost_values[i]['cost'] != 0) & (base_costs['cost'] != 0)]. *)
Definition mask (alt base : list cost_row) : list bool :=
  zip_with (fun a b => negb (Qeq_bool (cost a) 0) && negb (Qeq_bool (cost b) 0))
           alt base.

(** [series[mask]]: the entries whose mask is true, with their index. *)
Fixpoint boolean_index (i : nat) (series : list Q) (m : list bool)
    : list (nat * Q) :=
  match series, m with
  | v :: series', b :: m' =>
      if b then (i, v) :: boolean_index (S i) series' m'
      else boolean_index (S i) series' m'
  | _, _ => []
  end.

Definition differences (alt base : list cost_row) : list (nat * Q) :=
  boolean_index 0 (headline alt base) (mask alt base).

(** What the differential analysis holds for one alternative office:
    [diffs[i]], and the masked series [differences] with the index labels
    it keeps. *)
Record differential : Type :=
  { diffs : list Q; masked : list (nat * Q) }.

(** [diffs2 = differences.tolist()]. *)
Definition diffs2 (d : differential) : list Q := map snd (masked d).

(** The data of the graph "Employee Commute Cost Differential Analysis"
    (lines 1270-1312 and 1368-1372); the first office is the baseline. *)
Definition eccda (p : Project.t) (emp : list gps_row)
    (offices : list office_row) (commute_data : list row)
    : res (list differential) :=
  match offices with
  | [] => Raise (Exn "IndexError" "single positional indexer is out-of-bounds")
  | current_office :: other_offices =>
      base_costs ← office_costs p emp current_office commute_data;
      cost_values ← all_office_costs p emp other_offices commute_data;
      Ok (map (fun cv =>
                 {| diffs := headline cv base_costs;
                    masked := differences cv base_costs |})
              cost_values)
  end.

(** *** Attrition risk *)

(** A row of the frames of [get_attrition_analysis]. *)
Record total_cost_row : Type :=
  { t_latitude : Q; t_longitude : Q; t_office : string;
    total_average_cost : Q; total_high_cost : Q }.

(** [average_diffs] and [conservative_diffs] (lines 2679-2685). *)
Definition average_diffs (base_costs : list total_cost_row)
    (cost_values : list (list total_cost_row)) : list (list Q) :=
  map (fun cv =>
         zip_with (fun a b => (total_average_cost a - total_average_cost b)%Q)
                  cv base_costs) cost_values.

Definition conservative_diffs (base_costs : list total_cost_row)
    (cost_values : list (list total_cost_row)) : list (list Q) :=
  map (fun cv =>
         zip_with (fun a b => (total_high_cost a - total_high_cost b)%Q)
                  cv base_costs) cost_values.

(** Lines 2025-2027. *)
Definition daily_threshold (p : Project.t) : res Q :=
  let median_salary := Project.median_salary p in
  let threshold := (Project.turnover_threshold_due_to_cost p * median_salary)%Q in
  py_div threshold
    (inject_Z (Project.commute_days_per_week p * Project.commute_weeks_per_year p)).

(** The loop [for each in diffs: if each > daily_threshold: above_threshold += 1]. *)
Fixpoint count_above (daily_threshold : Q) (series : list Q)
    (above_threshold : Z) : Z :=
  match series with
  | [] => above_threshold
  | each :: series' =>
      count_above daily_threshold series'
        (if Qltb daily_threshold each then above_threshold + 1
         else above_threshold)%Z
  end.

Record attrition : Type :=
  { threshold_per_day : Q; above_threshold : Z; cost_impact : Q }.

(** The figures of the text box of row [r], column [c] (lines 2047-2060):
    column 0 counts in [average_diffs[r]], column 1 in
    [conservative_diffs[r]]. *)
Definition attrition_cell (p : Project.t) (avg cons : list (list Q))
    (r c : nat) : res attrition :=
  dt ← daily_threshold p;
  series ← match (if (c =? 0)%nat then avg else cons) !! r with
           | Some s => Ok s
           | None => Raise (Exn "IndexError" "list index out of range")
           end;
  let above := count_above dt series 0 in
  Ok {| threshold_per_day := dt;
        above_threshold := above;
        cost_impact := (inject_Z above * Project.turnover_probability_time_cost p
                        * Project.employee_replacement_cost p)%Q |}.

End Aggregator.

(** ** The duration parser as the specification words it

    Section 4.1: scan for all (integer)(unit) tokens matching
    hour(s)/hrs, minute(s)/min(s), second(s)/sec(s) case-insensitively;
    sum hours x 60 + minutes; seconds are dropped.  The tokens are those
    of the source's pattern; the unit is read without regard to case. *)

Module DurationSpec.
Import Regex UnitParser.

Inductive unit_kind : Type := Hours | Minutes | Seconds.

Definition hour_units : list string := ["hour"; "hours"; "hrs"].
Definition minute_units : list string := ["minute"; "minutes"; "min"; "mins"].
Definition second_units : list string := ["second"; "seconds"; "sec"; "secs"].

Definition mem (u : string) (l : list string) : bool := existsb (String.eqb u) l.

Definition kind_of (unit : string) : option unit_kind :=
  let u := lower_str unit in
  if mem u hour_units then Some Hours
  else if mem u minute_units then Some Minutes
  else if mem u second_units then Some Seconds
  else None.

Definition sum_kind (k : unit_kind) (tokens : list (string * string)) : Z :=
  fold_right
    (fun '(amount, unit) acc =>
       match kind_of unit, k with
       | Some Hours, Hours | Some Minutes, Minutes | Some Seconds, Seconds =>
           (int_of_digits amount + acc)%Z
       | _, _ => acc
       end) 0%Z tokens.

Definition minutes_of_tokens (tokens : list (string * string)) : Z :=
  (sum_kind Hours tokens * 60 + sum_kind Minutes tokens)%Z.

Definition parse_duration (text : string) : Z :=
  minutes_of_tokens (findall2 true time_pattern text).

End DurationSpec.

(** ** UnitParser: [Analyzer.convert_stringdistance_to_d] *)

Module DistanceParser.
Import Regex UnitParser.

(** [\w] on ASCII text: a letter, a digit or the underscore. *)
Definition is_word (c : ascii) : bool :=
  let n := nat_of_ascii c in
  is_digit c || ((65 <=? n)%nat && (n <=? 90)%nat)
  || ((97 <=? n)%nat && (n <=? 122)%nat) || (n =? 95)%nat.

Definition word_before (prev : option ascii) : bool :=
  match prev with Some c => is_word c | None => false end.

Definition word_at (s : string) : bool :=
  match s with String c _ => is_word c | EmptyString => false end.

(** [\b] between the character [prev] and the text [s] that follows. *)
Definition boundary (prev : option ascii) (s : string) : bool :=
  xorb (word_before prev) (word_at s).

(** [re.findall] for a pattern that begins with [\b]: the boundary is
    tested where the match is tried, and the rest of the pattern [r] is
    run from there.  [prev] is the character before [s]. *)
Fixpoint findall_b_from (icase : bool) (r : re) (prev : option ascii)
    (s : string) (skip : nat) : list captures :=
  match s with
  | EmptyString =>
      match skip, boundary prev EmptyString, match_here icase r EmptyString with
      | O, true, Some (_, caps) => [caps]
      | _, _, _ => []
      end
  | String c s' =>
      match skip with
      | S n => findall_b_from icase r (Some c) s' n
      | O =>
          match boundary prev s, match_here icase r s with
          | true, Some (s1, caps) =>
              caps :: findall_b_from icase r (Some c) s'
                        (String.length s - String.length s1 - 1)
          | _, _ => findall_b_from icase r (Some c) s' 0
          end
      end
  end.

Definition findall2_b (icase : bool) (r : re) (s : string) : list (string * string) :=
  map (fun caps => (group caps 1, group caps 2)) (findall_b_from icase r None s 0).

(** [(\b\d+(?:\.\d+)?)\s*(mile|kilometer|meter|foot|yard|inch|mi|km|m|ft|yd|in)s?]
    without its leading [\b], which [findall_b_from] tests. *)
Definition distance_pattern : re :=
  Seq (Group 1 (Seq (Plus Digit) (Opt (Seq (Lit ".") (Plus Digit)))))
    (Seq (Star Space)
       (Seq (Group 2 (alts ["mile"; "kilometer"; "meter"; "foot"; "yard"; "inch";
                            "mi"; "km"; "m"; "ft"; "yd"; "in"]))
            (Opt (Lit "s")))).

(** The digits before the first ["."], and what follows it. *)
Fixpoint split_dot (s : string) : string * string :=
  match s with
  | EmptyString => (EmptyString, EmptyString)
  | String c s' =>
      if Ascii.eqb c "." then (EmptyString, s')
      else let '(w, f) := split_dot s' in (String c w, f)
  end.

(** [float(amount)] on digits with an optional fraction, as an exact
    rational. *)
Definition float_of_amount (amount : string) : Q :=
  let '(w, f) := split_dot amount in
  (inject_Z (int_of_digits w)
   + inject_Z (int_of_digits f) / inject_Z (10 ^ Z.of_nat (String.length f)))%Q.

Record distance_values : Type :=
  { miles : Q; kilometers : Q; meters : Q; feet : Q; yards : Q; inches : Q }.

(** The body of the loop over [matches]. *)
Definition add_distance (dv : distance_values) (m : string * string)
    : distance_values :=
  let '(amount, unit) := m in
  let a := float_of_amount amount in
  if startswith unit "mile" || String.eqb unit "mi" then
    {| miles := miles dv + a; kilometers := kilometers dv; meters := meters dv;
       feet := feet dv; yards := yards dv; inches := inches dv |}
  else if startswith unit "kilometer" || String.eqb unit "km" then
    {| miles := miles dv; kilometers := kilometers dv + a; meters := meters dv;
       feet := feet dv; yards := yards dv; inches := inches dv |}
  else if startswith unit "meter" || String.eqb unit "m" then
    {| miles := miles dv; kilometers := kilometers dv; meters := meters dv + a;
       feet := feet dv; yards := yards dv; inches := inches dv |}
  else if startswith unit "foot" || String.eqb unit "ft" then
    {| miles := miles dv; kilometers := kilometers dv; meters := meters dv;
       feet := feet dv + a; yards := yards dv; inches := inches dv |}
  else if startswith unit "yard" || String.eqb unit "yd" then
    {| miles := miles dv; kilometers := kilometers dv; meters := meters dv;
       feet := feet dv; yards := yards dv + a; inches := inches dv |}
  else if startswith unit "inch" || String.eqb unit "in" then
    {| miles := miles dv; kilometers := kilometers dv; meters := meters dv;
       feet := feet dv; yards := yards dv; inches := inches dv + a |}
  else dv.

Definition miles_of_matches (matches : list (string * string)) : Q :=
  (0 + miles (fold_left add_distance matches
                {| miles := 0; kilometers := 0; meters := 0;
                   feet := 0; yards := 0; inches := 0 |}))%Q.

Definition convert_stringdistance_to_d (distance_string : string) : Q :=
  miles_of_matches (findall2_b true distance_pattern distance_string).

End DistanceParser.

(** ** Project data files: [Project.save_data_file] and its neighbours

    The project's directory is the list of its entries, in the order of
    [os.listdir].  A regular file stands for what [pd.read_csv] makes of
    it: a frame, or the exception it raises; [DataFrame.to_csv] followed
    by [pd.read_csv] is taken to give the frame back.  [self.data] is a
    dictionary from file names to [None] or a frame. *)

Module ProjectFiles.
Local Open Scope list_scope.

(** [str(KeyError(key))] shows the key in quotes. *)
Definition KeyError (key : string) : exn :=
  Exn "KeyError" ("'" +:+ key +:+ "'").
Definition AttributeError : exn :=
  Exn "AttributeError" "'NoneType' object has no attribute 'columns'".
Definition IsADirectoryError : exn := Exn "IsADirectoryError" "Is a directory".
Definition truth_value_error : exn :=
  ValueError "The truth value of a DataFrame is ambiguous.".

Record frame : Type :=
  { columns : list string; rows : list (list Project.pyval) }.

Inductive entry : Type :=
| Regular (content : res frame)
| Directory.

Record store : Type :=
  { files : list (string * entry);
    data : gmap string (option frame) }.

Definition set_files (p : store) (fs : list (string * entry)) : store :=
  {| files := fs; data := data p |}.

Definition set_data (p : store) (file_name : string) (v : option frame) : store :=
  {| files := files p; data := <[file_name := v]> (data p) |}.

(** [Project.data_file_definitions]. *)
Definition slot_columns : list string :=
  ["m_morning_duration_in_traffic"; "m_morning_emissions";
   "m_evening_duration_in_traffic"; "m_evening_emissions";
   "t_morning_duration_in_traffic"; "t_morning_emissions";
   "t_evening_duration_in_traffic"; "t_evening_emissions";
   "w_morning_duration_in_traffic"; "w_morning_emissions";
   "w_evening_duration_in_traffic"; "w_evening_emissions";
   "h_morning_duration_in_traffic"; "h_morning_emissions";
   "h_evening_duration_in_traffic"; "h_evening_emissions";
   "f_morning_duration_in_traffic"; "f_morning_emissions";
   "f_evening_duration_in_traffic"; "f_evening_emissions"].

Definition data_file_definitions : list (string * list string) :=
  [("employee_addresses.csv", ["address"]);
   ("employee_gps.csv", ["address"; "latitude"; "longitude"]);
   ("gps_fuzz.csv", ["latitude"; "longitude"]);
   ("office_addresses.csv", ["address"]);
   ("office_gps.csv", ["address"; "latitude"; "longitude"]);
   ("commute_data.csv",
    ["office_address"; "origin_lat"; "origin_long"; "destination_lat";
     "destination_long"; "miles"; "duration"; "emissions"; "commute_cost"]
    ++ slot_columns)].

(** [d[key]] and [key in d] on that dictionary. *)
Fixpoint definition_of (defs : list (string * list string)) (file_name : string)
    : option (list string) :=
  match defs with
  | [] => None
  | (name, cols) :: defs' =>
      if String.eqb name file_name then Some cols else definition_of defs' file_name
  end.

(** [Project.flush_project], the data container: every defined file,
    with no frame. *)
Definition flush_data : gmap string (option frame) :=
  fold_right (fun d acc => <[fst d := None]> acc) ∅ data_file_definitions.

(** Computations on the project that may raise. *)
Definition M (A : Type) : Type := store -> store * res A.

#[global] Instance M_ret : MRet M := fun A a p => (p, Ok a).
#[global] Instance M_bind : MBind M := fun A B f m p =>
  match m p with
  | (p', Ok a) => f a p'
  | (p', Raise e) => (p', Raise e)
  end.

Definition raise {A : Type} (e : exn) : M A := fun p => (p, Raise e).

(** [try: m except: h] with a bare [except]. *)
Definition try_except {A : Type} (m : M A) (h : M A) : M A :=
  fun p =>
    match m p with
    | (p', Ok a) => (p', Ok a)
    | (p', Raise _) => h p'
    end.

Definition lift {A : Type} (r : res A) : M A := fun p => (p, r).

(** [self.data[file_name] = v]. *)
Definition put_data (file_name : string) (v : option frame) : M unit :=
  fun p => (set_data p file_name v, Ok tt).

(** [Project.list_data_files]. *)
Definition list_data_files (p : store) : list string :=
  List.filter (fun file => Phase.endswith file ".csv") (map fst (files p)).

Fixpoint find_entry (name : string) (fs : list (string * entry)) : option entry :=
  match fs with
  | [] => None
  | (n, x) :: fs' => if String.eqb n name then Some x else find_entry name fs'
  end.

(** [set(cols).issuperset(need)]. *)
Definition issuperset (cols need : list string) : bool :=
  forallb (fun c => Phase.py_in c cols) need.

(** [self.data[file_name]]. *)
Definition data_item (file_name : string) : M (option frame) := fun p =>
  match data p !! file_name with
  | Some v => (p, Ok v)
  | None => (p, Raise (KeyError file_name))
  end.

(** [self.data_file_definitions[file_name]]. *)
Definition definition_item (file_name : string) : res (list string) :=
  match definition_of data_file_definitions file_name with
  | Some cols => Ok cols
  | None => Raise (KeyError file_name)
  end.

(** [Project.validate_data_file]. *)
Definition validate_data_file (file_name : string) (frame_read : frame) : M bool :=
  fun p =>
    if Phase.py_in file_name (list_data_files p) then
      (need ← lift (definition_item file_name);
       mret (issuperset (columns frame_read) need)) p
    else (p, Ok false).

(** [Project.validate_dataframe]. *)
Definition validate_dataframe (file_name : string) : M bool :=
  v ← data_item file_name;
  match v with
  | None => raise AttributeError
  | Some f =>
      need ← lift (definition_item file_name);
      mret (issuperset (columns f) need)
  end.

(** [DataFrame.to_csv(path)]: the file is created or overwritten. *)
Fixpoint write_entry (name : string) (f : frame) (fs : list (string * entry))
    : res (list (string * entry)) :=
  match fs with
  | [] => Ok [(name, Regular (Ok f))]
  | (n, x) :: fs' =>
      if String.eqb n name then
        match x with
        | Regular _ => Ok ((n, Regular (Ok f)) :: fs')
        | Directory => Raise IsADirectoryError
        end
      else fs'' ← write_entry name f fs'; Ok ((n, x) :: fs'')
  end.

Definition to_csv (f : frame) (file_name : string) : M unit := fun p =>
  match write_entry file_name f (files p) with
  | Ok fs => (set_files p fs, Ok tt)
  | Raise e => (p, Raise e)
  end.

(** [pd.read_csv(path)] on a listed file. *)
Definition read_csv (file_name : string) : M frame := fun p =>
  match find_entry file_name (files p) with
  | Some (Regular content) => (p, content)
  | Some Directory => (p, Raise IsADirectoryError)
  | None => (p, Raise (Exn "FileNotFoundError" "No such file or directory"))
  end.

(** [os.remove(path)] on a listed file. *)
Definition os_remove (file_name : string) : M unit := fun p =>
  match find_entry file_name (files p) with
  | Some (Regular _) =>
      (set_files p (List.filter (fun x => negb (String.eqb (fst x) file_name)) (files p)),
       Ok tt)
  | Some Directory => (p, Raise IsADirectoryError)
  | None => (p, Raise (Exn "FileNotFoundError" "No such file or directory"))
  end.

(** The value a function returns: a file name, [True], [False] or
    [None]. *)
Definition py_True : Project.pyval := Project.PyBool true.
Definition py_False : Project.pyval := Project.PyBool false.

(** [Project.save_data_file]. *)
Definition save_data_file (file_name : string) : M Project.pyval :=
  valid ← validate_dataframe file_name;
  if valid : bool then
    v ← data_item file_name;
    match v with
    | Some f => _ ← to_csv f file_name; mret (Project.PyStr file_name)
    | None => raise AttributeError
    end
  else mret py_False.

(** [if x:] on an item of [self.data]: a frame has no truth value. *)
Definition truth (v : option frame) : res bool :=
  match v with
  | None => Ok false
  | Some _ => Raise truth_value_error
  end.

(** [Project.delete_data_file]. *)
Definition delete_data_file (file_name : string) : M Project.pyval := fun p =>
  if Phase.py_in file_name (list_data_files p) then
    (_ ← os_remove file_name;
     _ ← try_except
           (v ← data_item file_name;
            b ← lift (truth v);
            if b : bool then put_data file_name None else mret tt)
           (mret tt);
     mret py_True) p
  else (p, Ok py_False).

(** [Project.load_data_file]; [PyNone] when control falls off the end. *)
Definition load_data_file (file_name : string) : M Project.pyval := fun p =>
  if Phase.py_in file_name (list_data_files p) then
    (frame_read ← read_csv file_name;
     valid ← validate_data_file file_name frame_read;
     if valid : bool then
       _ ← put_data file_name (Some frame_read); mret py_True
     else mret Project.PyNone) p
  else (p, Ok py_False).

(** [Project.start_dataframe]. *)
Definition start_dataframe (file_name : string) : M Project.pyval := fun p =>
  match definition_of data_file_definitions file_name with
  | Some cols =>
      (_ ← put_data file_name (Some {| columns := cols; rows := [] |});
       mret py_True) p
  | None => (p, Ok py_False)
  end.

(** [Project.get_employee_gps] and the getters written like it: load
    the file when no frame is held, and return what is held then. *)
Definition get_data (file_name : string) : M (option frame) :=
  v ← data_item file_name;
  _ ← match v with
      | None => _ ← load_data_file file_name; mret tt
      | Some _ => mret tt
      end;
  data_item file_name.

(** [Project.save_project], the loop over [self.data] (lines 240-242),
    whose keys are those of [data_file_definitions], in that order. *)
Fixpoint save_frames (names : list string) : M unit :=
  match names with
  | [] => mret tt
  | file :: names' =>
      v ← data_item file;
      _ ← match v with
          | Some _ => _ ← save_data_file file; mret tt
          | None => mret tt
          end;
      save_frames names'
  end.

Definition save_project_data : M unit :=
  save_frames (map fst data_file_definitions).

End ProjectFiles.

(** ** GAPI: the wrappers around the Google client ([g_api.py])

    What the client returns is decoded JSON, read with Python's
    subscripts.  The client call itself is its outcome: the value
    returned, or the exception raised. *)

Module Gapi.
Local Open Scope list_scope.

#[warnings="-register-all"]
Inductive json : Type :=
| JNone
| JBool (b : bool)
| JInt (z : Z)
| JFloat (q : Q)
| JStr (s : string)
| JList (l : list json)
| JDict (d : list (string * json)).

Definition type_name (v : json) : string :=
  match v with
  | JNone => "NoneType"
  | JBool _ => "bool"
  | JInt _ => "int"
  | JFloat _ => "float"
  | JStr _ => "str"
  | JList _ => "list"
  | JDict _ => "dict"
  end.

Definition KeyError (key : string) : exn := Exn "KeyError" key.

Definition not_subscriptable (v : json) : exn :=
  TypeError ("'" +:+ type_name v +:+ "' object is not subscriptable").

Fixpoint dict_get (d : list (string * json)) (key : string) : option json :=
  match d with
  | [] => None
  | (k, v) :: d' => if String.eqb k key then Some v else dict_get d' key
  end.

(** [v[0]]. *)
Definition item0 (v : json) : res json :=
  match v with
  | JList l =>
      match l with
      | x :: _ => Ok x
      | [] => Raise (Exn "IndexError" "list index out of range")
      end
  | JStr s =>
      match s with
      | String c _ => Ok (JStr (String c EmptyString))
      | EmptyString => Raise (Exn "IndexError" "string index out of range")
      end
  | JDict _ => Raise (KeyError "0")
  | _ => Raise (not_subscriptable v)
  end.

(** [v[key]] for a string [key]. *)
Definition item (v : json) (key : string) : res json :=
  match v with
  | JDict d =>
      match dict_get d key with
      | Some x => Ok x
      | None => Raise (KeyError ("'" +:+ key +:+ "'"))
      end
  | JList _ => Raise (TypeError "list indices must be integers or slices, not str")
  | JStr _ => Raise (TypeError "string indices must be integers, not 'str'")
  | _ => Raise (not_subscriptable v)
  end.

(** [len(v)]. *)
Definition py_len (v : json) : res Z :=
  match v with
  | JList l => Ok (Z.of_nat (length l))
  | JDict d => Ok (Z.of_nat (length d))
  | JStr s => Ok (Z.of_nat (String.length s))
  | _ => Raise (TypeError ("object of type '" +:+ type_name v +:+ "' has no len()"))
  end.

(** [directions_result[0]["legs"][0][key]["text"]]. *)
Definition first_leg_text (directions_result : json) (key : string) : res json :=
  route ← item0 directions_result;
  legs ← item route "legs";
  leg ← item0 legs;
  entry ← item leg key;
  item entry "text".

(** The [try] block of [GAPI.commute]; [directions] is the outcome of
    [self.gmaps.directions(...)]. *)
Definition commute_try (directions : res json) : res (gmap string json) :=
  directions_result ← directions;
  distance ← first_leg_text directions_result "distance";
  duration ← first_leg_text directions_result "duration";
  duration_in_traffic ← first_leg_text directions_result "duration_in_traffic";
  Ok (<["duration_in_traffic" := duration_in_traffic]>
      (<["duration" := duration]>
       (<["distance" := distance]> ∅))).

Definition dquote : string := String "034"%char EmptyString.

(** [s + t] for a string [s] and a tuple [t], and for a [datetime]. *)
Definition str_add_tuple (s : string) (t : Q * Q) : res string :=
  Raise (TypeError ("can only concatenate str (not " +:+ dquote +:+ "tuple"
                    +:+ dquote +:+ ") to str")).

Definition str_add_datetime (s : string) (t : Z) : res string :=
  Raise (TypeError ("can only concatenate str (not " +:+ dquote
                    +:+ "datetime.datetime" +:+ dquote +:+ ") to str")).

(** [GAPI.commute], called as the analyzer calls it: [origin] and
    [destination] are tuples, [departure_time] a [datetime]. *)
Definition commute (directions : res json) (origin destination : Q * Q)
    (departure_time : Z) : res (gmap string json) :=
  match commute_try directions with
  | Ok commute => Ok commute
  | Raise e =>
      note ← str_add_tuple "Commute triggered an exception trying origin " origin;
      note ← str_add_tuple (note +:+ " and destination ") destination;
      note ← str_add_datetime (note +:+ " at departure time") departure_time;
      let add_note := note +:+ "." in
      Ok (<["Error" := JStr (exn_msg e)]> ∅)
  end.

Definition EmptyResult : exn := Exn "EmptyResult" "Geocode result is empty.".

(** [GAPI.geocode]; [geocoded] is the outcome of
    [self.gmaps.geocode(address)], which is called outside the [try]. *)
Definition geocode (geocoded : res json) (address : string) : res json :=
  geocode_result ← geocoded;
  match (first ← item0 geocode_result;
         geometry ← item first "geometry";
         item geometry "location") with
  | Ok location => Ok location
  | Raise e =>
      n ← py_len geocode_result;
      if (n =? 0)%Z then Raise EmptyResult
      else
        let add_note := "Geocode triggered an exception trying address "
                        +:+ address +:+ "." in
        Raise e
  end.

End Gapi.

(** ** Geocoding: the loop of [Analyzer.convert_addresses_to_gps]

    Lines 346-385, without a log file ([log_csv] is [None]).  The
    geocoding client is an injected capability like the commute
    provider; the state adds the log of its calls and the frame being
    filled to the analyzer's world. *)

Module Geocoder.
Import Builder Gapi.
Local Open Scope list_scope.

Definition geocoder : Type := nat -> string -> Z * res json.

Record geo_call : Type :=
  { geo_address : string; geo_start : Z; geo_end : Z }.

(** A row of [employee_gps.csv] or [office_gps.csv]. *)
Record gps_row : Type :=
  { address : string; latitude : json; longitude : json }.

Record state : Type :=
  { world : Builder.world;
    geo_calls : list geo_call;
    gps_frame : list (Z * gps_row) }.

Definition M (A : Type) : Type := state -> state * res A.

#[global] Instance M_ret : MRet M := fun A a s => (s, Ok a).
#[global] Instance M_bind : MBind M := fun A B f m s =>
  match m s with
  | (s', Ok a) => f a s'
  | (s', Raise e) => (s', Raise e)
  end.

Definition raise {A : Type} (e : exn) : M A := fun s => (s, Raise e).

(** [try: m except Exception as e: h e]. *)
Definition try_except {A : Type} (m : M A) (h : exn -> M A) : M A :=
  fun s =>
    match m s with
    | (s', Ok a) => (s', Ok a)
    | (s', Raise e) => h e s'
    end.

(** A method of the analyzer, run on the analyzer's part of the state. *)
Definition on_world {A : Type} (m : Builder.M A) : M A := fun s =>
  let '(w, r) := m (world s) in
  ({| world := w; geo_calls := geo_calls s; gps_frame := gps_frame s |}, r).

Definition pure {A : Type} (r : res A) : M A := fun s => (s, r).

(** [self.gAPI.geocode(address)]: the client is called, the clock runs,
    and [GAPI.geocode] works on the outcome. *)
Definition gAPI_geocode (client : geocoder) (address : string) : M json := fun s =>
  let w := world s in
  let '(took, outcome) := client (length (geo_calls s)) address in
  ({| world := {| sleep_time := sleep_time w; last_call := last_call w;
                  now := (now w + took)%Z;
                  calls := calls w; sleeps := sleeps w;
                  error_log := error_log w |};
      geo_calls := geo_calls s
                   ++ [{| geo_address := address; geo_start := now w;
                          geo_end := (now w + took)%Z |}];
      gps_frame := gps_frame s |},
   geocode outcome address).

(** [frame.loc[index] = row]: the row with that label is replaced, or
    the row is added at the end. *)
Fixpoint loc_set (frame : list (Z * gps_row)) (index : Z) (row : gps_row)
    : list (Z * gps_row) :=
  match frame with
  | [] => [(index, row)]
  | (i, r) :: frame' =>
      if (i =? index)%Z then (i, row) :: frame'
      else (i, r) :: loc_set frame' index row
  end.

Definition set_row (index : Z) (row : gps_row) : M unit := fun s =>
  ({| world := world s; geo_calls := geo_calls s;
      gps_frame := loc_set (gps_frame s) index row |}, Ok tt).

Definition nl : string := String "010"%char EmptyString.

(** The body of the loop over the rows of the address file. *)
Definition geocode_row (table : gmap string string) (client : geocoder)
    (index : Z) (row_address : string) : M unit :=
  try_except
    (_ ← on_world sleepif;
     latlong ←
       try_except (gAPI_geocode client row_address)
         (fun e =>
            _ ← on_world (log_error ("Exception calling geocode function: "
                                     +:+ exn_msg e +:+ nl));
            if handle_GAPI_exception table e then
              _ ← on_world (sleep backoff);
              try_except (gAPI_geocode client row_address)
                (fun e2 =>
                   _ ← on_world
                         (log_error
                            ("Recoverable error calling geocode function, failed twice. Deemed unrecoverable. Exception: "
                             +:+ exn_msg e2 +:+ nl));
                   raise e2)
            else
              _ ← on_world
                    (log_error
                       ("Unrecoverable error calling geocode, failed once. Exception: "
                        +:+ exn_msg e +:+ nl));
              raise e);
     lat ← pure (item latlong "lat");
     lng ← pure (item latlong "lng");
     set_row index
       {| address := row_address; latitude := lat; longitude := lng |})
    (fun e =>
       _ ← on_world
             (log_error ("Error saving geocode result address: " +:+ row_address
                         +:+ nl +:+ "Got exception: " +:+ exn_msg e));
       raise e).

(** [for index, row in self.project.data[file].iterrows()]. *)
Fixpoint geocode_rows (table : gmap string string) (client : geocoder)
    (addresses : list (Z * string)) : M unit :=
  match addresses with
  | [] => mret tt
  | (index, row_address) :: addresses' =>
      _ ← geocode_row table client index row_address;
      geocode_rows table client addresses'
  end.

End Geocoder.

(** ** Departure times: [Analyzer.get_commute_data], lines 521-540

    A date is its proleptic Gregorian ordinal ([date.toordinal()]; day 1
    is a Monday), a time of day its seconds after midnight, and a
    [datetime] the seconds since the midnight that begins day 0. *)

Module Departures.
Import Commute.
Local Open Scope Z_scope.

(** [date.weekday()]: Monday is 0. *)
Definition weekday (ordinal : Z) : Z := (ordinal + 6) mod 7.

Definition days_until_monday (today : Z) : Z :=
  let days_until_monday := (0 - weekday today) mod 7 in
  if days_until_monday =? 0 then 7 else days_until_monday.

Definition next_monday (today : Z) : Z := today + days_until_monday today.

(** [datetime.combine(date, time)]. *)
Definition combine (date time : Z) : Z := date * 86400 + time.

(** The dictionary [commutes], by slot. *)
Definition commutes (today morning_departure evening_departure : Z) (s : slot)
    : Z :=
  let days := match fst s with
              | Mon => 0 | Tue => 1 | Wed => 2 | Thu => 3 | Fri => 4
              end in
  combine (next_monday today + days)
          (match snd s with
           | Morning => morning_departure
           | Evening => evening_departure
           end).

End Departures.

(** ** The cost of commute time: [Analyzer.get_attrition_analysis],
    lines 2591-2615

    The columns added to the rows of one office.  A cell that pandas
    fills with NaN is [None]. *)

Module TimeCost.
Import Commute.
Local Open Scope Q_scope.
Local Open Scope list_scope.

Definition mornings : list slot :=
  [(Mon, Morning); (Tue, Morning); (Wed, Morning); (Thu, Morning); (Fri, Morning)].

Definition evenings : list slot :=
  [(Mon, Evening); (Tue, Evening); (Wed, Evening); (Thu, Evening); (Fri, Evening)].

Definition sum (l : list Q) : Q := fold_right Qplus 0 l.

(** [Series.mean()]: NaN when there is no value. *)
Definition mean (l : list Q) : option Q :=
  match l with
  | [] => None
  | _ => Some (sum l / inject_Z (Z.of_nat (length l)))
  end.

Fixpoint insert_desc (x : Q) (l : list Q) : list Q :=
  match l with
  | [] => [x]
  | y :: l' => if Qle_bool y x then x :: l else y :: insert_desc x l'
  end.

Definition sort_desc (l : list Q) : list Q := fold_right insert_desc [] l.

(** [Series.nlargest(n)]: the [n] largest values, none when [n <= 0]. *)
Definition nlargest (n : Z) (l : list Q) : list Q :=
  firstn (Z.to_nat n) (sort_desc l).

(** Arithmetic on cells that may be NaN. *)
Definition nan_mul (a : option Q) (b : Q) : option Q :=
  match a with Some x => Some (x * b) | None => None end.

Definition nan_add (a b : option Q) : option Q :=
  match a, b with
  | Some x, Some y => Some (x + y)
  | _, _ => None
  end.

Record time_cost : Type :=
  { morning_average : option Q;
    evening_average : option Q;
    average_top_cdpw_morning : option Q;
    average_top_cdpw_evening : option Q;
    total_average_cost : option Q;
    total_high_cost : option Q }.

Definition time_costs (p : Project.t) (r : row) : res time_cost :=
  let cdpw := Project.commute_days_per_week p in
  let morning_average := mean (map (duration_in_traffic r) mornings) in
  let evening_average := mean (map (duration_in_traffic r) evenings) in
  let top_morning := mean (nlargest cdpw (map (duration_in_traffic r) mornings)) in
  let top_evening := mean (nlargest cdpw (map (duration_in_traffic r) evenings)) in
  per_minute_cost ← py_div (Project.median_salary p) (Project.hours_per_year p * 60);
  let morning_average_cost := nan_mul morning_average per_minute_cost in
  let evening_average_cost := nan_mul evening_average per_minute_cost in
  let morning_high_cost := nan_mul top_morning per_minute_cost in
  let evening_high_cost := nan_mul top_evening per_minute_cost in
  let total_average_time_cost := nan_add morning_average_cost evening_average_cost in
  let total_high_time_cost := nan_add morning_high_cost evening_high_cost in
  Ok {| morning_average := morning_average;
        evening_average := evening_average;
        average_top_cdpw_morning := top_morning;
        average_top_cdpw_evening := top_evening;
        total_average_cost :=
          nan_add total_average_time_cost (Some (commute_cost r));
        total_high_cost :=
          nan_add total_high_time_cost (Some (commute_cost r)) |}.

End TimeCost.

(** ** CommuteMatrixBuilder: the loops of [Analyzer.get_commute_data]

    Lines 565-633, without a log file.  The state is the analyzer's
    world and the frame [self.project.data["commute_data.csv"]], which
    [start_dataframe] has emptied before the loops. *)

Module Matrix.
Import Builder Commute.
Local Open Scope list_scope.

Record state : Type :=
  { world : Builder.world;
    commute_data : list row }.

Definition M (A : Type) : Type := state -> state * res A.

#[global] Instance M_ret : MRet M := fun A a s => (s, Ok a).
#[global] Instance M_bind : MBind M := fun A B f m s =>
  match m s with
  | (s', Ok a) => f a s'
  | (s', Raise e) => (s', Raise e)
  end.

Definition raise {A : Type} (e : exn) : M A := fun s => (s, Raise e).

Definition try_except {A : Type} (m : M A) (h : exn -> M A) : M A :=
  fun s =>
    match m s with
    | (s', Ok a) => (s', Ok a)
    | (s', Raise e) => h e s'
    end.

(** A method of the analyzer, run on the analyzer's part of the state. *)
Definition on_world {A : Type} (m : Builder.M A) : M A := fun s =>
  let '(w, r) := m (world s) in
  ({| world := w; commute_data := commute_data s |}, r).

(** [v == True] on a value of the configuration. *)
Definition eq_True (v : Project.pyval) : bool :=
  match v with
  | Project.PyBool b => b
  | Project.PyNum q => Qeq_bool q 1
  | _ => false
  end.

(** The employee file that lines 460-489 load, and the one whose rows
    line 566 has the loops iterate. *)
Definition loaded_file (use_gps_fuzzing : Project.pyval) : string :=
  if eq_True use_gps_fuzzing || Project.eq_str use_gps_fuzzing "True"
  then "gps_fuzz.csv" else "employee_gps.csv".

Definition data_key (use_gps_fuzzing : Project.pyval) : string :=
  if Project.eq_False use_gps_fuzzing || Project.eq_False use_gps_fuzzing
  then "employee_gps.csv" else "gps_fuzz.csv".

(** [val]: the five cells of the pair, and [-1.0] in the 24 others. *)
Definition new_row (office : Aggregator.office_row) (employee : Aggregator.gps_row)
    : row :=
  {| office_address := Aggregator.address office;
     origin_lat := Aggregator.latitude employee;
     origin_long := Aggregator.longitude employee;
     destination_lat := Aggregator.o_latitude office;
     destination_long := Aggregator.o_longitude office;
     miles := (-1)%Q; duration := (-1)%Q; emissions := (-1)%Q;
     commute_cost := (-1)%Q;
     duration_in_traffic := fun _ => (-1)%Q;
     slot_emissions := fun _ => (-1)%Q |}.

Definition set_duration_in_traffic (r : row) (s : slot) (v : Q) : row :=
  {| office_address := office_address r;
     origin_lat := origin_lat r; origin_long := origin_long r;
     destination_lat := destination_lat r;
     destination_long := destination_long r;
     miles := miles r; duration := duration r;
     emissions := emissions r; commute_cost := commute_cost r;
     duration_in_traffic := upd (duration_in_traffic r) s v;
     slot_emissions := slot_emissions r |}.

Definition set_miles (r : row) (v : Q) : row :=
  {| office_address := office_address r;
     origin_lat := origin_lat r; origin_long := origin_long r;
     destination_lat := destination_lat r;
     destination_long := destination_long r;
     miles := v; duration := duration r;
     emissions := emissions r; commute_cost := commute_cost r;
     duration_in_traffic := duration_in_traffic r;
     slot_emissions := slot_emissions r |}.

Definition set_duration (r : row) (v : Q) : row :=
  {| office_address := office_address r;
     origin_lat := origin_lat r; origin_long := origin_long r;
     destination_lat := destination_lat r;
     destination_long := destination_long r;
     miles := miles r; duration := v;
     emissions := emissions r; commute_cost := commute_cost r;
     duration_in_traffic := duration_in_traffic r;
     slot_emissions := slot_emissions r |}.

(** [frame.loc[len(frame)] = val]. *)
Definition append_row (r : row) : M unit := fun s =>
  ({| world := world s; commute_data := commute_data s ++ [r] |}, Ok tt).

(** [frame.loc[data_row, column] = v] on a row that is there. *)
Definition set_cell (data_row : nat) (f : row -> row) : M unit := fun s =>
  ({| world := world s; commute_data := alter f data_row (commute_data s) |}, Ok tt).

(** The body of the loops over [day] and [time] (lines 579-633). *)
Definition fill_slot (table : gmap string string) (prov : provider)
    (office : Aggregator.office_row) (employee : Aggregator.gps_row)
    (commutes : slot -> Z) (data_row : nat) (s : slot) : M unit :=
  let '(source, destination) :=
    endpoints (Aggregator.o_latitude office, Aggregator.o_longitude office)
              (Aggregator.latitude employee, Aggregator.longitude employee)
              (snd s) in
  commute ← on_world (query_slot table prov source destination (commutes s));
  try_except
    (_ ← set_cell data_row
           (fun r => set_duration_in_traffic r s
                       (inject_Z (UnitParser.convert_stringtime_to_minutes
                                    (Builder.duration_in_traffic commute))));
     if decide (s = (Mon, Morning)) then
       _ ← set_cell data_row
             (fun r => set_miles r
                         (DistanceParser.convert_stringdistance_to_d
                            (Builder.distance commute)));
       set_cell data_row
         (fun r => set_duration r
                     (inject_Z (UnitParser.convert_stringtime_to_minutes
                                  (Builder.duration commute))))
     else mret tt)
    (fun e =>
       _ ← on_world (log_error ("Exception updating commute data: " +:+ exn_msg e
                                +:+ Geocoder.nl));
       raise e).

Fixpoint fill_slots (table : gmap string string) (prov : provider)
    (office : Aggregator.office_row) (employee : Aggregator.gps_row)
    (commutes : slot -> Z) (data_row : nat) (ss : list slot) : M unit :=
  match ss with
  | [] => mret tt
  | s :: ss' =>
      _ ← fill_slot table prov office employee commutes data_row s;
      fill_slots table prov office employee commutes data_row ss'
  end.

(** The body of the loop over the employees (lines 570-633). *)
Definition commute_row (table : gmap string string) (prov : provider)
    (commutes : slot -> Z) (office : Aggregator.office_row)
    (employee : Aggregator.gps_row) : M unit := fun s =>
  let data_row := length (commute_data s) in
  (_ ← append_row (new_row office employee);
   fill_slots table prov office employee commutes data_row slots) s.

Fixpoint office_rows (table : gmap string string) (prov : provider)
    (commutes : slot -> Z) (office : Aggregator.office_row)
    (employees : list Aggregator.gps_row) : M unit :=
  match employees with
  | [] => mret tt
  | employee :: employees' =>
      _ ← commute_row table prov commutes office employee;
      office_rows table prov commutes office employees'
  end.

(** The loop over the offices (lines 567-633). *)
Fixpoint commute_rows (table : gmap string string) (prov : provider)
    (commutes : slot -> Z) (offices : list Aggregator.office_row)
    (employees : list Aggregator.gps_row) : M unit :=
  match offices with
  | [] => mret tt
  | office :: offices' =>
      _ ← office_rows table prov commutes office employees;
      commute_rows table prov commutes offices' employees
  end.

End Matrix.

(** ** Graphing: [get_commute_values] and [filter_drive_time] *)

Module Selection.
Import Commute Aggregator.
Local Open Scope list_scope.

(** [series.isin(values)] on one cell. *)
Definition isin (x : Q) (values : list Q) : bool :=
  existsb (fun v => Qeq_bool x v) values.

(** [Graphing.get_commute_values] with every column asked for, as the
    analyzer calls it: the rows of [commute_data] selected by the boolean
    mask, in their order ([origin_lat] and [origin_long] are then renamed
    [latitude] and [longitude]).  [office.iloc[0]] needs a first row. *)
Definition get_commute_values (emp : list gps_row) (office : list office_row)
    (commute_data : list row) : res (list row) :=
  match office with
  | [] => Raise (Exn "IndexError" "single positional indexer is out-of-bounds")
  | office0 :: _ =>
      Ok (List.filter
            (fun r =>
               Qeq_bool (destination_lat r) (o_latitude office0)
               && Qeq_bool (destination_long r) (o_longitude office0)
               && (isin (origin_lat r) (map latitude emp)
                   && isin (origin_long r) (map longitude emp)))
            commute_data)
  end.

(** [Graphing.filter_drive_time], the inner [check_t]. *)
Definition check_t (lat long : Q) (targets : list office_row) (minutes : Q)
    (commute_data : list row) (inside : bool) : bool :=
  existsb
    (fun t =>
       existsb
         (fun row2 =>
            if inside && Qle_bool (duration_in_traffic row2 (Mon, Morning)) minutes
            then true
            else if negb inside
                    && Qltb minutes (duration_in_traffic row2 (Mon, Morning))
            then true
            else false)
         (List.filter
            (fun r =>
               Qeq_bool (origin_lat r) lat && Qeq_bool (origin_long r) long
               && Qeq_bool (destination_lat r) (o_latitude t)
               && Qeq_bool (destination_long r) (o_longitude t))
            commute_data))
    targets.

Definition filter_drive_time (sources : list gps_row) (targets : list office_row)
    (minutes : Q) (commute_data : list row) (inside : bool) : list gps_row :=
  map (fun s => {| latitude := latitude s; longitude := longitude s |})
    (List.filter
       (fun s => check_t (latitude s) (longitude s) targets minutes
                   commute_data inside)
       sources).

End Selection.

(** * Vocabulary of the properties

    The predicates in which the properties below are stated, and the
    data of the worked scenarios. *)

Module UnitParserTerms.
Import Regex UnitParser.

(** How the source's loop classifies a unit. *)
Definition is_hour (unit : string) : bool :=
  startswith unit "hour" || String.eqb unit "hrs".

Definition is_minute (unit : string) : bool :=
  negb (is_hour unit) && startswith unit "min".

Definition sum_if (f : string -> bool) (matches : list (string * string)) : Z :=
  fold_right (fun m acc => if f (snd m) then (int_of_digits (fst m) + acc)%Z else acc)
             0%Z matches.

End UnitParserTerms.

Module PhaseTerms.
Import Phase.

Definition has (a : analyzer) (file : string) : bool :=
  py_in file (list_data_files a).

(** Fuzzing is resolved: the fuzzed file is there, or fuzzing is off. *)
Definition fuzz_resolved (a : analyzer) (p : Project.t) : bool :=
  has a "gps_fuzz.csv"
  || Project.eq_False (Project.use_gps_fuzzing p)
  || Project.eq_str (Project.use_gps_fuzzing p) "False".

End PhaseTerms.

Module ClassifierTerms.
Import Commute.
Local Open Scope Q_scope.

(** The regime as a function of the average speed. *)
Definition regime_of_speed (p : Project.t) (average_speed : Q) : Z :=
  if Qltb average_speed (Project.traffic_regime_2 p) then 1%Z
  else if Qltb average_speed (Project.traffic_regime_3 p) then 2%Z
  else 3%Z.

End ClassifierTerms.

Module AnnotatorTerms.
Import Commute.
Local Open Scope Q_scope.

(** What the annotation writes for slot [s] of the row [r0]. *)
Definition slot_written (p : Project.t) (r0 r' : row) (s : slot) : Prop :=
  exists regime : Z,
    get_traffic_regime p (miles r0) (duration_in_traffic r0 s) = Ok regime
    /\ slot_emissions r' s
       = miles r0 * Project.CO2_per_mile p * get_traffic_emissions_factor p regime.

(** The columns the slot loop leaves alone. *)
Definition same_inputs (r r' : row) : Prop :=
  office_address r' = office_address r
  /\ miles r' = miles r
  /\ emissions r' = emissions r
  /\ commute_cost r' = commute_cost r
  /\ duration_in_traffic r' = duration_in_traffic r.

(** One row: the base emissions and the ten slot emissions. *)
Definition row_annotated (p : Project.t) (r0 r' : row) : Prop :=
  miles r' = miles r0
  /\ duration_in_traffic r' = duration_in_traffic r0
  /\ commute_cost r' = commute_cost r0
  /\ emissions r' = miles r0 * Project.CO2_per_mile p
  /\ forall s : slot, slot_written p r0 r' s.

Definition scenario_row : row :=
  {| office_address := "A"; origin_lat := 1; origin_long := 2;
     destination_lat := 3; destination_long := 4;
     miles := 20; duration := 35; emissions := -1; commute_cost := -1;
     duration_in_traffic := fun _ => 40;
     slot_emissions := fun _ => -1 |}.

(** A row with its miles populated whose Wednesday-evening duration is 0,
    as the duration parser gives for a text it finds no hour or minute in. *)
Definition degenerate_row : row :=
  {| office_address := "A"; origin_lat := 1; origin_long := 2;
     destination_lat := 3; destination_long := 4;
     miles := 20; duration := 35; emissions := -1; commute_cost := -1;
     duration_in_traffic :=
       fun s => if decide (s = (Wed, Evening)) then 0 else 40;
     slot_emissions := fun _ => -1 |}.

End AnnotatorTerms.

Module BuilderTerms.
Import Builder.
Local Open Scope Z_scope.
Local Open Scope list_scope.

Definition slot_query (source destination : gps) (departure : Z) : query :=
  {| q_origin := (fst source, snd source);
     q_destination := (fst destination, snd destination);
     q_departure := departure |}.

(** [m] never assigns [last_call] or [sleep_time]. *)
Definition keeps_throttle {A : Type} (m : M A) : Prop :=
  forall w, last_call (fst (m w)) = last_call w
            /\ sleep_time (fst (m w)) = sleep_time w.

Definition not_callable : exn := TypeError "'tuple' object is not callable".

Definition office_A : gps := (389 # 10, -770 # 10)%Q.

Definition employee_1 : gps := (390 # 10, -771 # 10)%Q.

Definition some_reply : reply :=
  {| distance := "14.3 mi"; duration := "25 mins";
     duration_in_traffic := "1 hour 12 mins" |}.

(** A provider that times out on its first call and answers afterwards;
    every call takes a second. *)
Definition times_out_once : provider := fun n _ =>
  match n with
  | O => (1000000, Raise (Exn "Timeout" "timed out"))
  | S _ => (1000000, Ok some_reply)
  end.

(** A provider that always answers, each call taking a second. *)
Definition steady : provider := fun _ _ => (1000000, Ok some_reply).

(** The time between the end of a call and the start of the next. *)
Fixpoint gaps (cs : list call) : list Z :=
  match cs with
  | c1 :: (c2 :: _) as cs' => (call_start c2 - call_end c1) :: gaps cs'
  | _ => []
  end.

End BuilderTerms.

Module AggregatorTerms.
Import Commute Aggregator.
Local Open Scope Q_scope.
Local Open Scope list_scope.








(** Scenario 3: one employee, the baseline office A ten miles away at a
    commute cost of 10, the alternative B sixty miles away, beyond the
    cutoff of 50. *)
Definition s3_employee : gps_row := {| latitude := 390 # 10; longitude := -771 # 10 |}.

Definition s3_office_A : office_row :=
  {| address := "A"; o_latitude := 389 # 10; o_longitude := -770 # 10 |}.

Definition s3_office_B : office_row :=
  {| address := "B"; o_latitude := 395 # 10; o_longitude := -765 # 10 |}.

Definition s3_row (office : office_row) (miles cost : Q) : row :=
  {| office_address := address office;
     origin_lat := latitude s3_employee; origin_long := longitude s3_employee;
     destination_lat := o_latitude office; destination_long := o_longitude office;
     miles := miles; duration := 30; emissions := -1; commute_cost := cost;
     duration_in_traffic := fun _ => 40; slot_emissions := fun _ => -1 |}.

Definition s3_commute_data : list row :=
  [s3_row s3_office_A 10 10; s3_row s3_office_B 60 (402 # 10)].

Definition attrition_base : list total_cost_row :=
  [{| t_latitude := 390 # 10; t_longitude := -771 # 10; t_office := "A";
      total_average_cost := 20; total_high_cost := 25 |};
   {| t_latitude := 391 # 10; t_longitude := -772 # 10; t_office := "A";
      total_average_cost := 30; total_high_cost := 32 |}].

Definition attrition_alt : list total_cost_row :=
  [{| t_latitude := 390 # 10; t_longitude := -771 # 10; t_office := "B";
      total_average_cost := 60; total_high_cost := 70 |};
   {| t_latitude := 391 # 10; t_longitude := -772 # 10; t_office := "B";
      total_average_cost := 31; total_high_cost := 33 |}].

End AggregatorTerms.

Module ParserTerms.
Import Regex UnitParser.

(** A non-empty string of decimal digits. *)
Definition all_digits (s : string) : bool :=
  forallb is_digit (list_ascii_of_string s).

Definition digits (s : string) : Prop :=
  s <> EmptyString /\ all_digits s = true.

(** The text does not go on with a digit. *)
Definition no_digit_ahead (s : string) : Prop :=
  match s with String c _ => is_digit c = false | EmptyString => True end.

(** A duration token as the provider writes it: an amount, a blank, and
    "hour", "hours", "min" or "mins". *)
Inductive time_unit : Type := UHour | UMin.

Record time_token : Type :=
  { tk_amount : string; tk_unit : time_unit; tk_plural : bool }.

Definition unit_name (u : time_unit) : string :=
  match u with UHour => "hour" | UMin => "min" end.

Definition plural_s (b : bool) : string := if b then "s" else EmptyString.

Definition render (t : time_token) : string :=
  tk_amount t +:+ " " +:+ unit_name (tk_unit t) +:+ plural_s (tk_plural t).

(** The tokens joined by single blanks, as in "1 hour 12 mins". *)
Fixpoint duration_text (ts : list time_token) : string :=
  match ts with
  | [] => EmptyString
  | [t] => render t
  | t :: ts' => render t +:+ " " +:+ duration_text ts'
  end.

(** What [re.findall] gives for a token: the amount and the unit the
    pattern captures (the plural "s" is outside the group). *)
Definition token_pair (t : time_token) : string * string :=
  (tk_amount t, unit_name (tk_unit t)).

Definition token_minutes (t : time_token) : Z :=
  match tk_unit t with
  | UHour => (60 * int_of_digits (tk_amount t))%Z
  | UMin => int_of_digits (tk_amount t)
  end.

Definition duration_minutes (ts : list time_token) : Z :=
  fold_right (fun t acc => (token_minutes t + acc)%Z) 0%Z ts.

End ParserTerms.

Module DistanceTerms.
Import Regex UnitParser DistanceParser ParserTerms.
Local Open Scope Q_scope.

(** How the source's loop classifies a unit as miles. *)
Definition is_mile (unit : string) : bool :=
  startswith unit "mile" || String.eqb unit "mi".

Definition sum_miles (matches : list (string * string)) : Q :=
  fold_right (fun m acc => if is_mile (snd m) then float_of_amount (fst m) + acc else acc)
             0 matches.

(** The value of the decimal numeral [w.f]. *)
Definition decimal (w f : string) : Q :=
  inject_Z (int_of_digits w)
  + inject_Z (int_of_digits f) / inject_Z (10 ^ Z.of_nat (String.length f)).

(** The units in which the provider writes a distance. *)
Inductive distance_unit : Type := UMi | UFt | UKm | UM.

Definition distance_unit_name (u : distance_unit) : string :=
  match u with UMi => "mi" | UFt => "ft" | UKm => "km" | UM => "m" end.

(** An amount: digits, and maybe a point and more digits. *)
Definition amount_text (w : string) (f : option string) : string :=
  match f with Some f' => w +:+ String "." f' | None => w end.

Definition fraction_ok (f : option string) : Prop :=
  match f with Some f' => digits f' | None => True end.

Definition amount_value (w : string) (f : option string) : Q :=
  match f with Some f' => decimal w f' | None => inject_Z (int_of_digits w) end.

(** A distance as the provider writes it, as in "14.3 mi" or "500 ft". *)
Definition distance_text (w : string) (f : option string) (u : distance_unit)
    : string :=
  amount_text w f +:+ String " " (distance_unit_name u).

(** What can follow the digits of a thousands group: a digit or the
    comma. *)
Definition digit_or_comma (c : ascii) : bool := is_digit c || Ascii.eqb c ",".

End DistanceTerms.

Module ProjectFilesTerms.
Import ProjectFiles.
Local Open Scope list_scope.

(** No data file's name is taken by a directory. *)
Definition no_directory (p : store) : Prop :=
  forall name, In name (map fst data_file_definitions) ->
    find_entry name (files p) <> Some Directory.

(** [self.data] has the keys [flush_project] gave it. *)
Definition flushed_keys (p : store) : Prop :=
  forall name, In name (map fst data_file_definitions) ->
    exists v, data p !! name = Some v.

(** The frame has the columns the file's definition asks for. *)
Definition valid_for (file_name : string) (f : frame) : Prop :=
  exists need, definition_of data_file_definitions file_name = Some need
               /\ issuperset (columns f) need = true.

(** The file on disk holds the frame. *)
Definition synced (p : store) (file_name : string) (f : frame) : Prop :=
  find_entry file_name (files p) = Some (Regular (Ok f)).

(** A project directory with a file the definitions do not know. *)
Definition notes_project : store :=
  {| files := [("notes.csv", Regular (Ok {| columns := ["text"]; rows := [] |}))];
     data := flush_data |}.

(** A project that holds the office coordinates in memory and on disk. *)
Definition office_frame : frame :=
  {| columns := ["address"; "latitude"; "longitude"];
     rows := [[Project.PyStr "1 Main St"; Project.PyNum 40; Project.PyNum (-75)]] |}.

Definition office_project : store :=
  {| files := [("project.json", Regular (Raise (Exn "ParserError" "not a table")));
               ("office_gps.csv", Regular (Ok office_frame))];
     data := <["office_gps.csv" := Some office_frame]> flush_data |}.

End ProjectFilesTerms.

Module GapiTerms.
Import Gapi.
Local Open Scope list_scope.

(** An answer of the directions service with one route of one leg. *)
Definition text_entry (s : string) : json := JDict [("text", JStr s)].

Definition one_leg (distance duration duration_in_traffic : string) : json :=
  JList [JDict [("legs",
    JList [JDict [("distance", text_entry distance);
                  ("duration", text_entry duration);
                  ("duration_in_traffic", text_entry duration_in_traffic)]])]].

End GapiTerms.

Module GeocoderTerms.
Import Builder Gapi Geocoder.
Local Open Scope list_scope.

(** An answer that locates the address. *)
Definition located (lat lng : json) : json :=
  JList [JDict [("geometry",
    JDict [("location", JDict [("lat", lat); ("lng", lng)])])]].

Definition asked (s : state) : list string := map geo_address (geo_calls s).

(** A geocoder that is over its query limit at the first call and
    answers afterwards. *)
Definition over_limit_once : geocoder := fun n _ =>
  match n with
  | O => (1000000%Z, Raise (Exn "_OverQueryLimit" "over query limit"))
  | _ => (1000000%Z, Ok (located (JFloat 40) (JFloat (-75))))
  end.

Definition start (t : Z) : state :=
  {| world := init t; geo_calls := []; gps_frame := [] |}.

(** A geocoder that answers every call, with the place [place] gives the
    address. *)
Definition answers (client : geocoder) (place : string -> json * json) : Prop :=
  forall n a, exists took,
    client n a = (took, Ok (located (fst (place a)) (snd (place a)))).

Definition row_of (place : string -> json * json) (x : Z * string)
    : Z * gps_row :=
  (fst x, {| address := snd x; latitude := fst (place (snd x));
             longitude := snd (place (snd x)) |}).

(** A computation that leaves the frame alone, and one that does so at
    least when it raises. *)
Definition keeps_frame {A : Type} (m : M A) : Prop :=
  forall s, gps_frame (fst (m s)) = gps_frame s.

Definition keeps_frame_if_raised {A : Type} (m : M A) : Prop :=
  forall s, match snd (m s) with
            | Raise _ => gps_frame (fst (m s)) = gps_frame s
            | Ok _ => True
            end.

(** A geocoder that knows two addresses. *)
Definition two_places (a : string) : json * json :=
  if String.eqb a "1 Main St" then (JFloat 40, JFloat (-75))
  else (JFloat 41, JFloat (-74)).

Definition knows_two : geocoder := fun _ a =>
  (1000000%Z, Ok (located (fst (two_places a)) (snd (two_places a)))).

(** A geocoder whose answer has no result. *)
Definition finds_nothing : geocoder := fun _ _ => (1000000%Z, Ok (JList [])).

End GeocoderTerms.

Module ThrottleTerms.
Import Builder.
Local Open Scope Z_scope.
Local Open Scope list_scope.

(** The world after [time.sleep x]. *)
Definition slept (w : world) (x : Q) : world :=
  {| sleep_time := sleep_time w; last_call := last_call w;
     now := now w + Qfloor (x * 1000000);
     calls := calls w; sleeps := sleeps w ++ [x];
     error_log := error_log w |}.

End ThrottleTerms.

Module DeparturesTerms.
Import Commute Departures.
Local Open Scope Z_scope.



End DeparturesTerms.

Module AnnotationTerms.
Import Commute.
Local Open Scope Q_scope.
Local Open Scope list_scope.

(** Two rows with the same cells. *)
Definition same_cells (r r' : row) : Prop :=
  office_address r' = office_address r
  /\ origin_lat r' = origin_lat r /\ origin_long r' = origin_long r
  /\ destination_lat r' = destination_lat r
  /\ destination_long r' = destination_long r
  /\ miles r' = miles r /\ duration r' = duration r
  /\ emissions r' = emissions r /\ commute_cost r' = commute_cost r
  /\ (forall s, duration_in_traffic r' s = duration_in_traffic r s)
  /\ (forall s, slot_emissions r' s = slot_emissions r s).

(** The frame of the scenario row, annotated once. *)
Definition annotated_once : list row :=
  match get_commute_emissions Project.default [AnnotatorTerms.scenario_row] with
  | Ok data => data
  | Raise _ => []
  end.

End AnnotationTerms.

Module TimeCostTerms.
Import Commute TimeCost.
Local Open Scope Q_scope.
Local Open Scope list_scope.

(** Every value of [a] is at least every value of [b]. *)
Definition dominates (a b : list Q) : Prop :=
  forall x y, In x a -> In y b -> y <= x.

(** In decreasing order. *)
Fixpoint decreasing (l : list Q) : Prop :=
  match l with
  | [] => True
  | x :: l' => (forall y, In y l' -> y <= x) /\ decreasing l'
  end.

Definition len (l : list Q) : Q := inject_Z (Z.of_nat (length l)).

(** The default project, with no commute day a week. *)
Definition no_commute_days : Project.t :=
  {| Project.use_gps_fuzzing := Project.use_gps_fuzzing Project.default;
     Project.commute_range_cut_off := Project.commute_range_cut_off Project.default;
     Project.commute_days_per_week := 0;
     Project.commute_weeks_per_year := Project.commute_weeks_per_year Project.default;
     Project.CO2_per_mile := Project.CO2_per_mile Project.default;
     Project.traffic_regime_1 := Project.traffic_regime_1 Project.default;
     Project.traffic_regime_2 := Project.traffic_regime_2 Project.default;
     Project.traffic_regime_3 := Project.traffic_regime_3 Project.default;
     Project.traffic_regime_1_coeff := Project.traffic_regime_1_coeff Project.default;
     Project.traffic_regime_2_coeff := Project.traffic_regime_2_coeff Project.default;
     Project.traffic_regime_3_coeff := Project.traffic_regime_3_coeff Project.default;
     Project.mileage_rate := Project.mileage_rate Project.default;
     Project.turnover_threshold_due_to_cost :=
       Project.turnover_threshold_due_to_cost Project.default;
     Project.turnover_probability_time_cost :=
       Project.turnover_probability_time_cost Project.default;
     Project.employee_replacement_cost :=
       Project.employee_replacement_cost Project.default;
     Project.median_salary := Project.median_salary Project.default;
     Project.hours_per_year := Project.hours_per_year Project.default |}.

End TimeCostTerms.

Module MatrixTerms.
Import Builder Commute Matrix.
Local Open Scope list_scope.

(** The query of a slot for an office and an employee. *)
Definition query_of (commutes : slot -> Z) (office : Aggregator.office_row)
    (employee : Aggregator.gps_row) (s : slot) : query :=
  let '(source, destination) :=
    endpoints (Aggregator.o_latitude office, Aggregator.o_longitude office)
              (Aggregator.latitude employee, Aggregator.longitude employee)
              (snd s) in
  BuilderTerms.slot_query source destination (commutes s).

(** A provider that answers every query, with the reply [answer] gives
    it. *)
Definition answers (prov : provider) (answer : query -> reply) : Prop :=
  forall n q, exists took, prov n q = (took, Ok (answer q)).

(** What the replies make of the duration of a slot, and of the miles
    and the duration of the pair. *)
Definition slot_minutes (answer : query -> reply) (commutes : slot -> Z)
    (office : Aggregator.office_row) (employee : Aggregator.gps_row) (s : slot) : Q :=
  inject_Z (UnitParser.convert_stringtime_to_minutes
              (Builder.duration_in_traffic (answer (query_of commutes office employee s)))).

(** The row of a pair once its ten slots are filled: the miles and the
    duration come from the reply for Monday morning, and the cost and
    emission cells still hold [-1]. *)
Definition filled_row (answer : query -> reply) (commutes : slot -> Z)
    (office : Aggregator.office_row) (employee : Aggregator.gps_row) : row :=
  let first := answer (query_of commutes office employee (Mon, Morning)) in
  {| office_address := Aggregator.address office;
     origin_lat := Aggregator.latitude employee;
     origin_long := Aggregator.longitude employee;
     destination_lat := Aggregator.o_latitude office;
     destination_long := Aggregator.o_longitude office;
     miles := DistanceParser.convert_stringdistance_to_d (Builder.distance first);
     duration := inject_Z (UnitParser.convert_stringtime_to_minutes
                             (Builder.duration first));
     emissions := (-1)%Q; commute_cost := (-1)%Q;
     duration_in_traffic := slot_minutes answer commutes office employee;
     slot_emissions := fun _ => (-1)%Q |}.

(** What the loop body writes into the row for a slot. *)
Definition slot_update (answer : query -> reply) (commutes : slot -> Z)
    (office : Aggregator.office_row) (employee : Aggregator.gps_row) (s : slot)
    (r : row) : row :=
  let commute := answer (query_of commutes office employee s) in
  let r1 := set_duration_in_traffic r s
              (slot_minutes answer commutes office employee s) in
  if decide (s = (Mon, Morning)) then
    set_duration
      (set_miles r1 (DistanceParser.convert_stringdistance_to_d
                       (Builder.distance commute)))
      (inject_Z (UnitParser.convert_stringtime_to_minutes (Builder.duration commute)))
  else r1.

Definition slots_update (answer : query -> reply) (commutes : slot -> Z)
    (office : Aggregator.office_row) (employee : Aggregator.gps_row)
    (ss : list slot) (r : row) : row :=
  fold_left (fun r s => slot_update answer commutes office employee s r) ss r.

(** The pairs in the order of the loops: office by office, and the
    employees in their order for each. *)
Definition pairs (offices : list Aggregator.office_row)
    (employees : list Aggregator.gps_row)
    : list (Aggregator.office_row * Aggregator.gps_row) :=
  flat_map (fun o => map (fun e => (o, e)) employees) offices.

(** The queries of a pair, in the order of the slots. *)
Definition pair_queries (commutes : slot -> Z)
    (pair : Aggregator.office_row * Aggregator.gps_row) : list query :=
  map (query_of commutes (fst pair) (snd pair)) slots.

(** Two offices, two employees, and a provider whose replies do not
    depend on the query. *)
Definition office_a : Aggregator.office_row :=
  {| Aggregator.address := "A"; Aggregator.o_latitude := 40;
     Aggregator.o_longitude := (-75)%Q |}.

Definition office_b : Aggregator.office_row :=
  {| Aggregator.address := "B"; Aggregator.o_latitude := 41;
     Aggregator.o_longitude := (-74)%Q |}.

Definition employee_x : Aggregator.gps_row :=
  {| Aggregator.latitude := 40.5; Aggregator.longitude := (-75.5)%Q |}.

Definition employee_y : Aggregator.gps_row :=
  {| Aggregator.latitude := 40.7; Aggregator.longitude := (-74.5)%Q |}.

Definition same_reply (q : query) : reply :=
  {| distance := "14.3 mi"; Builder.duration := "25 mins";
     Builder.duration_in_traffic := "31 mins" |}.

Definition always_answers : provider := fun _ q => (1000000%Z, Ok (same_reply q)).

Definition always_fails : provider :=
  fun _ _ => (1000000%Z, Raise (Exn "ApiError" "denied")).

Definition start (t : Z) : state := {| world := init t; commute_data := [] |}.

Definition asked (s : state) : list query := map call_query (calls (world s)).

End MatrixTerms.

Module SelectionTerms.
Import Commute Aggregator Selection.
Local Open Scope Q_scope.
Local Open Scope list_scope.

(** The commute data holds a row from the place to one of the targets. *)
Definition has_row (lat lon : Q) (targets : list office_row)
    (commute_data : list row) : Prop :=
  exists t r, In t targets /\ In r commute_data
    /\ origin_lat r == lat /\ origin_long r == lon
    /\ destination_lat r == o_latitude t /\ destination_long r == o_longitude t.

(** The row goes to the office. *)
Definition goes_to (r : row) (office : office_row) : Prop :=
  destination_lat r == o_latitude office
  /\ destination_long r == o_longitude office.

(** The check of a filter, for the cell [value] of a row. *)
Definition check (value : row -> Q) (lat lon : Q) (targets : list office_row)
    (bound : Q) (commute_data : list row) (inside : bool) : bool :=
  existsb
    (fun t =>
       existsb
         (fun row2 =>
            if inside && Qle_bool (value row2) bound then true
            else if negb inside && Qltb bound (value row2) then true
            else false)
         (List.filter
            (fun r =>
               Qeq_bool (origin_lat r) lat && Qeq_bool (origin_long r) lon
               && Qeq_bool (destination_lat r) (o_latitude t)
               && Qeq_bool (destination_long r) (o_longitude t))
            commute_data))
    targets.

(** Two employees, an office, and a commute row whose origin has the
    latitude of the first employee and the longitude of the second. *)
Definition emp_1 : gps_row := {| latitude := 40.5; longitude := -75.5 |}.
Definition emp_2 : gps_row := {| latitude := 40.7; longitude := -74.5 |}.

Definition the_office : office_row :=
  {| address := "A"; o_latitude := 40; o_longitude := -75 |}.

Definition stray_row : row :=
  {| office_address := "A"; origin_lat := 40.5; origin_long := -74.5;
     destination_lat := 40; destination_long := -75;
     miles := 12; duration := 20; emissions := -1; commute_cost := -1;
     duration_in_traffic := fun _ => 25;
     slot_emissions := fun _ => -1 |}.

End SelectionTerms.

(** * Properties *)

(** ** Comparisons on numbers *)

Lemma Qltb_lt (a b : Q) : Qltb a b = true <-> (a < b)%Q.
Proof.
  unfold Qltb. rewrite negb_true_iff. split.
  - intros H. apply Qnot_le_lt. intros Hle.
    apply Qle_bool_iff in Hle. congruence.
  - intros H. destruct (Qle_bool b a) eqn:E; [|reflexivity].
    apply Qle_bool_iff in E. exfalso. apply (Qlt_not_le _ _ H E).
Qed.

Lemma Qltb_ge (a b : Q) : Qltb a b = false <-> (b <= a)%Q.
Proof.
  unfold Qltb. rewrite negb_false_iff. apply Qle_bool_iff.
Qed.

(** ** UnitParser *)

Module UnitParserFacts.
Import Regex UnitParser.
Import UnitParserTerms.

Lemma fold_add_match (matches : list (string * string)) (tv : time_values) :
  hours (fold_left add_match matches tv) = (hours tv + sum_if is_hour matches)%Z
  /\ minutes (fold_left add_match matches tv)
     = (minutes tv + sum_if is_minute matches)%Z.
Proof.
  revert tv. induction matches as [|[amount unit] matches IH]; intros tv.
  - simpl. split; lia.
  - cbn [fold_left]. destruct (IH (add_match tv (amount, unit))) as [Hh Hm].
    rewrite Hh, Hm. clear IH Hh Hm.
    unfold sum_if at 2 4. cbn [fold_right fst snd]. fold (sum_if is_hour matches).
    fold (sum_if is_minute matches).
    unfold add_match, is_minute, is_hour.
    destruct (startswith unit "hour" || String.eqb unit "hrs"); cbn [hours minutes negb andb].
    + split; lia.
    + destruct (startswith unit "min"); cbn [hours minutes]; [split; lia|].
      destruct (startswith unit "sec"); cbn [hours minutes]; split; lia.
Qed.

(** The total is sixty times the hour amounts plus the minute amounts;
    the seconds field never enters it. *)
Lemma minutes_of_matches_sum (matches : list (string * string)) :
  minutes_of_matches matches
  = (sum_if is_hour matches * 60 + sum_if is_minute matches)%Z.
Proof.
  unfold minutes_of_matches, total_minutes.
  destruct (fold_add_match matches {| hours := 0; minutes := 0; seconds := 0 |})
    as [Hh Hm].
  rewrite Hh, Hm. simpl. lia.
Qed.

(** A seconds token leaves the total as it was. *)
Lemma seconds_token_dropped (matches : list (string * string)) (amount : string) :
  minutes_of_matches (matches ++ [(amount, "sec")]) = minutes_of_matches matches
  /\ minutes_of_matches (matches ++ [(amount, "second")])
     = minutes_of_matches matches.
Proof.
  rewrite !minutes_of_matches_sum. unfold sum_if.
  rewrite !fold_right_app. simpl. split; reflexivity.
Qed.

(** A string in which the pattern finds nothing yields 0. *)
Lemma no_match_zero (time_string : string) :
  findall2 true time_pattern time_string = [] ->
  convert_stringtime_to_minutes time_string = 0%Z.
Proof.
  unfold convert_stringtime_to_minutes. intros ->. reflexivity.
Qed.

Example hour_and_minutes :
  convert_stringtime_to_minutes "1 hour 12 mins" = 72%Z.
Proof. vm_compute. reflexivity. Qed.

Example hour_and_seconds :
  convert_stringtime_to_minutes "1 hour 5 seconds" = 60%Z.
Proof. vm_compute. reflexivity. Qed.

Example empty_string : convert_stringtime_to_minutes EmptyString = 0%Z.
Proof. vm_compute. reflexivity. Qed.

(** On tokens whose unit is spelled in lower case as the pattern lists
    it, the source's total is the specification's. *)
Lemma lower_case_units_sums (matches : list (string * string)) :
  Forall (fun m => In (snd m) ["hour"; "minute"; "second"; "min"; "sec"; "hrs"])
         matches ->
  sum_if is_hour matches = DurationSpec.sum_kind DurationSpec.Hours matches
  /\ sum_if is_minute matches
     = DurationSpec.sum_kind DurationSpec.Minutes matches.
Proof.
  induction 1 as [|[amount unit] matches Hin _ [IHh IHm]]; [split; reflexivity|].
  cbn [snd] in Hin. unfold sum_if, DurationSpec.sum_kind.
  cbn [fold_right fst snd].
  fold (sum_if is_hour matches). fold (sum_if is_minute matches).
  fold (DurationSpec.sum_kind DurationSpec.Hours matches).
  fold (DurationSpec.sum_kind DurationSpec.Minutes matches).
  rewrite <- IHh, <- IHm.
  destruct Hin as [<-|[<-|[<-|[<-|[<-|[<-|[]]]]]]]; split; reflexivity.
Qed.

Lemma lower_case_units_agree (matches : list (string * string)) :
  Forall (fun m => In (snd m) ["hour"; "minute"; "second"; "min"; "sec"; "hrs"])
         matches ->
  minutes_of_matches matches = DurationSpec.minutes_of_tokens matches.
Proof.
  intros H. rewrite minutes_of_matches_sum. unfold DurationSpec.minutes_of_tokens.
  destruct (lower_case_units_sums matches H) as [-> ->]. reflexivity.
Qed.

(** C7 (the code departs from the claim): the pattern is matched under
    [re.IGNORECASE], so "2 Hours 5 Mins" holds the tokens ("2","Hour")
    and ("5","Min"); the loop then compares the unit with lower-case
    prefixes only, adds neither, and returns 0, where the sum of the hour
    tokens times 60 plus the minute tokens is 125. *)
Theorem convert_stringtime_drops_upper_case_units :
  findall2 true time_pattern "2 Hours 5 Mins" = [("2", "Hour"); ("5", "Min")]
  /\ convert_stringtime_to_minutes "2 Hours 5 Mins" = 0%Z
  /\ DurationSpec.parse_duration "2 Hours 5 Mins" = 125%Z
  /\ convert_stringtime_to_minutes "2 hours 5 mins" = 125%Z.
Proof. vm_compute. repeat split; reflexivity. Qed.

End UnitParserFacts.

(** ** AnalysisPhaseTracker *)

Module PhaseFacts.
Import Phase.
Import PhaseTerms.

Lemma phase_0 (a : analyzer) :
  project a = None ->
  update_analysis_phase a = Ok (set_phase a 0, Some 0%Z).
Proof. intros H. unfold update_analysis_phase. rewrite H. reflexivity. Qed.

Lemma phase_1 (a : analyzer) (p : Project.t) :
  project a = Some p ->
  has a "employee_addresses.csv" = false ->
  update_analysis_phase a = Ok (set_phase a 1, Some 1%Z).
Proof.
  unfold has, update_analysis_phase. intros -> ->. reflexivity.
Qed.

Lemma phase_2 (a : analyzer) (p : Project.t) :
  project a = Some p ->
  has a "employee_addresses.csv" = true ->
  has a "office_addresses.csv" = true ->
  has a "employee_gps.csv" && has a "office_gps.csv" = false ->
  update_analysis_phase a = Ok (set_phase a 2, Some 2%Z).
Proof.
  unfold has, update_analysis_phase. intros -> -> -> ->. reflexivity.
Qed.

Lemma phase_3 (a : analyzer) (p : Project.t) :
  project a = Some p ->
  has a "employee_addresses.csv" = true ->
  has a "office_addresses.csv" = true ->
  has a "employee_gps.csv" = true ->
  has a "office_gps.csv" = true ->
  fuzz_resolved a p = false ->
  update_analysis_phase a = Ok (set_phase a 3, Some 3%Z).
Proof.
  unfold fuzz_resolved, has, update_analysis_phase.
  intros -> -> -> -> -> ->. reflexivity.
Qed.

Lemma phase_4 (a : analyzer) (p : Project.t) :
  project a = Some p ->
  has a "employee_addresses.csv" = true ->
  has a "office_addresses.csv" = true ->
  has a "employee_gps.csv" = true ->
  has a "office_gps.csv" = true ->
  fuzz_resolved a p = true ->
  has a "commute_data.csv" = false ->
  update_analysis_phase a = Ok (set_phase a 4, Some 4%Z).
Proof.
  unfold fuzz_resolved, has, update_analysis_phase.
  intros -> -> -> -> -> -> ->. reflexivity.
Qed.

Lemma phase_5 (a : analyzer) (p : Project.t) :
  project a = Some p ->
  has a "employee_addresses.csv" = true ->
  has a "office_addresses.csv" = true ->
  has a "employee_gps.csv" = true ->
  has a "office_gps.csv" = true ->
  fuzz_resolved a p = true ->
  has a "commute_data.csv" = true ->
  in_subdir a "plots" "graphs.json" = Ok false ->
  update_analysis_phase a = Ok (set_phase a 5, Some 5%Z).
Proof.
  unfold fuzz_resolved, has, update_analysis_phase.
  intros -> -> -> -> -> -> -> ->. reflexivity.
Qed.

(** With the graphs manifest present the phase is 6, whether the
    tabular report is there or not. *)
Lemma phase_6 (a : analyzer) (p : Project.t) (tabled : bool) :
  project a = Some p ->
  has a "employee_addresses.csv" = true ->
  has a "office_addresses.csv" = true ->
  has a "employee_gps.csv" = true ->
  has a "office_gps.csv" = true ->
  fuzz_resolved a p = true ->
  has a "commute_data.csv" = true ->
  in_subdir a "plots" "graphs.json" = Ok true ->
  in_subdir a "tables" "tables.json" = Ok tabled ->
  update_analysis_phase a = Ok (set_phase a 6, Some 6%Z).
Proof.
  unfold fuzz_resolved, has, update_analysis_phase.
  intros -> -> -> -> -> -> -> -> ->. destruct tabled; reflexivity.
Qed.

(** Whatever integer is returned lies between 0 and 6 and is the phase
    stored in the analyzer. *)
Lemma returned_phase_range (a a' : analyzer) (n : Z) :
  update_analysis_phase a = Ok (a', Some n) ->
  (0 <= n <= 6)%Z /\ a' = set_phase a n.
Proof.
  unfold update_analysis_phase.
  destruct (project a) as [p|]; [|intros [= <- <-]; split; [lia|reflexivity]].
  repeat match goal with
         | |- context [if ?b then _ else _] => destruct b
         | |- context [in_subdir ?x ?d ?f] => destruct (in_subdir x d f) as [[|]|]
         end; cbn; intros [= <- <-] || intros [=]; split; (lia || reflexivity).
Qed.

(** No integer is returned exactly when the employee addresses are there
    and the office addresses are not: control falls off the end, the
    stored phase stays what it was. *)
Lemma returns_None_iff (a : analyzer) (p : Project.t) :
  project a = Some p ->
  (update_analysis_phase a = Ok (a, None)
   <-> has a "employee_addresses.csv" = true
       /\ has a "office_addresses.csv" = false).
Proof.
  unfold has, update_analysis_phase. intros ->.
  destruct (py_in "employee_addresses.csv" (list_data_files a)); cbn [negb andb].
  - destruct (py_in "office_addresses.csv" (list_data_files a)).
    + split; [|intros [_ [=]]].
      repeat match goal with
             | |- context [if ?b then _ else _] => destruct b
             | |- context [in_subdir ?x ?d ?f] => destruct (in_subdir x d f) as [[|]|]
             end; cbn; intros [=].
    + split; auto.
  - split; [intros [=]|intros [[=] _]].
Qed.

(** C2 (the code departs from the claim): a project that holds
    [employee_addresses.csv] and no [office_addresses.csv] takes neither
    the phase-1 branch nor the branch of phases 2 to 6;
    [update_analysis_phase] returns [None], not an integer between 0
    and 6, and leaves [analysis_phase] at whatever it was. *)
Theorem update_analysis_phase_without_office_addresses
    (p : Project.t) (previous : Z) :
  update_analysis_phase
    {| project := Some p;
       project_files := [("project.json", File);
                         ("employee_addresses.csv", File)];
       analysis_phase := previous |}
  = Ok ({| project := Some p;
           project_files := [("project.json", File);
                             ("employee_addresses.csv", File)];
           analysis_phase := previous |}, None).
Proof. reflexivity. Qed.

End PhaseFacts.

(** ** TrafficRegimeClassifier *)

Module ClassifierFacts.
Import Commute.
Local Open Scope Q_scope.
Import ClassifierTerms.

Lemma py_div_nonzero (a b : Q) : ~ b == 0 -> py_div a b = Ok (a / b).
Proof.
  intros H. unfold py_div. destruct (Qeq_bool b 0) eqn:E; [|reflexivity].
  apply Qeq_bool_eq in E. contradiction.
Qed.

Lemma py_div_zero (a b : Q) : b == 0 -> py_div a b = Raise ZeroDivisionError.
Proof.
  intros H. unfold py_div. rewrite (Qeq_eq_bool _ _ H). reflexivity.
Qed.

(** With a non-zero duration the classifier returns, and what it returns
    is the regime of [distance / (duration / 60)]. *)
Lemma get_traffic_regime_nonzero (p : Project.t) (distance duration : Q) :
  ~ duration == 0 ->
  get_traffic_regime p distance duration
  = Ok (regime_of_speed p (distance / (duration / 60))).
Proof.
  intros H. unfold get_traffic_regime.
  rewrite (py_div_nonzero duration 60) by (intros E; discriminate E).
  cbn [mbind res_bind].
  rewrite py_div_nonzero.
  - cbn [mbind res_bind]. unfold regime_of_speed.
    destruct (Qltb _ (Project.traffic_regime_2 p)); [reflexivity|].
    destruct (Qltb _ (Project.traffic_regime_3 p)); reflexivity.
  - intros E. apply H. unfold Qdiv in E.
    apply Qmult_integral in E. destruct E as [E|E]; [exact E|discriminate E].
Qed.

Lemma regime_of_speed_mono (p : Project.t) (v1 v2 : Q) :
  v1 <= v2 -> (regime_of_speed p v1 <= regime_of_speed p v2)%Z.
Proof.
  intros H. unfold regime_of_speed.
  destruct (Qltb v1 (Project.traffic_regime_2 p)) eqn:E1;
    destruct (Qltb v2 (Project.traffic_regime_2 p)) eqn:E2;
    destruct (Qltb v1 (Project.traffic_regime_3 p)) eqn:E3;
    destruct (Qltb v2 (Project.traffic_regime_3 p)) eqn:E4;
    try lia;
    repeat match goal with
           | H : Qltb _ _ = true |- _ => apply Qltb_lt in H
           | H : Qltb _ _ = false |- _ => apply Qltb_ge in H
           end; exfalso; lra.
Qed.

Lemma speed_mono_distance (d1 d2 t : Q) :
  0 < t -> d1 <= d2 -> d1 / (t / 60) <= d2 / (t / 60).
Proof.
  intros Ht Hd.
  assert (Hpos : 0 < / (t / 60)).
  { apply Qinv_lt_0_compat. apply Qlt_shift_div_l; lra. }
  unfold Qdiv at 1 3. apply Qmult_le_compat_r; [exact Hd|]. apply Qlt_le_weak, Hpos.
Qed.

Lemma speed_mono_duration (d t1 t2 : Q) :
  0 <= d -> 0 < t2 -> t2 <= t1 -> d / (t1 / 60) <= d / (t2 / 60).
Proof.
  intros Hd Ht2 Ht.
  assert (H1 : 0 < t1 / 60) by (apply Qlt_shift_div_l; lra).
  assert (H2 : 0 < t2 / 60) by (apply Qlt_shift_div_l; lra).
  assert (H12 : t2 / 60 <= t1 / 60).
  { unfold Qdiv. apply Qmult_le_compat_r; [exact Ht|]. discriminate. }
  apply Qle_shift_div_r; [exact H1|].
  set (x := d / (t2 / 60)).
  assert (Hx : 0 <= x).
  { unfold x. apply Qle_shift_div_l; [exact H2|]. lra. }
  assert (Hxd : x * (t2 / 60) == d).
  { unfold x. field. intros E. rewrite E in H2. apply (Qlt_irrefl 0), H2. }
  rewrite <- Hxd.
  rewrite (Qmult_comm x (t2 / 60)), (Qmult_comm x (t1 / 60)).
  apply Qmult_le_compat_r; assumption.
Qed.

Lemma positive_nonzero (t : Q) : 0 < t -> ~ t == 0.
Proof. intros H E. rewrite E in H. apply (Qlt_irrefl 0), H. Qed.



(** C8: for strictly positive durations and non-negative distances the
    classifier returns a regime, and the regime is monotone: with the
    duration held fixed a larger distance never gives a smaller regime,
    and with the distance held fixed a shorter duration never gives a
    smaller regime. *)
Theorem get_traffic_regime_monotone (p : Project.t) (d1 d2 t1 t2 : Q) :
  0 < t2 -> t2 <= t1 -> 0 <= d1 -> d1 <= d2 ->
  (exists r1 r2 : Z,
     get_traffic_regime p d1 t1 = Ok r1
     /\ get_traffic_regime p d2 t1 = Ok r2 /\ (r1 <= r2)%Z)
  /\ (exists r1 r2 : Z,
        get_traffic_regime p d1 t1 = Ok r1
        /\ get_traffic_regime p d1 t2 = Ok r2 /\ (r1 <= r2)%Z).
Proof.
  intros Ht2 Ht Hd1 Hd.
  assert (Ht1 : 0 < t1) by lra.
  split.
  - exists (regime_of_speed p (d1 / (t1 / 60))), (regime_of_speed p (d2 / (t1 / 60))).
    rewrite !get_traffic_regime_nonzero by (apply positive_nonzero; exact Ht1).
    repeat split. apply regime_of_speed_mono, speed_mono_distance; assumption.
  - exists (regime_of_speed p (d1 / (t1 / 60))), (regime_of_speed p (d1 / (t2 / 60))).
    rewrite !get_traffic_regime_nonzero by (apply positive_nonzero; assumption).
    repeat split. apply regime_of_speed_mono, speed_mono_duration; assumption.
Qed.

Lemma get_traffic_regime_monotone_witness :
  (exists r1 r2 : Z,
     get_traffic_regime Project.default 20 40 = Ok r1
     /\ get_traffic_regime Project.default 40 40 = Ok r2 /\ (r1 <= r2)%Z)
  /\ (exists r1 r2 : Z,
        get_traffic_regime Project.default 20 40 = Ok r1
        /\ get_traffic_regime Project.default 20 20 = Ok r2 /\ (r1 <= r2)%Z).
Proof.
  apply (get_traffic_regime_monotone Project.default 20 40 40 20);
    unfold Qlt, Qle; cbn; lia.
Defined.

(** Along growing distance at 40 minutes, and along shrinking duration at
    40 miles, the default thresholds give the regimes 1, 2, 3 in order. *)
Example regimes_in_order :
  map (fun d => get_traffic_regime Project.default d 40) [20; 30; 40]
  = [Ok 1%Z; Ok 2%Z; Ok 3%Z]
  /\ map (fun t => get_traffic_regime Project.default 40 t) [90; 60; 40]
     = [Ok 1%Z; Ok 2%Z; Ok 3%Z].
Proof. split; reflexivity. Qed.

(** The regime is one of 1, 2, 3. *)
Lemma regime_of_speed_range (p : Project.t) (v : Q) :
  (1 <= regime_of_speed p v <= 3)%Z.
Proof.
  unfold regime_of_speed.
  destruct (Qltb v _); [lia|]. destruct (Qltb v _); lia.
Qed.

End ClassifierFacts.

(** ** CostEmissionsAnnotator *)

Module AnnotatorFacts.
Import Commute ClassifierTerms ClassifierFacts.
Local Open Scope Q_scope.
Import AnnotatorTerms.

Lemma all_slots (s : slot) : In s slots.
Proof. destruct s as [[] []]; cbn; tauto. Qed.

Lemma emissions_slots_spec (p : Project.t) (r0 : row) (ss : list slot) :
  forall r r' : row,
    emissions_slots p r0 r ss = Ok r' ->
    same_inputs r r'
    /\ forall s : slot,
         (In s ss -> slot_written p r0 r' s)
         /\ (~ In s ss -> slot_emissions r' s = slot_emissions r s).
Proof.
  induction ss as [|s0 ss IH]; intros r r' H.
  - injection H as <-. split; [repeat split|]. intros s. split; [intros []|reflexivity].
  - cbn [emissions_slots] in H. unfold emissions_slot in H.
    destruct (get_traffic_regime p (miles r0) (duration_in_traffic r0 s0))
      as [regime|e] eqn:Hreg; [|discriminate H].
    cbn [mbind res_bind] in H.
    destruct (IH _ _ H) as [Hsame Hslots]. split.
    + destruct Hsame as (? & ? & ? & ? & ?). repeat split; assumption.
    + intros s. destruct (Hslots s) as [Hin Hout]. split.
      * intros [<-|Hs]; [|exact (Hin Hs)].
        destruct (in_dec (fun x y : slot => decide (x = y)) s0 ss) as [Hs|Hs];
          [exact (Hin Hs)|].
        exists regime. split; [exact Hreg|]. rewrite (Hout Hs).
        cbn [set_slot_emissions slot_emissions]. unfold upd.
        destruct (decide (s0 = s0)); [reflexivity|contradiction].
      * intros Hs. rewrite Hout by (intros Hs'; apply Hs; right; exact Hs').
        cbn [set_slot_emissions slot_emissions]. unfold upd.
        destruct (decide (s = s0)) as [->|]; [|reflexivity].
        exfalso. apply Hs. left. reflexivity.
Qed.

Lemma emissions_slots_total (p : Project.t) (r0 : row) (ss : list slot) :
  (forall s : slot, ~ duration_in_traffic r0 s == 0) ->
  forall r : row, exists r' : row, emissions_slots p r0 r ss = Ok r'.
Proof.
  intros Hnz. induction ss as [|s0 ss IH]; intros r.
  - exists r. reflexivity.
  - cbn [emissions_slots]. unfold emissions_slot.
    rewrite (get_traffic_regime_nonzero p _ _ (Hnz s0)). cbn [mbind res_bind].
    apply IH.
Qed.

Lemma emissions_row_spec (p : Project.t) (r0 r' : row) :
  emissions_row p r0 = Ok r' -> row_annotated p r0 r'.
Proof.
  unfold emissions_row. intros H.
  destruct (emissions_slots_spec p r0 slots _ _ H)
    as [(_ & Hm & He & Hc & Hd) Hslots].
  repeat split; try assumption.
  intros s. apply (Hslots s), all_slots.
Qed.

Lemma get_commute_emissions_rows (p : Project.t) (data : list row) :
  forall data' : list row,
    get_commute_emissions p data = Ok data' ->
    Forall2 (row_annotated p) data data'.
Proof.
  induction data as [|r0 data IH]; intros data' H.
  - injection H as <-. constructor.
  - cbn [get_commute_emissions] in H.
    destruct (emissions_row p r0) as [r|e] eqn:Hr; [|discriminate H].
    cbn [mbind res_bind] in H.
    destruct (get_commute_emissions p data) as [rest|e]; [|discriminate H].
    injection H as <-. constructor; [apply emissions_row_spec, Hr|apply IH; reflexivity].
Qed.

Lemma get_commute_emissions_total (p : Project.t) (data : list row) :
  Forall (fun r => forall s : slot, ~ duration_in_traffic r s == 0) data ->
  exists data' : list row, get_commute_emissions p data = Ok data'.
Proof.
  induction 1 as [|r0 data Hnz _ [rest IH]].
  - exists []. reflexivity.
  - destruct (emissions_slots_total p r0 slots Hnz
                (set_emissions r0 (miles r0 * Project.CO2_per_mile p))) as [r Hr].
    exists (r :: rest). cbn [get_commute_emissions]. unfold emissions_row.
    rewrite Hr. cbn [mbind res_bind]. rewrite IH. reflexivity.
Qed.

(** The speed, regime and slot emissions of scenario 2. *)
Lemma scenario_2 :
  20 / (40 / 60) == 30
  /\ get_traffic_regime Project.default 20 40 = Ok 1%Z
  /\ get_traffic_emissions_factor Project.default 1 == 7 # 10
  /\ 20 * Project.CO2_per_mile Project.default
     * get_traffic_emissions_factor Project.default 1 == 5656 # 1000.
Proof. repeat split; reflexivity. Qed.

(** C6, as the code has it: on a frame no slot of which has a zero
    duration, the emissions annotation returns; in the frame it returns every row keeps its
    miles and durations, has base emissions [miles * CO2_per_mile], and
    in each of the ten slots has emissions
    [miles * CO2_per_mile * factor (regime (miles, slot duration))].
    With second threshold 33.554, a slot of 20 miles in 40 minutes is in
    regime 1 (30 mph), and with coefficient 0.7 and 0.404 kg per mile
    its emissions are 5.656. *)
Theorem get_commute_emissions_annotates (p : Project.t) (data : list row) :
  Forall (fun r => forall s : slot, ~ duration_in_traffic r s == 0) data ->
  exists data' : list row,
    get_commute_emissions p data = Ok data'
    /\ Forall2 (row_annotated p) data data'
    /\ (forall r0 r' s,
          In (r0, r') (zip data data') ->
          Project.traffic_regime_2 p == 33554 # 1000 ->
          Project.traffic_regime_1_coeff p == 7 # 10 ->
          Project.CO2_per_mile p == 404 # 1000 ->
          miles r0 == 20 -> duration_in_traffic r0 s == 40 ->
          miles r0 / (duration_in_traffic r0 s / 60) == 30
          /\ get_traffic_regime p (miles r0) (duration_in_traffic r0 s) = Ok 1%Z
          /\ slot_emissions r' s == 5656 # 1000).
Proof.
  intros Hnz. destruct (get_commute_emissions_total p data Hnz) as [data' H].
  exists data'. split; [exact H|].
  pose proof (get_commute_emissions_rows p data data' H) as Hrows.
  split; [exact Hrows|].
  intros r0 r' s Hin Hthr Hcoeff Hco2 Hmiles Hdur.
  assert (Hann : row_annotated p r0 r').
  { clear -Hrows Hin. induction Hrows as [|x y l l' Hxy _ IH]; [destruct Hin|].
    destruct Hin as [[= <- <-]|Hin]; [exact Hxy|exact (IH Hin)]. }
  destruct Hann as (_ & _ & _ & _ & Hslots).
  destruct (Hslots s) as (regime & Hreg & Hem).
  assert (Hspeed : miles r0 / (duration_in_traffic r0 s / 60) == 30)
    by (rewrite Hmiles, Hdur; reflexivity).
  assert (Hone : get_traffic_regime p (miles r0) (duration_in_traffic r0 s) = Ok 1%Z).
  { rewrite get_traffic_regime_nonzero by (rewrite Hdur; discriminate).
    unfold regime_of_speed.
    assert (Hlt : Qltb (miles r0 / (duration_in_traffic r0 s / 60))
                       (Project.traffic_regime_2 p) = true)
      by (apply Qltb_lt; rewrite Hspeed, Hthr; reflexivity).
    rewrite Hlt. reflexivity. }
  split; [exact Hspeed|]. split; [exact Hone|].
  rewrite Hone in Hreg. injection Hreg as <-. rewrite Hem.
  unfold get_traffic_emissions_factor. cbn [Z.eqb Pos.eqb].
  rewrite Hmiles, Hco2, Hcoeff. reflexivity.
Qed.

Lemma get_commute_emissions_annotates_witness :
  exists data' : list row,
    get_commute_emissions Project.default [scenario_row] = Ok data'
    /\ Forall2 (row_annotated Project.default) [scenario_row] data'
    /\ (forall r0 r' s,
          In (r0, r') (zip [scenario_row] data') ->
          Project.traffic_regime_2 Project.default == 33554 # 1000 ->
          Project.traffic_regime_1_coeff Project.default == 7 # 10 ->
          Project.CO2_per_mile Project.default == 404 # 1000 ->
          miles r0 == 20 -> duration_in_traffic r0 s == 40 ->
          miles r0 / (duration_in_traffic r0 s / 60) == 30
          /\ get_traffic_regime Project.default (miles r0)
               (duration_in_traffic r0 s) = Ok 1%Z
          /\ slot_emissions r' s == 5656 # 1000).
Proof.
  apply (get_commute_emissions_annotates Project.default [scenario_row]).
  constructor; [|constructor]. intros s. cbn. discriminate.
Defined.

(** C6, the claim as stated fails: on a frame that holds a row with
    populated miles and one zero slot duration the annotation raises
    [ZeroDivisionError] at that slot; the slot and those after it are
    never written, and the call returns no annotated frame. *)
Lemma get_commute_emissions_zero_duration_raises :
  miles degenerate_row == 20
  /\ get_commute_emissions Project.default [scenario_row; degenerate_row]
     = Raise ZeroDivisionError.
Proof. split; reflexivity. Qed.

(** The annotated scenario row, computed. *)
Example scenario_row_annotated :
  match get_commute_emissions Project.default [scenario_row] with
  | Ok [r'] =>
      emissions r' == 808 # 100
      /\ Forall (fun s => slot_emissions r' s == 5656 # 1000) slots
  | _ => False
  end.
Proof. cbn. split; [reflexivity|]. repeat constructor. Qed.

End AnnotatorFacts.

(** ** CommuteMatrixBuilder: retry and throttle *)

Module BuilderFacts.
Import Builder.
Local Open Scope Z_scope.
Local Open Scope list_scope.
Import BuilderTerms.

Lemma keeps_bind {A B : Type} (m : M A) (f : A -> M B) :
  keeps_throttle m -> (forall a, keeps_throttle (f a)) -> keeps_throttle (m ≫= f).
Proof.
  intros Hm Hf w. unfold mbind, M_bind. specialize (Hm w).
  destruct (m w) as [w' [a|e]]; cbn [fst] in *.
  - destruct (Hf a w') as [-> ->]. exact Hm.
  - exact Hm.
Qed.

Lemma keeps_try_except {A : Type} (m : M A) (h : exn -> M A) :
  keeps_throttle m -> (forall e, keeps_throttle (h e)) ->
  keeps_throttle (try_except m h).
Proof.
  intros Hm Hh w. unfold try_except. specialize (Hm w).
  destruct (m w) as [w' [a|e]]; cbn [fst] in *.
  - exact Hm.
  - destruct (Hh e w') as [-> ->]. exact Hm.
Qed.

Lemma keeps_raise {A : Type} (e : exn) : keeps_throttle (@raise A e).
Proof. intros w. split; reflexivity. Qed.

Lemma keeps_sleep (x : Q) : keeps_throttle (sleep x).
Proof. intros w. unfold sleep. destruct (Qltb x 0); split; reflexivity. Qed.

Lemma keeps_sleepif : keeps_throttle sleepif.
Proof.
  intros w. unfold sleepif. destruct (Qltb _ _); [apply keeps_sleep|split; reflexivity].
Qed.

Lemma keeps_log_error (msg : string) : keeps_throttle (log_error msg).
Proof. intros w. split; reflexivity. Qed.

Lemma keeps_gAPI_commute (prov : provider) (q : query) :
  keeps_throttle (gAPI_commute prov q).
Proof.
  intros w. unfold gAPI_commute. destruct (prov _ q). split; reflexivity.
Qed.

(** Nothing on the path of a slot query writes [last_call]: it stays what
    [__init__] made it. *)
Lemma query_slot_keeps_throttle (table : gmap string string) (prov : provider)
    (source destination : gps) (departure : Z) :
  keeps_throttle (query_slot table prov source destination departure).
Proof.
  unfold query_slot. apply keeps_bind; [apply keeps_sleepif|intros _].
  apply keeps_try_except; [apply keeps_gAPI_commute|intros e].
  apply keeps_bind; [apply keeps_log_error|intros _].
  destruct (handle_GAPI_exception table e).
  - apply keeps_bind; [apply keeps_sleep|intros _].
    apply keeps_try_except.
    + apply keeps_bind; [apply keeps_raise|intros d0; apply keeps_gAPI_commute].
    + intros e2. apply keeps_bind; [apply keeps_log_error|intros _; apply keeps_raise].
  - apply keeps_bind; [apply keeps_log_error|intros _; apply keeps_raise].
Qed.

Lemma query_slots_keeps_throttle (table : gmap string string) (prov : provider)
    (office employee : gps) (commutes : Commute.slot -> Z) (ss : list Commute.slot) :
  keeps_throttle (query_slots table prov office employee commutes ss).
Proof.
  induction ss as [|s ss IH]; cbn [query_slots].
  - intros w. split; reflexivity.
  - destruct (endpoints office employee (snd s)) as [source destination].
    apply keeps_bind; [apply query_slot_keeps_throttle|intros r].
    apply keeps_bind; [exact IH|intros rs w; split; reflexivity].
Qed.

(** The throttle itself never raises and never touches the call log. *)
Lemma sleepif_ok (w : world) :
  exists w', sleepif w = (w', Ok tt) /\ calls w' = calls w.
Proof.
  unfold sleepif.
  destruct (Qltb (inject_Z (td_seconds (now w - last_call w))) (sleep_time w)) eqn:E.
  - unfold sleep.
    assert (Hx : Qltb (sleep_time w - inject_Z (td_seconds (now w - last_call w))) 0
                 = false).
    { apply Qltb_ge. apply Qltb_lt in E. lra. }
    rewrite Hx. eexists. split; reflexivity.
  - exists w. split; reflexivity.
Qed.

(** Once a whole second lies between the clock and [last_call] (and less
    than a day), the throttle does not sleep at all. *)
Lemma sleepif_idle (w : world) :
  (sleep_time w <= 1)%Q ->
  1000000 <= now w - last_call w < 86400000000 ->
  sleepif w = (w, Ok tt).
Proof.
  intros Hst Hd. unfold sleepif.
  assert (Hs : 1 <= td_seconds (now w - last_call w)).
  { unfold td_seconds.
    assert (1 <= (now w - last_call w) / 1000000 < 86400).
    { split; [apply Z.div_le_lower_bound; lia|apply Z.div_lt_upper_bound; lia]. }
    rewrite Z.mod_small by lia. lia. }
  assert (E : Qltb (inject_Z (td_seconds (now w - last_call w))) (sleep_time w) = false).
  { apply Qltb_ge. apply Qle_trans with 1%Q; [exact Hst|].
    change 1%Q with (inject_Z 1). rewrite <- Zle_Qle. exact Hs. }
  rewrite E. reflexivity.
Qed.

(** A recoverable first failure: the handler sleeps, evaluates the
    arguments of the retry, and [destination(0)] raises before the
    provider is reached.  One provider call is made, and the exception
    that leaves is the [TypeError]. *)
Lemma query_slot_recoverable (table : gmap string string) (prov : provider)
    (source destination : gps) (departure : Z) (w : world) (took : Z) (e : exn) :
  prov (length (calls w)) (slot_query source destination departure)
    = (took, Raise e) ->
  handle_GAPI_exception table e = true ->
  exists w',
    query_slot table prov source destination departure w
      = (w', Raise not_callable)
    /\ map call_query (calls w')
       = map call_query (calls w) ++ [slot_query source destination departure].
Proof.
  intros Hprov Hrec. destruct (sleepif_ok w) as (w1 & Hs & Hc).
  unfold query_slot, mbind, M_bind. rewrite Hs.
  unfold try_except at 1. unfold gAPI_commute at 1. fold (slot_query source destination departure).
  rewrite Hc, Hprov. unfold log_error at 1. rewrite Hrec.
  eexists. split; [reflexivity|]. cbn. rewrite map_app. reflexivity.
Qed.

(** A non-recoverable first failure: one provider call, no back-off, the
    provider's exception leaves as it came. *)
Lemma query_slot_non_recoverable (table : gmap string string) (prov : provider)
    (source destination : gps) (departure : Z) (w : world) (took : Z) (e : exn) :
  prov (length (calls w)) (slot_query source destination departure)
    = (took, Raise e) ->
  handle_GAPI_exception table e = false ->
  exists w',
    query_slot table prov source destination departure w = (w', Raise e)
    /\ map call_query (calls w')
       = map call_query (calls w) ++ [slot_query source destination departure]
    /\ sleeps w' = sleeps (fst (sleepif w)).
Proof.
  intros Hprov Hrec. destruct (sleepif_ok w) as (w1 & Hs & Hc).
  unfold query_slot, mbind, M_bind. rewrite Hs.
  unfold try_except at 1. unfold gAPI_commute at 1. fold (slot_query source destination departure).
  rewrite Hc, Hprov. unfold log_error at 1. rewrite Hrec.
  eexists. split; [reflexivity|]. cbn. rewrite map_app. split; reflexivity.
Qed.

(** A provider call that succeeds is made once. *)
Lemma query_slot_success (table : gmap string string) (prov : provider)
    (source destination : gps) (departure : Z) (w : world) (took : Z) (r : reply) :
  prov (length (calls w)) (slot_query source destination departure)
    = (took, Ok r) ->
  exists w',
    query_slot table prov source destination departure w = (w', Ok r)
    /\ map call_query (calls w')
       = map call_query (calls w) ++ [slot_query source destination departure].
Proof.
  intros Hprov. destruct (sleepif_ok w) as (w1 & Hs & Hc).
  unfold query_slot, mbind, M_bind. rewrite Hs.
  unfold try_except at 1. unfold gAPI_commute at 1. fold (slot_query source destination departure).
  rewrite Hc, Hprov.
  eexists. split; [reflexivity|]. cbn. rewrite map_app. reflexivity.
Qed.

(** C1 (the code departs from the claim): the provider times out once and
    would answer a second call.  [Timeout] is recoverable, yet the slot
    query ends in the [TypeError] of [destination(0)], the provider has
    been called once, not twice, and the same query sent again would have
    been answered. *)
Theorem query_slot_retry_never_reaches_provider :
  let run := query_slot google_api_exceptions times_out_once office_A employee_1
               1000 (init 0) in
  handle_GAPI_exception google_api_exceptions (Exn "Timeout" "timed out") = true
  /\ snd run = Raise not_callable
  /\ map call_query (calls (fst run)) = [slot_query office_A employee_1 1000]
  /\ snd (gAPI_commute times_out_once (slot_query office_A employee_1 1000)
            (fst run))
     = Ok some_reply.
Proof. vm_compute. repeat split; reflexivity. Qed.

(** C9 (the code departs from the claim): the ten slot queries of one
    office and one employee, on an analyzer created at time 0, with a
    provider that takes a second per call.  Only the first call is
    delayed; the nine others start the instant the previous one ended,
    closer than the 200000 microseconds of [60 / api_rate_limit] seconds,
    and [last_call] is still what [__init__] set. *)
Theorem query_slots_not_spaced :
  let run := query_slots google_api_exceptions steady office_A employee_1
               (fun _ => 1000) Commute.slots (init 0) in
  is_ok (snd run) = true
  /\ length (calls (fst run)) = 10%nat
  /\ gaps (calls (fst run)) = [0; 0; 0; 0; 0; 0; 0; 0; 0]
  /\ Qfloor (sleep_time (fst run) * 1000000) = 200000
  /\ last_call (fst run) = last_call (init 0).
Proof. vm_compute. repeat split; reflexivity. Qed.

(** C10: an exception whose class name is not a key of the recoverability
    table is classified as non-recoverable, and a slot query whose
    provider call raises it ends with that very exception after that one
    provider call: no back-off sleep, no second call. *)
Theorem unknown_exception_propagates (table : gmap string string) (e : exn) :
  table !! exn_class e = None ->
  handle_GAPI_exception table e = false
  /\ forall (prov : provider) (source destination : gps) (departure : Z)
            (w : world) (took : Z),
       prov (length (calls w)) (slot_query source destination departure)
         = (took, Raise e) ->
       exists w',
         query_slot table prov source destination departure w = (w', Raise e)
         /\ map call_query (calls w')
            = map call_query (calls w) ++ [slot_query source destination departure]
         /\ sleeps w' = sleeps (fst (sleepif w)).
Proof.
  intros Hnone.
  assert (Hh : handle_GAPI_exception table e = false)
    by (unfold handle_GAPI_exception; rewrite Hnone; reflexivity).
  split; [exact Hh|]. intros prov source destination departure w took Hprov.
  exact (query_slot_non_recoverable table prov source destination departure w took e
           Hprov Hh).
Qed.

Lemma unknown_exception_propagates_witness :
  handle_GAPI_exception google_api_exceptions (Exn "KeyError" "legs") = false
  /\ forall (prov : provider) (source destination : gps) (departure : Z)
            (w : world) (took : Z),
       prov (length (calls w)) (slot_query source destination departure)
         = (took, Raise (Exn "KeyError" "legs")) ->
       exists w',
         query_slot google_api_exceptions prov source destination departure w
           = (w', Raise (Exn "KeyError" "legs"))
         /\ map call_query (calls w')
            = map call_query (calls w) ++ [slot_query source destination departure]
         /\ sleeps w' = sleeps (fst (sleepif w)).
Proof.
  apply (unknown_exception_propagates google_api_exceptions (Exn "KeyError" "legs")).
  reflexivity.
Defined.

(** The table of [GAPI]: what is recoverable and what is not. *)
Example table_entries :
  handle_GAPI_exception google_api_exceptions (Exn "ApiError" "denied") = false
  /\ handle_GAPI_exception google_api_exceptions (Exn "Timeout" "timed out") = true
  /\ handle_GAPI_exception google_api_exceptions (Exn "EmptyResult" "empty") = true
  /\ handle_GAPI_exception google_api_exceptions (Exn "TypeError" "bad operand") = false.
Proof. vm_compute. repeat split; reflexivity. Qed.

End BuilderFacts.

(** ** ImpactAggregator *)

Module AggregatorFacts.
Import Commute Aggregator.
Local Open Scope Q_scope.
Local Open Scope list_scope.
Import AggregatorTerms.






















(** Scenario 3, computed: headline delta -10, nothing in the masked
    variant. *)
Example scenario_3 :
  match eccda Project.default [s3_employee] [s3_office_A; s3_office_B]
          s3_commute_data with
  | Ok [d] => Forall2 Qeq (diffs d) [-10] /\ diffs2 d = []
  | _ => False
  end.
Proof. cbn. split; [|reflexivity]. repeat constructor. Qed.

(** *** Attrition risk *)





(** With no commute days or weeks the threshold is a division by zero. *)
Lemma daily_threshold_zero_days (p : Project.t) :
  (Project.commute_days_per_week p * Project.commute_weeks_per_year p)%Z = 0%Z ->
  daily_threshold p = Raise ZeroDivisionError.
Proof.
  intros Hn. unfold daily_threshold, py_div. rewrite Hn. reflexivity.
Qed.



(** Scenario 4, computed on the default project: threshold 34.2204, one
    employee of the two above it, expected cost 1 x 0.25 x 60000. *)
Example scenario_4 :
  match attrition_cell Project.default
          (average_diffs attrition_base [attrition_alt])
          (conservative_diffs attrition_base [attrition_alt]) 0 0 with
  | Ok a => threshold_per_day a == 342204 # 10000
            /\ above_threshold a = 1%Z /\ cost_impact a == 15000
  | Raise _ => False
  end.
Proof. cbn. repeat split. Qed.

End AggregatorFacts.

(** ** Regular expressions: greedy runs and the scan of [findall] *)

Module RegexFacts.
Import Regex.
Local Open Scope list_scope.

Lemma length_app_str (a b : string) :
  String.length (a +:+ b) = (String.length a + String.length b)%nat.
Proof.
  induction a as [|c a IH]; [reflexivity|].
  change (S (String.length (a +:+ b)) = S (String.length a + String.length b)).
  congruence.
Qed.

Lemma app_str_assoc (a b c : string) : (a +:+ b) +:+ c = a +:+ (b +:+ c).
Proof.
  induction a as [|x a IH]; [reflexivity|].
  change (String x ((a +:+ b) +:+ c) = String x (a +:+ (b +:+ c))).
  congruence.
Qed.

Lemma take_str_prefix (a b s : string) :
  s = a +:+ b -> take_str (String.length s - String.length b) s = a.
Proof.
  intros ->. rewrite length_app_str.
  replace (String.length a + String.length b - String.length b)%nat
    with (String.length a) by lia.
  induction a as [|c a IH].
  - destruct b; reflexivity.
  - change (String c (take_str (String.length a) (a +:+ b)) = String c a).
    congruence.
Qed.

(** One more digit in front of a greedy run of digits. *)
Lemma star_digit_cons {A : Type} (icase : bool) (c : ascii) (s : string)
    (caps : captures) (k : string -> captures -> option A) :
  is_digit c = true ->
  run icase (Star Digit) (String c s) caps k
  = match run icase (Star Digit) s caps k with
    | Some x => Some x
    | None => k (String c s) caps
    end.
Proof.
  intros Hc. cbn [run]. rewrite Hc.
  assert (Hlt : (String.length s <? String.length (String c s))%nat = true)
    by (apply Nat.ltb_lt; cbn; lia).
  rewrite Hlt. reflexivity.
Qed.

Lemma star_digit_stop {A : Type} (icase : bool) (s : string)
    (caps : captures) (k : string -> captures -> option A) :
  match s with String c _ => is_digit c = false | EmptyString => True end ->
  run icase (Star Digit) s caps k = k s caps.
Proof.
  intros Hs. destruct s as [|c s]; cbn [run]; [reflexivity|].
  rewrite Hs. reflexivity.
Qed.

Lemma star_space_cons {A : Type} (icase : bool) (c : ascii) (s : string)
    (caps : captures) (k : string -> captures -> option A) :
  is_space c = true ->
  run icase (Star Space) (String c s) caps k
  = match run icase (Star Space) s caps k with
    | Some x => Some x
    | None => k (String c s) caps
    end.
Proof.
  intros Hc. cbn [run]. rewrite Hc.
  assert (Hlt : (String.length s <? String.length (String c s))%nat = true)
    by (apply Nat.ltb_lt; cbn; lia).
  rewrite Hlt. reflexivity.
Qed.

Lemma star_space_stop {A : Type} (icase : bool) (s : string)
    (caps : captures) (k : string -> captures -> option A) :
  match s with String c _ => is_space c = false | EmptyString => True end ->
  run icase (Star Space) s caps k = k s caps.
Proof.
  intros Hs. destruct s as [|c s]; cbn [run]; [reflexivity|].
  rewrite Hs. reflexivity.
Qed.

Lemma run_seq {A : Type} (icase : bool) (r1 r2 : re) (s : string)
    (caps : captures) (k : string -> captures -> option A) :
  run icase (Seq r1 r2) s caps k
  = run icase r1 s caps (fun s' caps' => run icase r2 s' caps' k).
Proof. reflexivity. Qed.

Lemma run_group {A : Type} (icase : bool) (i : nat) (r : re) (s : string)
    (caps : captures) (k : string -> captures -> option A) :
  run icase (Group i r) s caps k
  = run icase r s caps
      (fun s' caps' =>
         k s' (<[i := take_str (String.length s - String.length s') s]> caps')).
Proof. reflexivity. Qed.

Lemma run_digit {A : Type} (icase : bool) (c : ascii) (s : string)
    (caps : captures) (k : string -> captures -> option A) :
  run icase Digit (String c s) caps k = if is_digit c then k s caps else None.
Proof. reflexivity. Qed.

(** A greedy run of digits takes every digit of [ds] when what follows
    then matches. *)
Lemma star_digits {A : Type} (icase : bool) (ds rest : string)
    (caps : captures) (k : string -> captures -> option A) (x : A) :
  ParserTerms.all_digits ds = true ->
  ParserTerms.no_digit_ahead rest ->
  k rest caps = Some x ->
  run icase (Star Digit) (ds +:+ rest) caps k = Some x.
Proof.
  intros Hds Hrest Hk. induction ds as [|d ds IH].
  - change (EmptyString +:+ rest) with rest.
    rewrite (star_digit_stop icase rest caps k Hrest). exact Hk.
  - unfold ParserTerms.all_digits in Hds. cbn [list_ascii_of_string forallb] in Hds.
    apply andb_true_iff in Hds. destruct Hds as [Hd Hds].
    change (String d ds +:+ rest) with (String d (ds +:+ rest)).
    rewrite star_digit_cons by exact Hd. rewrite (IH Hds). reflexivity.
Qed.

Lemma plus_digits {A : Type} (icase : bool) (ds rest : string)
    (caps : captures) (k : string -> captures -> option A) (x : A) :
  ParserTerms.digits ds ->
  ParserTerms.no_digit_ahead rest ->
  k rest caps = Some x ->
  run icase (Plus Digit) (ds +:+ rest) caps k = Some x.
Proof.
  intros [Hne Hds] Hrest Hk. destruct ds as [|d ds]; [contradiction|].
  unfold ParserTerms.all_digits in Hds. cbn [list_ascii_of_string forallb] in Hds.
  apply andb_true_iff in Hds. destruct Hds as [Hd Hds].
  unfold Plus. rewrite run_seq.
  change (String d ds +:+ rest) with (String d (ds +:+ rest)).
  rewrite run_digit, Hd.
  exact (star_digits icase ds rest caps k x Hds Hrest Hk).
Qed.

(** After a match of the non-empty text [m], the scan resumes behind it. *)
Lemma findall_skip (icase : bool) (r : re) (a b : string) :
  findall_from icase r (a +:+ b) (String.length a) = findall_from icase r b 0.
Proof.
  induction a as [|c a IH]; [reflexivity|].
  change (String c a +:+ b) with (String c (a +:+ b)).
  cbn [findall_from String.length]. exact IH.
Qed.

Lemma findall_match (icase : bool) (r : re) (c : ascii) (m rest : string)
    (caps : captures) :
  match_here icase r (String c m +:+ rest) = Some (rest, caps) ->
  findall_from icase r (String c m +:+ rest) 0
  = caps :: findall_from icase r rest 0.
Proof.
  intros H. change (String c m +:+ rest) with (String c (m +:+ rest)) in *.
  cbn [findall_from]. rewrite H. f_equal.
  replace (String.length (String c (m +:+ rest)) - String.length rest - 1)%nat
    with (String.length m).
  - apply findall_skip.
  - cbn [String.length]. rewrite length_app_str. lia.
Qed.

Lemma findall_no_match (icase : bool) (r : re) (c : ascii) (s : string) :
  match_here icase r (String c s) = None ->
  findall_from icase r (String c s) 0 = findall_from icase r s 0.
Proof. intros H. cbn [findall_from]. rewrite H. reflexivity. Qed.

End RegexFacts.

(** ** UnitParser: the durations the provider writes *)

Module DurationFacts.
Import Regex UnitParser ParserTerms RegexFacts.
Local Open Scope list_scope.

(** Runs the unit alternatives on a text with a known head, then the
    optional plural, with the captured unit named [u]. *)
Ltac run_unit u :=
  cbv beta;
  match goal with
  | |- match ?e with Some _ => _ | None => _ end = ?rhs =>
      let He := fresh "He" in
      assert (He : e = rhs);
      [ rewrite run_seq, run_group;
        match goal with
        | |- run true ?r ?s ?c ?k = _ =>
            let K := fresh "K" in
            let HK := fresh "HK" in
            let c1 := fresh "c" in
            let Hc := fresh "Hc" in
            remember c as c1 eqn:Hc; remember k as K eqn:HK;
            cbv -[insert]; subst K; cbv beta;
            erewrite (take_str_prefix u) by reflexivity;
            subst c1; vm_compute; reflexivity
        end
      | rewrite He; reflexivity ]
  end.

Lemma match_time_token (t : time_token) (after : string) :
  digits (tk_amount t) ->
  after = EmptyString \/ (exists R, after = String " " R) ->
  match_here true time_pattern (render t +:+ after)
  = Some (after, <[2 := unit_name (tk_unit t)]> (<[1 := tk_amount t]> ∅)).
Proof.
  destruct t as [ds u pl]. unfold render. cbn [tk_amount tk_unit tk_plural].
  intros Hds Hafter. rewrite app_str_assoc.
  unfold match_here, time_pattern. rewrite run_seq, run_group.
  apply plus_digits; [exact Hds|destruct u, pl; reflexivity|].
  cbv beta. erewrite take_str_prefix by reflexivity.
  rewrite run_seq.
  destruct Hafter as [->|[R ->]]; destruct u, pl; cbv [append unit_name plural_s];
    rewrite star_space_cons by reflexivity;
    rewrite star_space_stop by reflexivity.
  - run_unit "hour".
  - run_unit "hour".
  - run_unit "min".
  - run_unit "min".
  - run_unit "hour".
  - run_unit "hour".
  - run_unit "min".
  - run_unit "min".
Qed.

Lemma app_str_nil (s : string) : s +:+ EmptyString = s.
Proof.
  induction s as [|c s IH]; [reflexivity|].
  change (String c (s +:+ EmptyString) = String c s). congruence.
Qed.

Lemma render_head (t : time_token) :
  digits (tk_amount t) -> exists c m, render t = String c m.
Proof.
  intros [Hne _]. unfold render. destruct (tk_amount t) as [|c ds]; [contradiction|].
  eexists. eexists. reflexivity.
Qed.

(** The scan finds exactly the tokens of the text, in order. *)
Lemma findall_duration_text (ts : list time_token) :
  Forall (fun t => digits (tk_amount t)) ts ->
  findall2 true time_pattern (duration_text ts) = map token_pair ts.
Proof.
  unfold findall2. induction 1 as [|t ts Ht Hts IH]; [reflexivity|].
  destruct (render_head t Ht) as (c & m & Hr).
  destruct ts as [|t' ts].
  - cbn [duration_text]. rewrite <- (app_str_nil (render t)) at 1.
    pose proof (match_time_token t EmptyString Ht (or_introl eq_refl)) as Hm.
    rewrite Hr in *. rewrite (findall_match _ _ _ _ _ _ Hm). reflexivity.
  - change (duration_text (t :: t' :: ts))
      with (render t +:+ String " " (duration_text (t' :: ts))).
    pose proof (match_time_token t (String " " (duration_text (t' :: ts))) Ht
                  (or_intror (ex_intro _ _ eq_refl))) as Hm.
    rewrite Hr in *. rewrite (findall_match _ _ _ _ _ _ Hm).
    rewrite findall_no_match by reflexivity.
    cbn [map]. rewrite IH. reflexivity.
Qed.

Lemma minutes_of_token_pairs (ts : list time_token) :
  minutes_of_matches (map token_pair ts) = duration_minutes ts.
Proof.
  rewrite UnitParserFacts.minutes_of_matches_sum.
  induction ts as [|t ts IH]; [reflexivity|].
  unfold duration_minutes. cbn [map fold_right].
  fold (duration_minutes ts). rewrite <- IH.
  unfold UnitParserTerms.sum_if. cbn [fold_right].
  fold (UnitParserTerms.sum_if UnitParserTerms.is_hour (map token_pair ts)).
  fold (UnitParserTerms.sum_if UnitParserTerms.is_minute (map token_pair ts)).
  unfold token_minutes, token_pair. cbn [fst snd].
  destruct (tk_unit t); cbn [unit_name];
    change (UnitParserTerms.is_hour "hour") with true;
    change (UnitParserTerms.is_minute "hour") with false;
    change (UnitParserTerms.is_hour "min") with false;
    change (UnitParserTerms.is_minute "min") with true; cbv iota; lia.
Qed.

(** X1: A duration written as the provider writes it, any number of
    "<digits> hour(s)" and "<digits> min(s)" tokens joined by blanks, is
    read as sixty times the hour amounts plus the minute amounts. *)
Theorem duration_text_minutes (ts : list time_token) :
  Forall (fun t => digits (tk_amount t)) ts ->
  convert_stringtime_to_minutes (duration_text ts) = duration_minutes ts.
Proof.
  intros H. unfold convert_stringtime_to_minutes.
  rewrite (findall_duration_text ts H). apply minutes_of_token_pairs.
Qed.

Lemma duration_text_minutes_witness :
  convert_stringtime_to_minutes
    (duration_text [{| tk_amount := "1"; tk_unit := UHour; tk_plural := false |};
                    {| tk_amount := "12"; tk_unit := UMin; tk_plural := true |}])
  = duration_minutes
      [{| tk_amount := "1"; tk_unit := UHour; tk_plural := false |};
       {| tk_amount := "12"; tk_unit := UMin; tk_plural := true |}].
Proof.
  apply (duration_text_minutes
           [{| tk_amount := "1"; tk_unit := UHour; tk_plural := false |};
            {| tk_amount := "12"; tk_unit := UMin; tk_plural := true |}]).
  repeat constructor; discriminate.
Defined.

End DurationFacts.

(** ** UnitParser: distances *)

Module DistanceFacts.
Import Regex UnitParser DistanceParser ParserTerms DistanceTerms RegexFacts.
Local Open Scope list_scope.
Local Open Scope Q_scope.

Lemma fold_add_distance (matches : list (string * string)) (dv : distance_values) :
  miles (fold_left add_distance matches dv) == miles dv + sum_miles matches.
Proof.
  revert dv. induction matches as [|[amount unit] matches IH]; intros dv.
  - cbn. ring.
  - cbn [fold_left]. rewrite IH. unfold sum_miles at 2. cbn [fold_right fst snd].
    fold (sum_miles matches). unfold add_distance, is_mile.
    destruct (startswith unit "mile" || String.eqb unit "mi"); cbn [miles]; [ring|].
    repeat match goal with
           | |- context [if ?b then _ else _] => destruct b; cbn [miles]
           end; reflexivity.
Qed.

(** Only the mile tokens count: the result is the sum of their amounts,
    whatever other units the text holds. *)
Lemma miles_of_matches_sum (matches : list (string * string)) :
  miles_of_matches matches == sum_miles matches.
Proof.
  unfold miles_of_matches. rewrite fold_add_distance. cbn [miles]. ring.
Qed.

Lemma digit_not_dot (c : ascii) : is_digit c = true -> Ascii.eqb c "." = false.
Proof.
  intros H. destruct (Ascii.eqb c ".") eqn:E; [|reflexivity].
  apply Ascii.eqb_eq in E. subst c. discriminate H.
Qed.

Lemma split_dot_decimal (w f : string) :
  all_digits w = true -> split_dot (w +:+ String "." f) = (w, f).
Proof.
  induction w as [|c w IH]; intros H; [reflexivity|].
  unfold all_digits in H. cbn [list_ascii_of_string forallb] in H.
  apply andb_true_iff in H. destruct H as [Hc Hw].
  change (String c w +:+ String "." f) with (String c (w +:+ String "." f)).
  cbn [split_dot]. rewrite (digit_not_dot c Hc), (IH Hw). reflexivity.
Qed.

Lemma split_dot_whole (w : string) :
  all_digits w = true -> split_dot w = (w, EmptyString).
Proof.
  induction w as [|c w IH]; intros H; [reflexivity|].
  unfold all_digits in H. cbn [list_ascii_of_string forallb] in H.
  apply andb_true_iff in H. destruct H as [Hc Hw].
  cbn [split_dot]. rewrite (digit_not_dot c Hc), (IH Hw). reflexivity.
Qed.

Lemma run_lit {A : Type} (icase : bool) (p c : ascii) (s : string)
    (caps : captures) (k : string -> captures -> option A) :
  run icase (Lit p) (String c s) caps k
  = if lit_match icase p c then k s caps else None.
Proof. reflexivity. Qed.

Lemma run_alt_first {A : Type} (icase : bool) (r1 r2 : re) (s : string)
    (caps : captures) (k : string -> captures -> option A) (x : A) :
  run icase r1 s caps k = Some x -> run icase (Alt r1 r2) s caps k = Some x.
Proof. intros H. cbn [run]. rewrite H. reflexivity. Qed.

Lemma run_alt_second {A : Type} (icase : bool) (r1 r2 : re) (s : string)
    (caps : captures) (k : string -> captures -> option A) :
  run icase r1 s caps k = None ->
  run icase (Alt r1 r2) s caps k = run icase r2 s caps k.
Proof. intros H. cbn [run]. rewrite H. reflexivity. Qed.

(** The unit and the end of the text, after the amount. *)
Lemma run_distance_unit (u : distance_unit) (caps : captures) :
  run true (Seq (Star Space)
       (Seq (Group 2 (alts ["mile"; "kilometer"; "meter"; "foot"; "yard"; "inch";
                            "mi"; "km"; "m"; "ft"; "yd"; "in"]))
            (Opt (Lit "s"))))
      (String " " (distance_unit_name u)) caps
      (fun s' caps' => Some (s', caps'))
  = Some (EmptyString, <[2%nat := distance_unit_name u]> caps).
Proof.
  destruct u; cbv -[insert]; reflexivity.
Qed.


Lemma digit_is_word (c : ascii) : is_digit c = true -> is_word c = true.
Proof. intros H. unfold is_word. rewrite H. reflexivity. Qed.

Lemma amount_head (w : string) (f : option string) :
  digits w -> exists c m, amount_text w f = String c m /\ is_digit c = true.
Proof.
  intros [Hne Hw]. destruct w as [|c w]; [contradiction|].
  unfold all_digits in Hw. cbn [list_ascii_of_string forallb] in Hw.
  apply andb_true_iff in Hw. destruct Hw as [Hc _].
  destruct f as [f|]; eexists; eexists; (split; [reflexivity|exact Hc]).
Qed.

Lemma match_distance_token (w : string) (f : option string) (u : distance_unit) :
  digits w -> fraction_ok f ->
  match_here true distance_pattern (distance_text w f u)
  = Some (EmptyString,
          <[2%nat := distance_unit_name u]> (<[1%nat := amount_text w f]> ∅)).
Proof.
  intros Hw Hf. unfold match_here, distance_pattern, distance_text.
  rewrite run_seq, run_group, run_seq.
  destruct f as [f|]; cbn [amount_text fraction_ok] in *.
  - rewrite app_str_assoc.
    change (String "." f +:+ String " " (distance_unit_name u))
      with (String "." (f +:+ String " " (distance_unit_name u))).
    apply plus_digits; [exact Hw|reflexivity|].
    cbv beta. apply run_alt_first. rewrite run_seq, run_lit.
    change (lit_match true "." ".") with true. cbv iota.
    apply plus_digits; [exact Hf|reflexivity|].
    cbv beta.
    erewrite (take_str_prefix (w +:+ String "." f)).
    + apply run_distance_unit.
    + rewrite app_str_assoc. reflexivity.
  - apply plus_digits; [exact Hw|reflexivity|].
    cbv beta. unfold Opt. rewrite run_alt_second by reflexivity.
    cbn [run]. erewrite (take_str_prefix w) by reflexivity.
    apply run_distance_unit.
Qed.

(** A scan that starts behind the text finds nothing more. *)
Lemma findall_b_skip_all (icase : bool) (r : re) (prev : option ascii) (s : string) :
  match_here icase r EmptyString = None ->
  findall_b_from icase r prev s (String.length s) = [].
Proof.
  intros Hr. revert prev. induction s as [|c s IH]; intros prev.
  - cbn [findall_b_from String.length]. rewrite Hr.
    destruct (boundary prev EmptyString); reflexivity.
  - cbn [findall_b_from String.length]. apply IH.
Qed.

Lemma findall_b_single (icase : bool) (r : re) (prev : option ascii)
    (c : ascii) (m : string) (caps : captures) :
  boundary prev (String c m) = true ->
  match_here icase r (String c m) = Some (EmptyString, caps) ->
  match_here icase r EmptyString = None ->
  findall_b_from icase r prev (String c m) 0 = [caps].
Proof.
  intros Hc Hm Hr. cbn [findall_b_from]. rewrite Hc, Hm. f_equal.
  replace (String.length (String c m) - String.length EmptyString - 1)%nat
    with (String.length m) by (cbn [String.length]; lia).
  apply findall_b_skip_all. exact Hr.
Qed.

Lemma findall_distance_text (w : string) (f : option string) (u : distance_unit) :
  digits w -> fraction_ok f ->
  findall2_b true distance_pattern (distance_text w f u)
  = [(amount_text w f, distance_unit_name u)].
Proof.
  intros Hw Hf. unfold findall2_b.
  pose proof (match_distance_token w f u Hw Hf) as Hm.
  destruct (amount_head w f Hw) as (c & m & Hc & Hd).
  unfold distance_text in *. rewrite Hc in *.
  change (String c m +:+ String " " (distance_unit_name u))
    with (String c (m +:+ String " " (distance_unit_name u))) in *.
  rewrite (findall_b_single true distance_pattern None c _ _
             (digit_is_word c Hd) Hm eq_refl).
  reflexivity.
Qed.

Lemma float_of_amount_value (w : string) (f : option string) :
  digits w -> float_of_amount (amount_text w f) == amount_value w f.
Proof.
  intros [_ Hw]. unfold float_of_amount. destruct f as [f|]; cbn [amount_text amount_value].
  - rewrite (split_dot_decimal w f Hw). reflexivity.
  - rewrite (split_dot_whole w Hw). apply Qplus_0_r.
Qed.

(** X2: A distance the provider writes in miles is read as its decimal value. *)
Theorem distance_text_miles (w : string) (f : option string) :
  digits w -> fraction_ok f ->
  convert_stringdistance_to_d (distance_text w f UMi) == amount_value w f.
Proof.
  intros Hw Hf. unfold convert_stringdistance_to_d.
  rewrite (findall_distance_text w f UMi Hw Hf), miles_of_matches_sum.
  unfold sum_miles. cbn [fold_right fst snd distance_unit_name].
  change (is_mile "mi") with true. cbv iota.
  rewrite (float_of_amount_value w f Hw). ring.
Qed.

Lemma distance_text_miles_witness :
  convert_stringdistance_to_d (distance_text "14" (Some "3") UMi)
  == amount_value "14" (Some "3").
Proof.
  apply (distance_text_miles "14" (Some "3")); split; (discriminate || reflexivity).
Defined.

(** X3: A distance written in feet, kilometres or metres is read as 0 miles:
    the amount is parsed, filed under its own unit and never converted. *)
Theorem distance_text_other_units (w : string) (f : option string)
    (u : distance_unit) :
  digits w -> fraction_ok f -> u <> UMi ->
  convert_stringdistance_to_d (distance_text w f u) == 0.
Proof.
  intros Hw Hf Hu. unfold convert_stringdistance_to_d.
  rewrite (findall_distance_text w f u Hw Hf), miles_of_matches_sum.
  unfold sum_miles. cbn [fold_right fst snd].
  destruct u; [contradiction| | |]; reflexivity.
Qed.


Lemma distance_text_other_units_witness :
  convert_stringdistance_to_d (distance_text "500" None UFt) == 0.
Proof.
  apply (distance_text_other_units "500" None UFt);
    [split; (discriminate || reflexivity) | exact I | discriminate].
Defined.

(** *** A thousands separator *)

Lemma no_unit_at_digit_or_comma {A : Type} (c : ascii) (s : string)
    (caps : captures) (g : string -> captures -> captures)
    (k : string -> captures -> option A) :
  digit_or_comma c = true ->
  run true (Opt (Seq (Lit ".") (Plus Digit))) (String c s) caps
    (fun s' caps' =>
       run true (Seq (Star Space)
         (Seq (Group 2 (alts ["mile"; "kilometer"; "meter"; "foot"; "yard"; "inch";
                              "mi"; "km"; "m"; "ft"; "yd"; "in"]))
              (Opt (Lit "s")))) s' (g s' caps') k) = None.
Proof.
  intros Hc.
  destruct c as [[] [] [] [] [] [] [] []]; try discriminate Hc; reflexivity.
Qed.

(** A run of digits before a comma, after which nothing matches
    wherever the run is cut, does not match. *)
Lemma star_digits_fail {A : Type} (icase : bool) (ds rest : string)
    (caps : captures) (k : string -> captures -> option A) :
  all_digits ds = true ->
  (forall c s, digit_or_comma c = true -> k (String c s) caps = None) ->
  run icase (Star Digit) (ds +:+ String "," rest) caps k = None.
Proof.
  intros Hds Hk. induction ds as [|d ds IH].
  - change (EmptyString +:+ String "," rest) with (String "," rest).
    rewrite (star_digit_stop icase (String "," rest) caps k eq_refl).
    apply Hk. reflexivity.
  - unfold all_digits in Hds. cbn [list_ascii_of_string forallb] in Hds.
    apply andb_true_iff in Hds. destruct Hds as [Hd Hds].
    change (String d ds +:+ String "," rest) with (String d (ds +:+ String "," rest)).
    rewrite star_digit_cons by exact Hd. rewrite (IH Hds).
    apply Hk. unfold digit_or_comma. rewrite Hd. reflexivity.
Qed.

(** No distance starts at the digits of a thousands group. *)
Lemma no_match_before_comma (a rest : string) :
  all_digits a = true ->
  match_here true distance_pattern (a +:+ String "," rest) = None.
Proof.
  intros Ha. unfold match_here, distance_pattern.
  rewrite run_seq, run_group, run_seq. unfold Plus at 1. rewrite run_seq.
  destruct a as [|d a].
  - reflexivity.
  - unfold all_digits in Ha. cbn [list_ascii_of_string forallb] in Ha.
    apply andb_true_iff in Ha. destruct Ha as [Hd Ha].
    change (String d a +:+ String "," rest) with (String d (a +:+ String "," rest)).
    rewrite run_digit, Hd.
    apply star_digits_fail; [exact Ha|].
    intros c s Hc.
    exact (no_unit_at_digit_or_comma c s ∅
             (fun s' caps' =>
                <[1%nat := take_str
                             (String.length (String d (a +:+ String "," rest))
                              - String.length s')
                             (String d (a +:+ String "," rest))]> caps')
             (fun s' caps' => Some (s', caps')) Hc).
Qed.

(** Inside a run of digits there is no word boundary: the scan passes
    over it. *)
Lemma findall_b_in_digits (icase : bool) (r : re) (p : ascii) (ds rest : string) :
  is_word p = true -> all_digits ds = true ->
  exists p', is_word p' = true
    /\ findall_b_from icase r (Some p) (ds +:+ rest) 0
       = findall_b_from icase r (Some p') rest 0.
Proof.
  revert p. induction ds as [|d ds IH]; intros p Hp Hds.
  - exists p. split; [exact Hp|reflexivity].
  - unfold all_digits in Hds. cbn [list_ascii_of_string forallb] in Hds.
    apply andb_true_iff in Hds. destruct Hds as [Hd Hds].
    destruct (IH d (digit_is_word d Hd) Hds) as (p' & Hp' & E).
    exists p'. split; [exact Hp'|]. rewrite <- E.
    change (String d ds +:+ rest) with (String d (ds +:+ rest)).
    cbn [findall_b_from]. unfold boundary. cbn [word_before word_at].
    rewrite Hp, (digit_is_word d Hd). reflexivity.
Qed.

Lemma findall_thousands (a b : string) (f : option string) (u : distance_unit) :
  digits a -> digits b -> fraction_ok f ->
  findall2_b true distance_pattern (a +:+ String "," (distance_text b f u))
  = [(amount_text b f, distance_unit_name u)].
Proof.
  intros [Hane Ha] Hb Hf. unfold findall2_b.
  destruct a as [|d a]; [contradiction|].
  pose proof (no_match_before_comma (String d a) (distance_text b f u) Ha) as Hno.
  unfold all_digits in Ha. cbn [list_ascii_of_string forallb] in Ha.
  apply andb_true_iff in Ha. destruct Ha as [Hd Ha].
  change (String d a +:+ String "," (distance_text b f u))
    with (String d (a +:+ String "," (distance_text b f u))) in *.
  cbn [findall_b_from]. rewrite Hno.
  assert (B0 : boundary None (String d (a +:+ String "," (distance_text b f u)))
               = true)
    by (unfold boundary; cbn [word_before word_at];
        rewrite (digit_is_word d Hd); reflexivity).
  rewrite B0.
  destruct (findall_b_in_digits true distance_pattern d a
              (String "," (distance_text b f u)) (digit_is_word d Hd) Ha)
    as (p' & Hp' & E).
  rewrite E. cbn [findall_b_from].
  change (match_here true distance_pattern (String "," (distance_text b f u)))
    with (@None (string * captures)).
  assert (B1 : boundary (Some p') (String "," (distance_text b f u)) = true)
    by (unfold boundary; cbn [word_before word_at]; rewrite Hp'; reflexivity).
  rewrite B1.
  pose proof (match_distance_token b f u Hb Hf) as Hm.
  destruct (amount_head b f Hb) as (c & m & Hc & Hcd).
  unfold distance_text in *. rewrite Hc in *.
  change (String c m +:+ String " " (distance_unit_name u))
    with (String c (m +:+ String " " (distance_unit_name u))) in *.
  rewrite (findall_b_single true distance_pattern (Some ","%char) c _ _
             (digit_is_word c Hcd) Hm eq_refl).
  reflexivity.
Qed.

(** X4: with a thousands separator, as in "1,234 mi", only the digits behind
    the comma are read. *)
Theorem thousands_group_dropped (a b : string) (f : option string) :
  digits a -> digits b -> fraction_ok f ->
  convert_stringdistance_to_d (a +:+ String "," (distance_text b f UMi))
  == amount_value b f.
Proof.
  intros Ha Hb Hf. unfold convert_stringdistance_to_d.
  rewrite (findall_thousands a b f UMi Ha Hb Hf), miles_of_matches_sum.
  unfold sum_miles. cbn [fold_right fst snd distance_unit_name].
  change (is_mile "mi") with true. cbv iota.
  rewrite (float_of_amount_value b f Hb). ring.
Qed.

Lemma thousands_group_dropped_witness :
  convert_stringdistance_to_d ("1" +:+ String "," (distance_text "234" None UMi))
  == amount_value "234" None.
Proof.
  apply (thousands_group_dropped "1" "234" None);
    [split; (discriminate || reflexivity) | split; (discriminate || reflexivity) | exact I].
Defined.

End DistanceFacts.

(** ** Project data files *)

Module ProjectFilesFacts.
Import ProjectFiles ProjectFilesTerms.
Local Open Scope list_scope.

Lemma data_item_held (file_name : string) (v : option frame) (p : store) :
  data p !! file_name = Some v -> data_item file_name p = (p, Ok v).
Proof. intros H. unfold data_item. rewrite H. reflexivity. Qed.

Lemma os_remove_data (file_name : string) (p : store) :
  data (fst (os_remove file_name p)) = data p.
Proof.
  unfold os_remove. destruct (find_entry file_name (files p)) as [[c|]|]; reflexivity.
Qed.

(** X5: contrary to what its docstring announces, [delete_data_file] never
    clears the frame held in memory: [if self.data[file_name]:] raises on
    a frame, and the bare [except] swallows it.  Whatever the project and
    the file name, [self.data] is after the call what it was before. *)
Theorem delete_data_file_keeps_data (file_name : string) (p : store) :
  data (fst (delete_data_file file_name p)) = data p.
Proof.
  unfold delete_data_file.
  destruct (Phase.py_in file_name (list_data_files p)); [|reflexivity].
  unfold mbind, M_bind.
  pose proof (os_remove_data file_name p) as Hrm.
  destruct (os_remove file_name p) as [p1 [[]|e]]; cbn [fst] in Hrm; [|exact Hrm].
  unfold try_except, data_item.
  destruct (data p1 !! file_name) as [[fr|]|] eqn:E; cbn; exact Hrm.
Qed.


(** *** The directory *)

Lemma py_in_In (x : string) (l : list string) :
  Phase.py_in x l = true <-> In x l.
Proof.
  unfold Phase.py_in. rewrite existsb_exists. split.
  - intros (y & Hy & E). apply String.eqb_eq in E. subst y. exact Hy.
  - intros H. exists x. split; [exact H|apply String.eqb_refl].
Qed.

Lemma find_entry_In (name : string) (fs : list (string * entry)) :
  In name (map fst fs) <-> exists x, find_entry name fs = Some x.
Proof.
  induction fs as [|[n x] fs IH]; cbn [map fst find_entry In].
  - split; [contradiction|intros [x H]; discriminate H].
  - destruct (String.eqb_spec n name) as [->|Hne].
    + split; [intros _; exists x; reflexivity|intros _; left; reflexivity].
    + rewrite <- IH. split; [intros [H|H]; [contradiction|exact H]|intros H; right; exact H].
Qed.

Lemma listed_In (p : store) (file_name : string) :
  Phase.py_in file_name (list_data_files p) = true ->
  In file_name (map fst (files p)).
Proof.
  intros H. apply py_in_In in H. unfold list_data_files in H.
  apply filter_In in H. exact (proj1 H).
Qed.

Lemma find_entry_filter (name n : string) (fs : list (string * entry)) :
  find_entry n (List.filter (fun x => negb (String.eqb (fst x) name)) fs)
  = if String.eqb n name then None else find_entry n fs.
Proof.
  induction fs as [|[m x] fs IH]; cbn [List.filter find_entry fst].
  - destruct (String.eqb n name); reflexivity.
  - destruct (String.eqb_spec m name) as [->|Hm]; cbn [negb find_entry].
    + rewrite IH. destruct (String.eqb_spec n name) as [->|Hn]; [reflexivity|].
      destruct (String.eqb_spec name n) as [E|_]; [symmetry in E; contradiction|reflexivity].
    + rewrite IH. destruct (String.eqb_spec m n) as [->|Hmn].
      * destruct (String.eqb_spec n name) as [E|_]; [contradiction|reflexivity].
      * reflexivity.
Qed.

(** Writing a file: it is there afterwards with what was written, and
    the other entries are what they were. *)
Lemma write_entry_spec (name : string) (f : frame) (fs : list (string * entry)) :
  find_entry name fs <> Some Directory ->
  exists fs',
    write_entry name f fs = Ok fs'
    /\ find_entry name fs' = Some (Regular (Ok f))
    /\ forall n, n <> name -> find_entry n fs' = find_entry n fs.
Proof.
  induction fs as [|[m x] fs IH]; cbn [write_entry find_entry]; intros Hd.
  - eexists. split; [reflexivity|]. cbn [find_entry]. rewrite String.eqb_refl.
    split; [reflexivity|]. intros n Hn.
    destruct (String.eqb_spec name n) as [E|_]; [symmetry in E; contradiction|reflexivity].
  - destruct (String.eqb_spec m name) as [->|Hm].
    + destruct x as [c|]; [|contradiction].
      eexists. split; [reflexivity|]. cbn [find_entry]. rewrite String.eqb_refl.
      split; [reflexivity|]. intros n Hn.
      destruct (String.eqb_spec name n) as [E|_]; [symmetry in E; contradiction|reflexivity].
    + destruct (IH Hd) as (fs' & Hw & Hf & Ho). rewrite Hw.
      eexists. split; [reflexivity|]. cbn [find_entry].
      destruct (String.eqb_spec m name) as [E|_]; [contradiction|].
      split; [exact Hf|]. intros n Hn.
      destruct (String.eqb m n); [reflexivity|apply Ho; exact Hn].
Qed.

(** *** Saving *)

Lemma definition_names (file_name : string) (need : list string) :
  definition_of data_file_definitions file_name = Some need ->
  In file_name (map fst data_file_definitions)
  /\ Phase.endswith file_name ".csv" = true.
Proof.
  unfold data_file_definitions. cbn [definition_of map fst In].
  repeat match goal with
         | |- context [String.eqb ?a file_name] =>
             destruct (String.eqb_spec a file_name) as [<-|?];
             [intros _; split; [tauto|reflexivity]|]
         end.
  discriminate.
Qed.

Lemma definition_known (file_name : string) :
  In file_name (map fst data_file_definitions) ->
  exists need, definition_of data_file_definitions file_name = Some need.
Proof.
  unfold data_file_definitions. cbn [definition_of map fst In].
  intros H.
  repeat match type of H with
         | _ \/ _ => destruct H as [<-|H]; [eexists; reflexivity|]
         end.
  contradiction.
Qed.

Lemma save_data_file_valid (file_name : string) (fr : frame) (p : store) :
  data p !! file_name = Some (Some fr) ->
  valid_for file_name fr ->
  find_entry file_name (files p) <> Some Directory ->
  exists fs',
    save_data_file file_name p = (set_files p fs', Ok (Project.PyStr file_name))
    /\ find_entry file_name fs' = Some (Regular (Ok fr))
    /\ forall n, n <> file_name -> find_entry n fs' = find_entry n (files p).
Proof.
  intros Hd (need & Hdef & Hsup) Hdir.
  destruct (write_entry_spec file_name fr (files p) Hdir) as (fs' & Hw & Hf & Ho).
  exists fs'. split; [|split; assumption].
  unfold save_data_file, validate_dataframe, mbind, M_bind.
  rewrite (data_item_held file_name _ p Hd).
  unfold lift, definition_item. rewrite Hdef. cbn [mret M_ret]. rewrite Hsup.
  rewrite (data_item_held file_name _ p Hd).
  unfold to_csv. rewrite Hw. reflexivity.
Qed.

Lemma save_data_file_invalid (file_name : string) (fr : frame) (need : list string)
    (p : store) :
  data p !! file_name = Some (Some fr) ->
  definition_of data_file_definitions file_name = Some need ->
  issuperset (columns fr) need = false ->
  save_data_file file_name p = (p, Ok py_False).
Proof.
  intros Hd Hdef Hsup.
  unfold save_data_file, validate_dataframe, mbind, M_bind.
  rewrite (data_item_held file_name _ p Hd).
  unfold lift, definition_item. rewrite Hdef. cbn [mret M_ret]. rewrite Hsup.
  reflexivity.
Qed.


(** [save_project] writes every frame held: none of them raises, the
    frames stay, and a valid frame is on disk afterwards. *)
Lemma save_frames_spec (names : list string) (p : store) :
  (forall n, In n names -> In n (map fst data_file_definitions)) ->
  flushed_keys p -> no_directory p ->
  exists p',
    save_frames names p = (p', Ok tt)
    /\ data p' = data p
    /\ forall f fr, data p !! f = Some (Some fr) -> valid_for f fr ->
         In f names \/ synced p f fr -> synced p' f fr.
Proof.
  revert p. induction names as [|n names IH]; intros p Hnames Hkeys Hdir.
  - exists p. split; [reflexivity|]. split; [reflexivity|].
    intros f fr _ _ [[]|H]. exact H.
  - assert (Hn : In n (map fst data_file_definitions)) by (apply Hnames; left; reflexivity).
    assert (Hnames' : forall m, In m names -> In m (map fst data_file_definitions))
      by (intros m Hm; apply Hnames; right; exact Hm).
    destruct (Hkeys n Hn) as [v Hv].
    cbn [save_frames]. unfold mbind at 1, M_bind at 1.
    rewrite (data_item_held n v p Hv).
    destruct v as [frn|].
    + destruct (definition_known n Hn) as [need Hdef].
      destruct (issuperset (columns frn) need) eqn:Hsup.
      * destruct (save_data_file_valid n frn p Hv (ex_intro _ need (conj Hdef Hsup))
                    (Hdir n Hn)) as (fs' & Hsave & Hf & Ho).
        unfold mbind at 1, M_bind at 1. unfold mbind at 1, M_bind at 1.
        rewrite Hsave. cbn [mret M_ret].
        destruct (IH (set_files p fs') Hnames') as (p' & Hrun & Hdata & Hsync).
        { exact Hkeys. }
        { intros m Hm. cbn [files set_files].
          destruct (String.eqb_spec m n) as [->|Hmn].
          - rewrite Hf. discriminate.
          - rewrite (Ho m Hmn). exact (Hdir m Hm). }
        exists p'. split; [exact Hrun|]. split; [exact Hdata|].
        intros f fr Hfd Hvalid Hcase. apply Hsync; [exact Hfd|exact Hvalid|].
        destruct (String.eqb_spec f n) as [->|Hfn].
        -- right. unfold synced. cbn [files set_files].
           rewrite Hv in Hfd. injection Hfd as <-. exact Hf.
        -- destruct Hcase as [[E|Hin]|Hs].
           ++ symmetry in E. contradiction.
           ++ left. exact Hin.
           ++ right. unfold synced in *. cbn [files set_files].
              rewrite (Ho f Hfn). exact Hs.
      * unfold mbind at 1, M_bind at 1. unfold mbind at 1, M_bind at 1.
        rewrite (save_data_file_invalid n frn need p Hv Hdef Hsup). cbn [mret M_ret].
        destruct (IH p Hnames' Hkeys Hdir) as (p' & Hrun & Hdata & Hsync).
        exists p'. split; [exact Hrun|]. split; [exact Hdata|].
        intros f fr Hfd Hvalid Hcase. apply Hsync; [exact Hfd|exact Hvalid|].
        destruct Hcase as [[E|Hin]|Hs]; [|left; exact Hin|right; exact Hs].
        subst f. rewrite Hv in Hfd. injection Hfd as <-.
        destruct Hvalid as (need' & Hdef' & Hsup').
        rewrite Hdef in Hdef'. injection Hdef' as <-. congruence.
    + unfold mbind at 1, M_bind at 1. cbn [mret M_ret].
      destruct (IH p Hnames' Hkeys Hdir) as (p' & Hrun & Hdata & Hsync).
      exists p'. split; [exact Hrun|]. split; [exact Hdata|].
      intros f fr Hfd Hvalid Hcase. apply Hsync; [exact Hfd|exact Hvalid|].
      destruct Hcase as [[E|Hin]|Hs]; [|left; exact Hin|right; exact Hs].
      subst f. rewrite Hv in Hfd. discriminate Hfd.
Qed.

Lemma delete_data_file_listed (file_name : string) (p : store) :
  Phase.py_in file_name (list_data_files p) = true ->
  find_entry file_name (files p) <> Some Directory ->
  delete_data_file file_name p
  = (set_files p (List.filter (fun x => negb (String.eqb (fst x) file_name)) (files p)),
     Ok py_True).
Proof.
  intros Hin Hdir. unfold delete_data_file. rewrite Hin.
  destruct (proj1 (find_entry_In file_name (files p)) (listed_In p file_name Hin))
    as [x Hx].
  destruct x as [c|]; [|contradiction].
  unfold mbind at 1, M_bind at 1. unfold os_remove. rewrite Hx.
  unfold mbind at 1, M_bind at 1.
  unfold try_except, data_item, mbind, M_bind. cbn [data set_files].
  destruct (data p !! file_name) as [[fr|]|]; reflexivity.
Qed.

(** X6: deleting a data file whose frame is held in memory and saving the
    project, as the user interface does, brings the file back: the call
    returns [True] and the file is gone, but the frame is still held, and
    [save_project] writes it again. *)
Theorem delete_then_save_project_restores (file_name : string) (fr : frame)
    (p : store) :
  flushed_keys p -> no_directory p ->
  Phase.py_in file_name (list_data_files p) = true ->
  data p !! file_name = Some (Some fr) ->
  valid_for file_name fr ->
  exists p1 p2,
    delete_data_file file_name p = (p1, Ok py_True)
    /\ Phase.py_in file_name (list_data_files p1) = false
    /\ save_project_data p1 = (p2, Ok tt)
    /\ synced p2 file_name fr
    /\ Phase.py_in file_name (list_data_files p2) = true.
Proof.
  intros Hkeys Hdir Hin Hd Hvalid.
  destruct Hvalid as (need & Hdef & Hsup).
  destruct (definition_names file_name need Hdef) as [Hname Hcsv].
  pose (p1 := set_files p (List.filter (fun x => negb (String.eqb (fst x) file_name))
                             (files p))).
  assert (Hfind : forall n, find_entry n (files p1)
                            = if String.eqb n file_name then None
                              else find_entry n (files p))
    by (intros n; apply find_entry_filter).
  destruct (save_frames_spec (map fst data_file_definitions) p1) as (p2 & Hrun & Hdata & Hsync).
  { intros n Hn. exact Hn. }
  { exact Hkeys. }
  { intros n Hn. rewrite Hfind. destruct (String.eqb n file_name); [discriminate|].
    exact (Hdir n Hn). }
  exists p1, p2.
  split; [exact (delete_data_file_listed file_name p Hin (Hdir file_name Hname))|].
  split.
  { destruct (Phase.py_in file_name (list_data_files p1)) eqn:E; [|reflexivity].
    apply listed_In, find_entry_In in E. destruct E as [x Hx].
    rewrite Hfind, String.eqb_refl in Hx. discriminate Hx. }
  split; [exact Hrun|].
  assert (Hs : synced p2 file_name fr).
  { apply Hsync; [exact Hd|exists need; split; assumption|left; exact Hname]. }
  split; [exact Hs|].
  apply py_in_In. unfold list_data_files. apply filter_In. split; [|exact Hcsv].
  apply find_entry_In. eexists. exact Hs.
Qed.


Lemma office_project_keys : flushed_keys office_project.
Proof.
  intros name Hn. unfold data_file_definitions in Hn. cbn [map fst In] in Hn.
  repeat match type of Hn with
         | _ \/ _ => destruct Hn as [<-|Hn]; [eexists; vm_compute; reflexivity|]
         end.
  contradiction.
Qed.

Lemma office_project_no_directory : no_directory office_project.
Proof.
  intros name Hn. unfold data_file_definitions in Hn. cbn [map fst In] in Hn.
  repeat match type of Hn with
         | _ \/ _ => destruct Hn as [<-|Hn]; [vm_compute; discriminate|]
         end.
  contradiction.
Qed.

Lemma delete_then_save_project_restores_witness :
  exists p1 p2,
    delete_data_file "office_gps.csv" office_project = (p1, Ok py_True)
    /\ Phase.py_in "office_gps.csv" (list_data_files p1) = false
    /\ save_project_data p1 = (p2, Ok tt)
    /\ synced p2 "office_gps.csv" office_frame
    /\ Phase.py_in "office_gps.csv" (list_data_files p2) = true.
Proof.
  apply (delete_then_save_project_restores "office_gps.csv" office_frame office_project).
  - exact office_project_keys.
  - exact office_project_no_directory.
  - reflexivity.
  - reflexivity.
  - eexists. split; reflexivity.
Defined.

(** *** Loading *)

(** X7: A [.csv] file of the project's directory that is none of the six
    defined data files cannot be loaded: once read, its validation looks
    its name up in [data_file_definitions] and the [KeyError] leaves
    [load_data_file]; nothing is stored. *)
Theorem load_data_file_unknown_csv_raises (file_name : string) (fr : frame)
    (p : store) :
  Phase.py_in file_name (list_data_files p) = true ->
  find_entry file_name (files p) = Some (Regular (Ok fr)) ->
  definition_of data_file_definitions file_name = None ->
  load_data_file file_name p = (p, Raise (KeyError file_name)).
Proof.
  intros Hin Hfile Hdef. unfold load_data_file. rewrite Hin.
  unfold mbind at 1, M_bind at 1. unfold read_csv. rewrite Hfile.
  unfold mbind at 1, M_bind at 1. unfold validate_data_file. rewrite Hin.
  unfold mbind, M_bind, lift, definition_item. rewrite Hdef. reflexivity.
Qed.

Lemma load_data_file_unknown_csv_raises_witness :
  load_data_file "notes.csv" notes_project
  = (notes_project, Raise (KeyError "notes.csv")).
Proof.
  apply (load_data_file_unknown_csv_raises "notes.csv"
           {| columns := ["text"]; rows := [] |} notes_project); reflexivity.
Defined.



(** X9: [save_data_file] returns [False] in one case only: a frame is held
    under the name and lacks a column of the file's definition.  With no
    frame held, or a name outside the definitions, it raises instead. *)
Theorem save_data_file_returns_False_iff (file_name : string) (p : store) :
  snd (save_data_file file_name p) = Ok py_False
  <-> exists fr need,
        data p !! file_name = Some (Some fr)
        /\ definition_of data_file_definitions file_name = Some need
        /\ issuperset (columns fr) need = false.
Proof.
  split.
  - unfold save_data_file, validate_dataframe, mbind, M_bind, data_item.
    destruct (data p !! file_name) as [[fr|]|] eqn:Hd; cbn; try discriminate.
    unfold lift, definition_item.
    destruct (definition_of data_file_definitions file_name) as [need|] eqn:Hdef;
      cbn; try discriminate.
    destruct (issuperset (columns fr) need) eqn:Hsup.
    + rewrite Hd. unfold to_csv.
      destruct (write_entry file_name fr (files p)); cbn; discriminate.
    + intros _. exists fr, need. repeat split; assumption.
  - intros (fr & need & Hd & Hdef & Hsup).
    rewrite (save_data_file_invalid file_name fr need p Hd Hdef Hsup). reflexivity.
Qed.

(** X28: the getters do not return an empty frame for a file that is not
    there, as their docstrings say: with no frame held and no such file
    in the project's directory, [load_data_file] returns [False], nothing
    is stored, and the getter returns [None]. *)
Theorem get_data_missing_file_returns_None (file_name : string) (p : store) :
  data p !! file_name = Some None ->
  Phase.py_in file_name (list_data_files p) = false ->
  get_data file_name p = (p, Ok None).
Proof.
  intros Hd Hin. unfold get_data, mbind, M_bind.
  rewrite (data_item_held file_name None p Hd).
  unfold load_data_file. rewrite Hin. cbn [mret M_ret].
  rewrite (data_item_held file_name None p Hd). reflexivity.
Qed.

Lemma get_data_missing_file_returns_None_witness :
  get_data "gps_fuzz.csv" notes_project = (notes_project, Ok None).
Proof.
  apply (get_data_missing_file_returns_None "gps_fuzz.csv" notes_project); reflexivity.
Defined.

Lemma issuperset_refl (cols : list string) : issuperset cols cols = true.
Proof.
  unfold issuperset. apply forallb_forall. intros c Hc. apply py_in_In. exact Hc.
Qed.

(** X29: [start_dataframe] followed by [save_data_file] replaces what the
    project held under a defined name, in memory and on disk, by a frame
    with the columns of the definition and no row: the frame started
    passes the validation of the save. *)
Theorem start_dataframe_then_save_truncates (file_name : string)
    (cols : list string) (p : store) :
  definition_of data_file_definitions file_name = Some cols ->
  find_entry file_name (files p) <> Some Directory ->
  exists p1 p2,
    start_dataframe file_name p = (p1, Ok py_True)
    /\ data p1 !! file_name = Some (Some {| columns := cols; rows := [] |})
    /\ save_data_file file_name p1 = (p2, Ok (Project.PyStr file_name))
    /\ synced p2 file_name {| columns := cols; rows := [] |}.
Proof.
  intros Hdef Hdir.
  set (fr := {| columns := cols; rows := [] |}).
  set (p1 := set_data p file_name (Some fr)).
  assert (Hd : data p1 !! file_name = Some (Some fr)) by apply lookup_insert_eq.
  destruct (save_data_file_valid file_name fr p1 Hd) as (fs' & Hsave & Hf & _).
  { exists cols. split; [exact Hdef|apply issuperset_refl]. }
  { exact Hdir. }
  exists p1, (set_files p1 fs').
  split; [unfold start_dataframe; rewrite Hdef; reflexivity|].
  split; [exact Hd|]. split; [exact Hsave|exact Hf].
Qed.

Lemma start_dataframe_then_save_truncates_witness :
  exists p1 p2,
    start_dataframe "office_gps.csv" office_project = (p1, Ok py_True)
    /\ data p1 !! "office_gps.csv"
       = Some (Some {| columns := ["address"; "latitude"; "longitude"]; rows := [] |})
    /\ save_data_file "office_gps.csv" p1 = (p2, Ok (Project.PyStr "office_gps.csv"))
    /\ synced p2 "office_gps.csv"
         {| columns := ["address"; "latitude"; "longitude"]; rows := [] |}.
Proof.
  apply (start_dataframe_then_save_truncates "office_gps.csv"
           ["address"; "latitude"; "longitude"] office_project).
  - reflexivity.
  - vm_compute. discriminate.
Defined.

End ProjectFilesFacts.

(** ** GAPI: what leaves the wrappers *)

Module GapiFacts.
Import Gapi GapiTerms.
Local Open Scope list_scope.

(** X10: called with the coordinate tuples the analyzer passes,
    [GAPI.commute] has two outcomes only.  When the client answers and
    the answer has the three texts of the first leg of the first route,
    they are returned.  In every other case, the client raised or the
    answer lacks a part, the handler's own string concatenation raises
    [TypeError]: the client's exception class is lost, the class that
    leaves is not in the recoverability table, so the analyzer treats
    every failure of a commute call as non-recoverable. *)
Theorem commute_raises_TypeError_on_failure (directions : res json)
    (origin destination : Q * Q) (departure_time : Z) :
  match commute_try directions with
  | Ok c => commute directions origin destination departure_time = Ok c
  | Raise _ =>
      exists e, commute directions origin destination departure_time = Raise e
                /\ exn_class e = "TypeError"
                /\ Builder.handle_GAPI_exception Builder.google_api_exceptions e
                   = false
  end.
Proof.
  unfold commute. destruct (commute_try directions) as [c|e0]; [reflexivity|].
  eexists. split; [reflexivity|]. split; reflexivity.
Qed.

(** X11: [GAPI.commute] never returns the [{"Error": ...}] dictionary its
    docstring describes: a dictionary it returns has no ["Error"] key; it
    holds the texts of distance, duration and duration in traffic of the
    first leg of the first route the client answered. *)
Theorem commute_never_returns_error_dict (directions : res json)
    (origin destination : Q * Q) (departure_time : Z) (c : gmap string json) :
  commute directions origin destination departure_time = Ok c ->
  c !! "Error" = None
  /\ exists r distance duration duration_in_traffic,
       directions = Ok r
       /\ first_leg_text r "distance" = Ok distance
       /\ first_leg_text r "duration" = Ok duration
       /\ first_leg_text r "duration_in_traffic" = Ok duration_in_traffic
       /\ c !! "distance" = Some distance
       /\ c !! "duration" = Some duration
       /\ c !! "duration_in_traffic" = Some duration_in_traffic.
Proof.
  unfold commute. destruct (commute_try directions) as [c'|e0] eqn:Htry;
    [|discriminate].
  intros [= <-]. unfold commute_try in Htry.
  destruct directions as [r|e]; [|discriminate Htry].
  unfold mbind, res_bind in Htry.
  destruct (first_leg_text r "distance") as [distance|] eqn:H1; [|discriminate Htry].
  destruct (first_leg_text r "duration") as [duration|] eqn:H2; [|discriminate Htry].
  destruct (first_leg_text r "duration_in_traffic") as [dit|] eqn:H3;
    [|discriminate Htry].
  injection Htry as <-.
  split; [reflexivity|].
  exists r, distance, duration, dit.
  repeat split; first [assumption|reflexivity].
Qed.

Lemma commute_never_returns_error_dict_witness :
  let c : gmap string json :=
    <["duration_in_traffic" := JStr "31 mins"]>
      (<["duration" := JStr "25 mins"]> (<["distance" := JStr "14.3 mi"]> ∅)) in
  c !! "Error" = None
  /\ exists r distance duration duration_in_traffic,
       Ok (one_leg "14.3 mi" "25 mins" "31 mins") = Ok r
       /\ first_leg_text r "distance" = Ok distance
       /\ first_leg_text r "duration" = Ok duration
       /\ first_leg_text r "duration_in_traffic" = Ok duration_in_traffic
       /\ c !! "distance" = Some distance
       /\ c !! "duration" = Some duration
       /\ c !! "duration_in_traffic" = Some duration_in_traffic.
Proof.
  apply (commute_never_returns_error_dict
           (Ok (one_leg "14.3 mi" "25 mins" "31 mins")) (0%Q, 0%Q) (1%Q, 1%Q) 0%Z).
  reflexivity.
Defined.

(** X12: [GAPI.geocode] raises [EmptyResult] exactly when the client's answer
    is empty (its length is 0), and the recoverability table lists that
    class as recoverable. *)
Theorem geocode_empty_result (r : json) (address : string) :
  (geocode (Ok r) address = Raise EmptyResult <-> py_len r = Ok 0%Z)
  /\ Builder.handle_GAPI_exception Builder.google_api_exceptions EmptyResult = true.
Proof.
  split; [|reflexivity]. unfold geocode. cbn [mbind res_bind]. split.
  - destruct r as [| | | | s|l|d]; cbn; try discriminate.
    + destruct s; cbn; [reflexivity|discriminate].
    + destruct l as [|x l]; cbn; [reflexivity|].
      destruct x as [| | | | s'|l'|d']; cbn; try discriminate.
      destruct (dict_get d' "geometry") as [g|]; cbn; [|discriminate].
      destruct g as [| | | | s''|l''|d'']; cbn; try discriminate.
      destruct (dict_get d'' "location"); cbn; discriminate.
    + destruct d; cbn; [reflexivity|discriminate].
  - destruct r as [| | | | s|l|d]; cbn; try discriminate.
    + destruct s; cbn; [reflexivity|discriminate].
    + destruct l; cbn; [reflexivity|discriminate].
    + destruct d; cbn; [reflexivity|discriminate].
Qed.

End GapiFacts.

(** ** Geocoding: retry and the rows written *)

Module GeocoderFacts.
Import Builder Gapi Geocoder GeocoderTerms.
Local Open Scope Z_scope.
Local Open Scope list_scope.

Lemma on_world_sleepif (s : state) :
  exists w', sleepif (world s) = (w', Ok tt)
    /\ on_world sleepif s
       = ({| world := w'; geo_calls := geo_calls s; gps_frame := gps_frame s |}, Ok tt)
    /\ calls w' = calls (world s).
Proof.
  destruct (BuilderFacts.sleepif_ok (world s)) as (w' & Hs & Hc).
  exists w'. split; [exact Hs|]. split; [|exact Hc].
  unfold on_world. rewrite Hs. reflexivity.
Qed.


Lemma sleepif_error_log (w : Builder.world) :
  error_log (fst (sleepif w)) = error_log w.
Proof.
  unfold sleepif, sleep.
  destruct (Qltb (inject_Z (td_seconds (now w - last_call w))) (sleep_time w));
    [|reflexivity].
  destruct (Qltb _ 0); reflexivity.
Qed.

(** X13: unlike the retry of a commute query, the retry of a geocoding call
    reaches the client: after a recoverable first failure the analyzer
    waits [backoff] seconds and asks for the same address again, and when
    that call locates the address the row is written from its answer.
    The client has been asked twice, and one line is in the error log. *)
Theorem geocode_retry_succeeds (table : gmap string string) (client : geocoder)
    (index : Z) (a : string) (s : state) (took1 took2 : Z) (e1 : exn)
    (lat lng : json) :
  client (length (geo_calls s)) a = (took1, Raise e1) ->
  handle_GAPI_exception table e1 = true ->
  client (S (length (geo_calls s))) a = (took2, Ok (located lat lng)) ->
  exists s',
    geocode_row table client index a s = (s', Ok tt)
    /\ asked s' = asked s ++ [a; a]
    /\ gps_frame s'
       = loc_set (gps_frame s) index
           {| address := a; latitude := lat; longitude := lng |}
    /\ sleeps (world s') = sleeps (fst (sleepif (world s))) ++ [backoff]
    /\ error_log (world s')
       = error_log (world s)
         ++ ["Exception calling geocode function: " +:+ exn_msg e1 +:+ nl].
Proof.
  intros H1 Hrec H2.
  destruct (on_world_sleepif s) as (w1 & Hs & Hos & _).
  pose proof (sleepif_error_log (world s)) as Hlog. rewrite Hs in Hlog. cbn [fst] in Hlog.
  unfold geocode_row. unfold try_except at 1.
  unfold mbind at 1, M_bind at 1. rewrite Hos.
  unfold mbind at 1, M_bind at 1. unfold try_except at 1.
  unfold gAPI_geocode at 1. cbn [world geo_calls gps_frame]. rewrite H1.
  cbn [geocode mbind res_bind].
  unfold mbind at 1, M_bind at 1. unfold on_world at 1, log_error at 1.
  cbn [world geo_calls gps_frame]. rewrite Hrec.
  unfold mbind at 1, M_bind at 1. unfold on_world at 1, sleep at 1.
  change (Qltb backoff 0) with false. cbv iota.
  cbn [world geo_calls gps_frame sleep_time last_call now calls sleeps error_log].
  unfold try_except at 1, gAPI_geocode at 1.
  cbn [world geo_calls gps_frame sleep_time last_call now calls sleeps error_log].
  rewrite length_app. cbn [length]. rewrite Nat.add_1_r. rewrite H2.
  eexists. split; [reflexivity|].
  cbn [world geo_calls gps_frame sleep_time last_call now calls sleeps error_log].
  unfold asked. cbn [geo_calls]. rewrite !map_app. cbn [map geo_address].
  rewrite <- app_assoc. rewrite Hs. cbn [fst]. rewrite Hlog.
  repeat split; reflexivity.
Qed.


Lemma geocode_retry_succeeds_witness :
  exists s',
    geocode_row google_api_exceptions over_limit_once 0 "1 Main St" (start 0)
      = (s', Ok tt)
    /\ asked s' = asked (start 0) ++ ["1 Main St"; "1 Main St"]
    /\ gps_frame s'
       = loc_set (gps_frame (start 0)) 0
           {| address := "1 Main St"; latitude := JFloat 40;
              longitude := JFloat (-75) |}
    /\ sleeps (world s') = sleeps (fst (sleepif (world (start 0)))) ++ [backoff]
    /\ error_log (world s')
       = error_log (world (start 0))
         ++ ["Exception calling geocode function: "
             +:+ exn_msg (Exn "_OverQueryLimit" "over query limit") +:+ nl].
Proof.
  apply (geocode_retry_succeeds google_api_exceptions over_limit_once 0 "1 Main St"
           (start 0) 1000000 1000000 (Exn "_OverQueryLimit" "over query limit")
           (JFloat 40) (JFloat (-75))); reflexivity.
Defined.

(** *** A row that fails *)

Lemma keeps_frame_bind {A B : Type} (m : M A) (f : A -> M B) :
  keeps_frame m -> (forall a, keeps_frame (f a)) -> keeps_frame (m ≫= f).
Proof.
  intros Hm Hf s. unfold mbind, M_bind. specialize (Hm s).
  destruct (m s) as [s1 [a|e]]; cbn [fst] in *; [|exact Hm].
  rewrite (Hf a s1). exact Hm.
Qed.

Lemma keeps_frame_try {A : Type} (m : M A) (h : exn -> M A) :
  keeps_frame m -> (forall e, keeps_frame (h e)) -> keeps_frame (try_except m h).
Proof.
  intros Hm Hh s. unfold try_except. specialize (Hm s).
  destruct (m s) as [s1 [a|e]]; cbn [fst] in *; [exact Hm|].
  rewrite (Hh e s1). exact Hm.
Qed.

Lemma keeps_frame_on_world {A : Type} (m : Builder.M A) : keeps_frame (on_world m).
Proof. intros s. unfold on_world. destruct (m (world s)). reflexivity. Qed.

Lemma keeps_frame_raise {A : Type} (e : exn) : keeps_frame (@raise A e).
Proof. intros s. reflexivity. Qed.

Lemma keeps_frame_pure {A : Type} (r : res A) : keeps_frame (pure r).
Proof. intros s. reflexivity. Qed.

Lemma keeps_frame_gAPI_geocode (client : geocoder) (a : string) :
  keeps_frame (gAPI_geocode client a).
Proof.
  intros s. unfold gAPI_geocode. destruct (client _ a). reflexivity.
Qed.

Lemma if_raised_bind {A B : Type} (m : M A) (f : A -> M B) :
  keeps_frame m -> (forall a, keeps_frame_if_raised (f a)) ->
  keeps_frame_if_raised (m ≫= f).
Proof.
  intros Hm Hf s. unfold mbind, M_bind. specialize (Hm s).
  destruct (m s) as [s1 [a|e]]; cbn [fst snd] in *; [|exact Hm].
  specialize (Hf a s1). destruct (f a s1) as [s2 [b|e]]; cbn [fst snd] in *;
    [exact I|congruence].
Qed.

(** X14: A row that cannot be geocoded leaves no trace in the frame: when the
    body of the loop raises, whatever the client did and whatever the
    table says, the frame is what it was, and the last line of the error
    log is the one of the outer handler, which reports the failure as an
    error saving the result. *)
Theorem geocode_row_failure_leaves_frame (table : gmap string string)
    (client : geocoder) (index : Z) (a : string) (s s' : state) (e : exn) :
  geocode_row table client index a s = (s', Raise e) ->
  gps_frame s' = gps_frame s
  /\ last (error_log (world s'))
     = Some ("Error saving geocode result address: " +:+ a +:+ nl
             +:+ "Got exception: " +:+ exn_msg e).
Proof.
  unfold geocode_row. unfold try_except at 1.
  match goal with
  | |- context [match ?body s with _ => _ end] => set (m := body)
  end.
  assert (Hm : keeps_frame_if_raised m).
  { subst m. apply if_raised_bind; [apply keeps_frame_on_world|intros _].
    apply if_raised_bind.
    - apply keeps_frame_try; [apply keeps_frame_gAPI_geocode|intros e0].
      apply keeps_frame_bind; [apply keeps_frame_on_world|intros _].
      destruct (handle_GAPI_exception table e0).
      + apply keeps_frame_bind; [apply keeps_frame_on_world|intros _].
        apply keeps_frame_try; [apply keeps_frame_gAPI_geocode|intros e2].
        apply keeps_frame_bind; [apply keeps_frame_on_world|intros _].
        apply keeps_frame_raise.
      + apply keeps_frame_bind; [apply keeps_frame_on_world|intros _].
        apply keeps_frame_raise.
    - intros latlong.
      apply if_raised_bind; [apply keeps_frame_pure|intros lat].
      apply if_raised_bind; [apply keeps_frame_pure|intros lng].
      intros s0. exact I. }
  specialize (Hm s). destruct (m s) as [s1 [[]|e1]]; cbn [fst snd] in Hm;
    [discriminate|].
  unfold mbind, M_bind, on_world, log_error, raise.
  intros [= <- <-]. cbn [gps_frame world error_log].
  split; [exact Hm|]. apply last_snoc.
Qed.

Lemma geocode_row_failure_leaves_frame_witness :
  let run := geocode_row google_api_exceptions finds_nothing 0 "Nowhere" (start 0) in
  gps_frame (fst run) = gps_frame (start 0)
  /\ last (error_log (world (fst run)))
     = Some ("Error saving geocode result address: " +:+ "Nowhere" +:+ nl
             +:+ "Got exception: " +:+ exn_msg EmptyResult).
Proof.
  apply (geocode_row_failure_leaves_frame google_api_exceptions finds_nothing 0
           "Nowhere" (start 0)).
  vm_compute. reflexivity.
Defined.


(** *** Every address located *)

Lemma geocode_row_answered (table : gmap string string) (client : geocoder)
    (place : string -> json * json) (index : Z) (a : string) (s : state) :
  answers client place ->
  exists s',
    geocode_row table client index a s = (s', Ok tt)
    /\ asked s' = asked s ++ [a]
    /\ gps_frame s' = loc_set (gps_frame s) index (snd (row_of place (index, a))).
Proof.
  intros Hans.
  destruct (on_world_sleepif s) as (w1 & Hs & Hos & _).
  destruct (Hans (length (geo_calls s)) a) as [took Hc].
  unfold geocode_row. unfold try_except at 1.
  unfold mbind at 1, M_bind at 1. rewrite Hos.
  unfold mbind at 1, M_bind at 1. unfold try_except at 1.
  unfold gAPI_geocode at 1. cbn [world geo_calls gps_frame]. rewrite Hc.
  eexists. split; [reflexivity|].
  cbn [world geo_calls gps_frame]. unfold asked. cbn [geo_calls].
  rewrite map_app. split; reflexivity.
Qed.

Lemma loc_set_fresh (frame : list (Z * gps_row)) (index : Z) (row : gps_row) :
  ~ In index (map fst frame) -> loc_set frame index row = frame ++ [(index, row)].
Proof.
  induction frame as [|[i r] frame IH]; cbn [loc_set map fst In app]; intros H.
  - reflexivity.
  - destruct (Z.eqb_spec i index) as [E|_]; [exfalso; apply H; left; exact E|].
    rewrite IH; [reflexivity|]. intros Hin. apply H. right. exact Hin.
Qed.

(** X15: when the geocoder locates every address, the loop over an address
    file whose index labels are distinct fills the empty frame with one
    row per address, in the order of the file: the label and the address
    of the source row, and the coordinates of the answer.  The client is
    asked once per address, in that order. *)
Theorem geocode_rows_one_row_per_address (table : gmap string string)
    (client : geocoder) (place : string -> json * json)
    (addresses : list (Z * string)) (s : state) :
  answers client place ->
  NoDup (map fst addresses) ->
  gps_frame s = [] ->
  exists s',
    geocode_rows table client addresses s = (s', Ok tt)
    /\ gps_frame s' = map (row_of place) addresses
    /\ asked s' = asked s ++ map snd addresses.
Proof.
  intros Hans Hnd Hempty.
  assert (Hgen : forall rows s0,
             NoDup (map fst rows) ->
             (forall i, In i (map fst rows) -> ~ In i (map fst (gps_frame s0))) ->
             exists s',
               geocode_rows table client rows s0 = (s', Ok tt)
               /\ gps_frame s' = gps_frame s0 ++ map (row_of place) rows
               /\ asked s' = asked s0 ++ map snd rows).
  { induction rows as [|[i a] rows IH]; intros s0 Hn Hfresh.
    - exists s0. cbn [geocode_rows map]. rewrite !app_nil_r. repeat split; reflexivity.
    - cbn [map fst] in Hn. apply NoDup_cons in Hn. destruct Hn as [Hi Hn].
      destruct (geocode_row_answered table client place i a s0 Hans)
        as (s1 & Hrow & Hask & Hframe).
      rewrite loc_set_fresh in Hframe by (apply Hfresh; left; reflexivity).
      destruct (IH s1 Hn) as (s' & Hrun & Hf & Ha).
      { intros j Hj. rewrite Hframe, map_app. cbn [map fst row_of].
        intros Hin. apply in_app_or in Hin. destruct Hin as [Hin|[E|[]]].
        - apply (Hfresh j); [right; exact Hj|exact Hin].
        - apply Hi. rewrite E. apply list_elem_of_In. exact Hj. }
      exists s'. cbn [geocode_rows]. unfold mbind, M_bind. rewrite Hrow.
      split; [exact Hrun|]. rewrite Hf, Ha, Hframe, Hask.
      cbn [map snd]. rewrite <- !app_assoc. split; reflexivity. }
  destruct (Hgen addresses s Hnd) as (s' & Hrun & Hf & Ha).
  { intros i _. rewrite Hempty. intros []. }
  exists s'. rewrite Hempty in Hf. repeat split; assumption.
Qed.

Lemma geocode_rows_one_row_per_address_witness :
  exists s',
    geocode_rows google_api_exceptions knows_two
      [(0, "1 Main St"); (1, "2 High St")] (start 0) = (s', Ok tt)
    /\ gps_frame s' = map (row_of two_places) [(0, "1 Main St"); (1, "2 High St")]
    /\ asked s' = asked (start 0) ++ map snd [(0, "1 Main St"); (1, "2 High St")].
Proof.
  apply (geocode_rows_one_row_per_address google_api_exceptions knows_two two_places
           [(0, "1 Main St"); (1, "2 High St")] (start 0)).
  - intros n a. eexists. reflexivity.
  - apply (bool_decide_unpack _). vm_compute. exact I.
  - reflexivity.
Defined.

End GeocoderFacts.

(** ** The throttle counts whole seconds *)

Module ThrottleFacts.
Import Builder ThrottleTerms.
Local Open Scope Z_scope.
Local Open Scope list_scope.

(** X16: [sleepif] compares the whole seconds since [last_call] with
    [sleep_time].  With a [sleep_time] of at most a second, as
    [__init__] sets it, the throttle therefore sleeps all or nothing:
    less than one second after [last_call] it sleeps the whole
    [sleep_time], whatever part of it has already passed, and from one
    second on (within a day) it does not sleep. *)
Theorem sleepif_all_or_nothing (w : world) :
  (0 < sleep_time w)%Q -> (sleep_time w <= 1)%Q ->
  0 <= now w - last_call w < 86400000000 ->
  if now w - last_call w <? 1000000
  then exists x, (x == sleep_time w)%Q /\ sleepif w = (slept w x, Ok tt)
  else sleepif w = (w, Ok tt).
Proof.
  intros Hpos Hle Hd. destruct (Z.ltb_spec (now w - last_call w) 1000000) as [Hlt|Hge].
  - assert (Hs : td_seconds (now w - last_call w) = 0).
    { unfold td_seconds. rewrite (Z.div_small (now w - last_call w) 1000000) by lia.
      reflexivity. }
    exists (sleep_time w - inject_Z 0)%Q. split; [ring|].
    unfold sleepif. rewrite Hs.
    assert (E : Qltb (inject_Z 0) (sleep_time w) = true) by (apply Qltb_lt; exact Hpos).
    rewrite E. unfold sleep.
    assert (E2 : Qltb (sleep_time w - inject_Z 0) 0 = false).
    { apply Qltb_ge. change (inject_Z 0) with 0%Q. lra. }
    rewrite E2. reflexivity.
  - apply BuilderFacts.sleepif_idle; [exact Hle|lia].
Qed.

Lemma sleepif_all_or_nothing_witness :
  if now (init 0) - last_call (init 0) <? 1000000
  then exists x, (x == sleep_time (init 0))%Q
                 /\ sleepif (init 0) = (slept (init 0) x, Ok tt)
  else sleepif (init 0) = (init 0, Ok tt).
Proof.
  apply (sleepif_all_or_nothing (init 0)).
  - reflexivity.
  - discriminate.
  - cbn. lia.
Defined.

End ThrottleFacts.

(** ** Departure times *)

Module DeparturesFacts.
Import Commute Departures DeparturesTerms.
Local Open Scope Z_scope.



End DeparturesFacts.

(** ** Cost and emissions annotations together *)

Module AnnotationFacts.
Import Commute AnnotatorTerms AnnotationTerms.
Local Open Scope Q_scope.
Local Open Scope list_scope.

Lemma emissions_slots_cost (p : Project.t) (r0 r : row) (c : Q) (ss : list slot) :
  emissions_slots p (set_commute_cost r0 c) (set_commute_cost r c) ss
  = r' ← emissions_slots p r0 r ss; Ok (set_commute_cost r' c).
Proof.
  revert r. induction ss as [|s ss IH]; intros r; [reflexivity|].
  cbn [emissions_slots]. unfold emissions_slot.
  cbn [set_commute_cost miles duration_in_traffic].
  destruct (get_traffic_regime p (miles r0) (duration_in_traffic r0 s)) as [regime|e];
    [|reflexivity].
  cbn [mbind res_bind]. rewrite <- IH. reflexivity.
Qed.

Lemma emissions_row_cost (p : Project.t) (r0 : row) (c : Q) :
  emissions_row p (set_commute_cost r0 c)
  = r' ← emissions_row p r0; Ok (set_commute_cost r' c).
Proof.
  unfold emissions_row. rewrite <- emissions_slots_cost. reflexivity.
Qed.

Lemma emissions_row_miles (p : Project.t) (r0 r' : row) :
  emissions_row p r0 = Ok r' -> miles r' = miles r0.
Proof.
  intros H. apply AnnotatorFacts.emissions_row_spec in H. exact (proj1 H).
Qed.

(** X18: the two annotations can be run in either order: costing the rows
    and then computing their emissions gives the very frame that
    computing the emissions and then costing gives, and fails on the same
    row with the same exception when the emissions fail. *)
Theorem cost_and_emissions_commute (p : Project.t) (data : list row) :
  get_commute_emissions p (get_commute_cost p data)
  = data' ← get_commute_emissions p data; Ok (get_commute_cost p data').
Proof.
  induction data as [|r0 data IH]; [reflexivity|].
  unfold get_commute_cost in *. cbn [map get_commute_emissions].
  rewrite emissions_row_cost.
  destruct (emissions_row p r0) as [r|e] eqn:Hr; [|reflexivity].
  cbn [mbind res_bind]. rewrite IH.
  destruct (get_commute_emissions p data) as [rest|e]; [|reflexivity].
  cbn [mbind res_bind map]. rewrite (emissions_row_miles p r0 r Hr). reflexivity.
Qed.

Lemma row_annotated_again (p : Project.t) (r0 r1 : row) :
  emissions_row p r0 = Ok r1 ->
  exists r2, emissions_row p r1 = Ok r2 /\ same_cells r1 r2.
Proof.
  intros H1.
  pose proof (AnnotatorFacts.emissions_row_spec p r0 r1 H1) as (Hm & Hd & Hc & He & Hs).
  assert (Hreg : forall s, exists regime,
             get_traffic_regime p (miles r1) (duration_in_traffic r1 s) = Ok regime).
  { intros s. destruct (Hs s) as (regime & Hr & _). exists regime.
    rewrite Hm, Hd. exact Hr. }
  assert (Htot : forall ss r, exists r', emissions_slots p r1 r ss = Ok r').
  { induction ss as [|s ss IH]; intros r; [exists r; reflexivity|].
    cbn [emissions_slots]. unfold emissions_slot.
    destruct (Hreg s) as [regime Hr]. rewrite Hr. cbn [mbind res_bind]. apply IH. }
  destruct (Htot slots (set_emissions r1 (miles r1 * Project.CO2_per_mile p)))
    as [r2 H2].
  exists r2. split; [exact H2|].
  pose proof (AnnotatorFacts.emissions_slots_spec p r1 slots _ _ H2)
    as [(Ha & Hm2 & He2 & Hc2 & Hd2) Hs2].
  assert (Hfix : forall ss r r', emissions_slots p r1 r ss = Ok r' ->
             origin_lat r' = origin_lat r /\ origin_long r' = origin_long r
             /\ destination_lat r' = destination_lat r
             /\ destination_long r' = destination_long r
             /\ duration r' = duration r).
  { induction ss as [|s ss IH]; intros r r' H.
    - injection H as <-. repeat split; reflexivity.
    - cbn [emissions_slots] in H. unfold emissions_slot in H.
      destruct (get_traffic_regime p (miles r1) (duration_in_traffic r1 s));
        [|discriminate H].
      cbn [mbind res_bind] in H. exact (IH _ _ H). }
  destruct (Hfix _ _ _ H2) as (F1 & F2 & F3 & F4 & F5).
  cbn [set_emissions office_address origin_lat origin_long destination_lat
         destination_long miles duration emissions commute_cost
         duration_in_traffic] in *.
  unfold same_cells. repeat split; try assumption.
  - rewrite He2, He, Hm. reflexivity.
  - intros s. rewrite Hd2. reflexivity.
  - intros s. destruct (Hs2 s) as [Hin _]. destruct (Hin (AnnotatorFacts.all_slots s))
      as (regime2 & Hr2 & Hv2).
    destruct (Hs s) as (regime & Hr & Hv).
    rewrite Hm, Hd in Hr2. rewrite Hr in Hr2. injection Hr2 as <-.
    rewrite Hv2, Hv, Hm. reflexivity.
Qed.

(** X19: annotating twice changes nothing: on a frame [get_commute_emissions]
    has annotated, a second run succeeds and writes into every cell the
    value that is already there. *)
Theorem get_commute_emissions_idempotent (p : Project.t) (data data1 : list row) :
  get_commute_emissions p data = Ok data1 ->
  exists data2,
    get_commute_emissions p data1 = Ok data2 /\ Forall2 same_cells data1 data2.
Proof.
  revert data1. induction data as [|r0 data IH]; intros data1 H.
  - injection H as <-. exists []. split; [reflexivity|constructor].
  - cbn [get_commute_emissions] in H.
    destruct (emissions_row p r0) as [r1|e] eqn:Hr; [|discriminate H].
    cbn [mbind res_bind] in H.
    destruct (get_commute_emissions p data) as [rest|e]; [|discriminate H].
    injection H as <-.
    destruct (row_annotated_again p r0 r1 Hr) as (r2 & H2 & Hsame).
    destruct (IH rest eq_refl) as (rest2 & Hrest & Hall).
    exists (r2 :: rest2). cbn [get_commute_emissions]. rewrite H2.
    cbn [mbind res_bind]. rewrite Hrest. split; [reflexivity|].
    constructor; assumption.
Qed.

Lemma get_commute_emissions_idempotent_witness :
  exists data2,
    get_commute_emissions Project.default annotated_once = Ok data2
    /\ Forall2 same_cells annotated_once data2.
Proof.
  apply (get_commute_emissions_idempotent Project.default [scenario_row] annotated_once).
  vm_compute. reflexivity.
Defined.

End AnnotationFacts.

(** ** The cost of commute time *)

Module TimeCostFacts.
Import Commute TimeCost TimeCostTerms.
Local Open Scope Q_scope.
Local Open Scope list_scope.

Lemma sum_app (a b : list Q) : sum (a ++ b) == sum a + sum b.
Proof.
  induction a as [|x a IH].
  - change (sum b == 0 + sum b). ring.
  - change (x + sum (a ++ b) == x + sum a + sum b). rewrite IH. ring.
Qed.

Lemma len_cons (x : Q) (l : list Q) : len (x :: l) == 1 + len l.
Proof.
  unfold len. cbn [length]. rewrite Nat2Z.inj_succ, <- Z.add_1_l.
  rewrite inject_Z_plus. reflexivity.
Qed.

Lemma len_nonneg (l : list Q) : 0 <= len l.
Proof.
  unfold len. change 0 with (inject_Z 0). rewrite <- Zle_Qle. lia.
Qed.

Lemma len_app (a b : list Q) : len (a ++ b) == len a + len b.
Proof.
  unfold len. rewrite length_app, Nat2Z.inj_add, inject_Z_plus. reflexivity.
Qed.

Lemma sum_le_bound (b : list Q) (x : Q) :
  (forall y, In y b -> y <= x) -> sum b <= len b * x.
Proof.
  induction b as [|y b IH]; intros H.
  - change (0 <= 0 * x). lra.
  - cbn [sum fold_right]. fold (sum b). rewrite len_cons.
    assert (y <= x) by (apply H; left; reflexivity).
    assert (sum b <= len b * x) by (apply IH; intros z Hz; apply H; right; exact Hz).
    lra.
Qed.

(** The heart of it: the values of [a] dominate those of [b]. *)
Lemma dominates_sums (a b : list Q) :
  dominates a b -> len a * sum b <= len b * sum a.
Proof.
  induction a as [|x a IH]; intros H.
  - change (0 * sum b <= len b * 0). lra.
  - rewrite len_cons. cbn [sum fold_right]. fold (sum a).
    assert (H1 : sum b <= len b * x).
    { apply sum_le_bound. intros y Hy. apply (H x y); [left; reflexivity|exact Hy]. }
    assert (H2 : len a * sum b <= len b * sum a).
    { apply IH. intros x' y Hx Hy. apply (H x' y); [right; exact Hx|exact Hy]. }
    lra.
Qed.


(** *** The largest values *)

Lemma insert_desc_In (x y : Q) (l : list Q) :
  In y (insert_desc x l) <-> y = x \/ In y l.
Proof.
  induction l as [|z l IH]; cbn [insert_desc In].
  - split; [intros [E|[]]; left; symmetry; exact E|intros [E|[]]; left; symmetry; exact E].
  - destruct (Qle_bool z x); cbn [In]; [|rewrite IH]; intuition congruence.
Qed.

Lemma insert_desc_decreasing (x : Q) (l : list Q) :
  decreasing l -> decreasing (insert_desc x l).
Proof.
  induction l as [|y l IH]; cbn [insert_desc decreasing].
  - intros _. split; [intros z []|exact I].
  - intros [Hy Hl]. destruct (Qle_bool y x) eqn:E; cbn [decreasing].
    + apply Qle_bool_iff in E. split; [|split; assumption].
      intros z [<-|Hz]; [exact E|]. apply Qle_trans with y; [apply Hy; exact Hz|exact E].
    + assert (Hxy : x <= y).
      { apply Qlt_le_weak, Qnot_le_lt. intros H. apply Qle_bool_iff in H. congruence. }
      split; [|apply IH; exact Hl].
      intros z Hz. apply insert_desc_In in Hz. destruct Hz as [->|Hz];
        [exact Hxy|apply Hy; exact Hz].
Qed.

Lemma sort_desc_decreasing (l : list Q) : decreasing (sort_desc l).
Proof.
  induction l as [|x l IH]; [exact I|].
  apply insert_desc_decreasing. exact IH.
Qed.

Lemma sum_insert_desc (x : Q) (l : list Q) : sum (insert_desc x l) == x + sum l.
Proof.
  induction l as [|y l IH]; cbn [insert_desc].
  - reflexivity.
  - destruct (Qle_bool y x); [reflexivity|].
    change (y + sum (insert_desc x l) == x + (y + sum l)). rewrite IH. ring.
Qed.

Lemma sum_sort_desc (l : list Q) : sum (sort_desc l) == sum l.
Proof.
  induction l as [|x l IH]; [reflexivity|].
  change (sum (insert_desc x (sort_desc l)) == x + sum l).
  rewrite sum_insert_desc, IH. reflexivity.
Qed.

Lemma length_insert_desc (x : Q) (l : list Q) :
  length (insert_desc x l) = S (length l).
Proof.
  induction l as [|y l IH]; cbn [insert_desc]; [reflexivity|].
  destruct (Qle_bool y x); cbn [length]; congruence.
Qed.

Lemma length_sort_desc (l : list Q) : length (sort_desc l) = length l.
Proof.
  induction l as [|x l IH]; [reflexivity|].
  change (length (insert_desc x (sort_desc l)) = S (length l)).
  rewrite length_insert_desc, IH. reflexivity.
Qed.

Lemma decreasing_split (k : nat) (l : list Q) :
  decreasing l -> dominates (firstn k l) (skipn k l).
Proof.
  revert l. induction k as [|k IH]; intros l Hl x y Hx Hy; [destruct Hx|].
  destruct l as [|z l]; [destruct Hx|].
  cbn [firstn skipn In decreasing] in *. destruct Hl as [Hz Hl].
  destruct Hx as [<-|Hx].
  - apply Hz. rewrite <- (firstn_skipn k l). apply in_or_app. right. exact Hy.
  - exact (IH l Hl x y Hx Hy).
Qed.

(** The mean of the [n] largest values is at least the mean of all. *)
Lemma mean_nlargest (n : Z) (l : list Q) :
  (1 <= n)%Z -> l <> [] ->
  exists top all,
    mean (nlargest n l) = Some top /\ mean l = Some all /\ all <= top.
Proof.
  intros Hn Hl. unfold nlargest.
  set (k := Z.to_nat n). set (s := sort_desc l).
  set (a := firstn k s). set (b := skipn k s).
  assert (Hs : s = a ++ b) by (symmetry; apply firstn_skipn).
  assert (Hlen : length s = length l) by apply length_sort_desc.
  assert (Hk : (1 <= k)%nat) by (subst k; lia).
  assert (Ha : (1 <= length a)%nat).
  { subst a. rewrite length_firstn. destruct l; [contradiction|].
    cbn [length] in Hlen. lia. }
  assert (Hdom : len a * sum b <= len b * sum a).
  { apply dominates_sums. subst a b. apply decreasing_split, sort_desc_decreasing. }
  assert (Hsum : sum l == sum a + sum b).
  { rewrite <- sum_sort_desc. fold s. rewrite Hs. apply sum_app. }
  assert (Hll : len l == len a + len b).
  { unfold len at 1. rewrite <- Hlen, Hs. apply len_app. }
  assert (Hla : 0 < len a).
  { unfold len. change 0 with (inject_Z 0). rewrite <- Zlt_Qlt. lia. }
  pose proof (len_nonneg b) as Hlb.
  destruct a as [|a0 a'] eqn:Ea; [cbn in Ha; lia|]. rewrite <- Ea in *.
  destruct l as [|l0 l'] eqn:El; [contradiction|]. rewrite <- El in *.
  exists (sum a / len a), (sum l / len l).
  split; [rewrite Ea; reflexivity|]. split; [rewrite El; reflexivity|].
  apply Qle_shift_div_l; [exact Hla|].
  unfold Qdiv. rewrite <- Qmult_assoc, (Qmult_comm (/ len l)), Qmult_assoc.
  apply Qle_shift_div_r; [rewrite Hll; lra|].
  rewrite Hsum, Hll. lra.
Qed.


Lemma per_minute_cost_nonneg (p : Project.t) :
  0 <= Project.median_salary p -> 0 < Project.hours_per_year p ->
  py_div (Project.median_salary p) (Project.hours_per_year p * 60)
  = Ok (Project.median_salary p / (Project.hours_per_year p * 60))
  /\ 0 <= Project.median_salary p / (Project.hours_per_year p * 60).
Proof.
  intros Hs Hh. split.
  - apply ClassifierFacts.py_div_nonzero. intros E. lra.
  - apply Qle_shift_div_l; lra.
Qed.

(** X20: with at least one commute day a week, a median salary that is not
    negative and a positive number of hours a year, both totals of a row
    are numbers, and the conservative total (the mean of the
    [commute_days_per_week] longest commutes) is never below the average
    total. *)
Theorem total_high_cost_at_least_average (p : Project.t) (r : row) :
  (1 <= Project.commute_days_per_week p)%Z ->
  0 <= Project.median_salary p -> 0 < Project.hours_per_year p ->
  exists t avg high,
    time_costs p r = Ok t
    /\ total_average_cost t = Some avg
    /\ total_high_cost t = Some high
    /\ avg <= high.
Proof.
  intros Hn Hs Hh.
  destruct (per_minute_cost_nonneg p Hs Hh) as [Hdiv Hpmc].
  destruct (mean_nlargest (Project.commute_days_per_week p)
              (map (duration_in_traffic r) mornings) Hn ltac:(discriminate))
    as (tm & am & Htm & Ham & Hm).
  destruct (mean_nlargest (Project.commute_days_per_week p)
              (map (duration_in_traffic r) evenings) Hn ltac:(discriminate))
    as (te & ae & Hte & Hae & He).
  unfold time_costs. rewrite Hdiv. cbn [mbind res_bind].
  rewrite Htm, Ham, Hte, Hae. cbn [nan_mul nan_add].
  eexists. eexists. eexists. split; [reflexivity|].
  cbn [total_average_cost total_high_cost]. split; [reflexivity|]. split; [reflexivity|].
  set (c := Project.median_salary p / (Project.hours_per_year p * 60)) in *.
  assert (am * c <= tm * c) by (apply Qmult_le_compat_r; assumption).
  assert (ae * c <= te * c) by (apply Qmult_le_compat_r; assumption).
  lra.
Qed.

Lemma total_high_cost_at_least_average_witness :
  exists t avg high,
    time_costs Project.default AnnotatorTerms.scenario_row = Ok t
    /\ total_average_cost t = Some avg
    /\ total_high_cost t = Some high
    /\ avg <= high.
Proof.
  apply (total_high_cost_at_least_average Project.default AnnotatorTerms.scenario_row).
  - cbn. lia.
  - discriminate.
  - reflexivity.
Defined.

(** X21: with no commute day a week (or a negative number), the conservative
    total of every row is NaN, the mean of no value, while the average
    total is a number. *)
Theorem total_high_cost_nan_without_commute_days (p : Project.t) (r : row) :
  (Project.commute_days_per_week p <= 0)%Z ->
  ~ Project.hours_per_year p == 0 ->
  exists t avg,
    time_costs p r = Ok t
    /\ total_high_cost t = None
    /\ total_average_cost t = Some avg.
Proof.
  intros Hn Hh. unfold time_costs.
  rewrite ClassifierFacts.py_div_nonzero by (intros E; apply Hh; lra).
  cbn [mbind res_bind]. unfold nlargest.
  replace (Z.to_nat (Project.commute_days_per_week p)) with O by lia.
  eexists. eexists. split; [reflexivity|]. split; reflexivity.
Qed.

Lemma total_high_cost_nan_without_commute_days_witness :
  exists t avg,
    time_costs no_commute_days AnnotatorTerms.scenario_row = Ok t
    /\ total_high_cost t = None
    /\ total_average_cost t = Some avg.
Proof.
  apply (total_high_cost_nan_without_commute_days no_commute_days
           AnnotatorTerms.scenario_row).
  - cbn. lia.
  - discriminate.
Defined.

End TimeCostFacts.

(** ** CommuteMatrixBuilder: the frame the loops build *)

Module MatrixFacts.
Import Builder Commute Matrix MatrixTerms AnnotationTerms.
Local Open Scope list_scope.

(** X22: the employee file the loops iterate is the one the function has
    loaded exactly when [use_gps_fuzzing] equals [True], ["True"] or
    [False].  For any other value, the string ["False"] that the phase
    tracker accepts as fuzzing switched off, or [None], the function
    loads [employee_gps.csv] and iterates [gps_fuzz.csv]. *)
Theorem data_key_is_loaded_file_iff (use_gps_fuzzing : Project.pyval) :
  (data_key use_gps_fuzzing = loaded_file use_gps_fuzzing
   <-> eq_True use_gps_fuzzing || Project.eq_str use_gps_fuzzing "True"
       || Project.eq_False use_gps_fuzzing = true)
  /\ (Project.eq_str use_gps_fuzzing "False" = true ->
      loaded_file use_gps_fuzzing = "employee_gps.csv"
      /\ data_key use_gps_fuzzing = "gps_fuzz.csv").
Proof.
  unfold data_key, loaded_file. split.
  - destruct use_gps_fuzzing as [|b|q|s]; cbn [eq_True Project.eq_False Project.eq_str orb].
    + split; discriminate.
    + destruct b; cbn; split; reflexivity.
    + destruct (Qeq_bool q 1) eqn:E1, (Qeq_bool q 0) eqn:E0; cbn;
        try (split; first [reflexivity|discriminate]).
      apply Qeq_bool_eq in E1, E0. rewrite E1 in E0. discriminate E0.
    + destruct (String.eqb s "True"); cbn; split; first [reflexivity|discriminate].
  - destruct use_gps_fuzzing as [|b|q|s]; cbn [eq_True Project.eq_False Project.eq_str orb];
      try discriminate.
    intros E. apply String.eqb_eq in E. subst s. split; reflexivity.
Qed.


(** *** Every query answered *)

Lemma fill_slot_answered (table : gmap string string) (prov : provider)
    (answer : query -> reply) (office : Aggregator.office_row)
    (employee : Aggregator.gps_row) (commutes : slot -> Z) (data_row : nat)
    (s : slot) (st : state) :
  answers prov answer ->
  exists st',
    fill_slot table prov office employee commutes data_row s st = (st', Ok tt)
    /\ asked st' = asked st ++ [query_of commutes office employee s]
    /\ commute_data st'
       = alter (slot_update answer commutes office employee s) data_row
           (commute_data st).
Proof.
  intros Hans. unfold fill_slot, query_of, slot_update, slot_minutes, query_of.
  destruct (endpoints _ _ (snd s)) as [source destination].
  destruct (Hans (length (calls (world st)))
              (BuilderTerms.slot_query source destination (commutes s))) as [took Hp].
  destruct (BuilderFacts.query_slot_success table prov source destination (commutes s)
              (world st) took _ Hp) as (w' & Hq & Hcalls).
  unfold mbind at 1, M_bind at 1. unfold on_world at 1. rewrite Hq.
  unfold try_except, set_cell, mbind, M_bind.
  destruct (decide (s = (Mon, Morning))) as [E|E].
  - eexists. split; [reflexivity|]. cbn [world commute_data]. unfold asked.
    cbn [world]. split; [exact Hcalls|].
    rewrite !list_alter_alter_eq. reflexivity.
  - eexists. split; [reflexivity|]. cbn [world commute_data]. unfold asked.
    cbn [world]. split; [exact Hcalls|reflexivity].
Qed.

Lemma fill_slots_answered (table : gmap string string) (prov : provider)
    (answer : query -> reply) (office : Aggregator.office_row)
    (employee : Aggregator.gps_row) (commutes : slot -> Z) (data_row : nat)
    (ss : list slot) (st : state) :
  answers prov answer ->
  exists st',
    fill_slots table prov office employee commutes data_row ss st = (st', Ok tt)
    /\ asked st' = asked st ++ map (query_of commutes office employee) ss
    /\ commute_data st'
       = alter (slots_update answer commutes office employee ss) data_row
           (commute_data st).
Proof.
  intros Hans. revert st. induction ss as [|s ss IH]; intros st.
  - exists st. cbn [fill_slots map]. rewrite app_nil_r. split; [reflexivity|].
    split; [reflexivity|]. unfold slots_update. cbn [fold_left].
    symmetry. apply list_alter_id. reflexivity.
  - destruct (fill_slot_answered table prov answer office employee commutes data_row
                s st Hans) as (st1 & H1 & Ha1 & Hd1).
    destruct (IH st1) as (st' & H' & Ha' & Hd').
    exists st'. cbn [fill_slots]. unfold mbind, M_bind. rewrite H1.
    split; [exact H'|]. split.
    + rewrite Ha', Ha1. cbn [map]. rewrite <- app_assoc. reflexivity.
    + rewrite Hd', Hd1. rewrite list_alter_alter_eq. reflexivity.
Qed.

Lemma commute_row_answered (table : gmap string string) (prov : provider)
    (answer : query -> reply) (commutes : slot -> Z) (office : Aggregator.office_row)
    (employee : Aggregator.gps_row) (st : state) :
  answers prov answer ->
  exists st',
    commute_row table prov commutes office employee st = (st', Ok tt)
    /\ asked st' = asked st ++ pair_queries commutes (office, employee)
    /\ commute_data st'
       = commute_data st
         ++ [slots_update answer commutes office employee slots
               (new_row office employee)].
Proof.
  intros Hans. unfold commute_row, mbind, M_bind, append_row.
  destruct (fill_slots_answered table prov answer office employee commutes
              (length (commute_data st)) slots
              {| world := world st;
                 commute_data := commute_data st ++ [new_row office employee] |} Hans)
    as (st' & H' & Ha' & Hd').
  exists st'. split; [exact H'|]. split; [exact Ha'|].
  rewrite Hd'. cbn [commute_data].
  rewrite <- (Nat.add_0_r (length (commute_data st))).
  rewrite alter_app_r. reflexivity.
Qed.

Lemma slot_update_cells (answer : query -> reply) (commutes : slot -> Z)
    (office : Aggregator.office_row) (employee : Aggregator.gps_row) (s : slot)
    (r : row) :
  let r' := slot_update answer commutes office employee s r in
  office_address r' = office_address r
  /\ origin_lat r' = origin_lat r /\ origin_long r' = origin_long r
  /\ destination_lat r' = destination_lat r
  /\ destination_long r' = destination_long r
  /\ emissions r' = emissions r /\ commute_cost r' = commute_cost r
  /\ slot_emissions r' = slot_emissions r
  /\ duration_in_traffic r'
     = upd (duration_in_traffic r) s (slot_minutes answer commutes office employee s)
  /\ (s = (Mon, Morning) ->
      miles r' = miles (filled_row answer commutes office employee)
      /\ duration r' = duration (filled_row answer commutes office employee))
  /\ (s <> (Mon, Morning) -> miles r' = miles r /\ duration r' = duration r).
Proof.
  unfold slot_update. destruct (decide (s = (Mon, Morning))) as [->|E];
    cbn; repeat split; first [reflexivity|contradiction].
Qed.

Lemma slots_update_cells (answer : query -> reply) (commutes : slot -> Z)
    (office : Aggregator.office_row) (employee : Aggregator.gps_row)
    (ss : list slot) (r : row) :
  let r' := slots_update answer commutes office employee ss r in
  office_address r' = office_address r
  /\ origin_lat r' = origin_lat r /\ origin_long r' = origin_long r
  /\ destination_lat r' = destination_lat r
  /\ destination_long r' = destination_long r
  /\ emissions r' = emissions r /\ commute_cost r' = commute_cost r
  /\ slot_emissions r' = slot_emissions r
  /\ (forall s, In s ss ->
        duration_in_traffic r' s = slot_minutes answer commutes office employee s)
  /\ (forall s, ~ In s ss -> duration_in_traffic r' s = duration_in_traffic r s)
  /\ (In (Mon, Morning) ss ->
      miles r' = miles (filled_row answer commutes office employee)
      /\ duration r' = duration (filled_row answer commutes office employee))
  /\ (~ In (Mon, Morning) ss -> miles r' = miles r /\ duration r' = duration r).
Proof.
  revert r. induction ss as [|s ss IH]; intros r.
  - cbn. repeat split; try reflexivity; intros; contradiction.
  - cbv zeta. unfold slots_update. cbn [fold_left].
    fold (slots_update answer commutes office employee ss
            (slot_update answer commutes office employee s r)).
    destruct (IH (slot_update answer commutes office employee s r))
      as (A1 & A2 & A3 & A4 & A5 & A6 & A7 & A8 & Hin & Hout & Hmm & Hnot).
    destruct (slot_update_cells answer commutes office employee s r)
      as (B1 & B2 & B3 & B4 & B5 & B6 & B7 & B8 & Hd & Hfirst & Hother).
    do 8 (split; [congruence|]).
    split; [|split; [|split]].
    + intros s' [<-|Hs'].
      * destruct (in_dec (fun x y : slot => decide (x = y)) s ss) as [Hs|Hs];
          [exact (Hin s Hs)|].
        rewrite (Hout s Hs), Hd. unfold upd.
        destruct (decide (s = s)); [reflexivity|contradiction].
      * exact (Hin s' Hs').
    + intros s' Hs'. rewrite Hout by (intros H; apply Hs'; right; exact H).
      rewrite Hd. unfold upd. destruct (decide (s' = s)) as [->|]; [|reflexivity].
      exfalso. apply Hs'. left. reflexivity.
    + intros Hmem.
      destruct (in_dec (fun x y : slot => decide (x = y)) (Mon, Morning) ss) as [Hs|Hs];
        [exact (Hmm Hs)|].
      destruct Hmem as [E|H]; [|contradiction].
      destruct (Hnot Hs) as [-> ->]. exact (Hfirst E).
    + intros H.
      destruct (Hnot (fun Hs => H (or_intror Hs))) as [-> ->].
      apply Hother. intros E. apply H. left. exact E.
Qed.

Lemma slots_update_filled (answer : query -> reply) (commutes : slot -> Z)
    (office : Aggregator.office_row) (employee : Aggregator.gps_row) :
  same_cells (filled_row answer commutes office employee)
    (slots_update answer commutes office employee slots (new_row office employee)).
Proof.
  destruct (slots_update_cells answer commutes office employee slots
              (new_row office employee))
    as (A1 & A2 & A3 & A4 & A5 & A6 & A7 & A8 & Hin & _ & Hmm & _).
  destruct (Hmm (AnnotatorFacts.all_slots (Mon, Morning))) as [Hm Hd].
  unfold same_cells. do 9 (split; [assumption|]). split.
  - intros s. exact (Hin s (AnnotatorFacts.all_slots s)).
  - intros s. rewrite A8. reflexivity.
Qed.


Lemma office_rows_answered (table : gmap string string) (prov : provider)
    (answer : query -> reply) (commutes : slot -> Z) (office : Aggregator.office_row)
    (employees : list Aggregator.gps_row) (st : state) :
  answers prov answer ->
  exists st',
    office_rows table prov commutes office employees st = (st', Ok tt)
    /\ asked st'
       = asked st
         ++ flat_map (pair_queries commutes) (map (fun e => (office, e)) employees)
    /\ commute_data st'
       = commute_data st
         ++ map (fun e => slots_update answer commutes office e slots (new_row office e))
              employees.
Proof.
  intros Hans. revert st. induction employees as [|e employees IH]; intros st.
  - exists st. cbn [office_rows map flat_map]. rewrite !app_nil_r.
    repeat split; reflexivity.
  - destruct (commute_row_answered table prov answer commutes office e st Hans)
      as (st1 & H1 & Ha1 & Hd1).
    destruct (IH st1) as (st' & H' & Ha' & Hd').
    exists st'. cbn [office_rows]. unfold mbind, M_bind. rewrite H1.
    split; [exact H'|]. cbn [map flat_map]. rewrite Ha', Ha1, Hd', Hd1.
    rewrite <- !app_assoc. split; reflexivity.
Qed.

Lemma commute_rows_answered (table : gmap string string) (prov : provider)
    (answer : query -> reply) (commutes : slot -> Z)
    (offices : list Aggregator.office_row) (employees : list Aggregator.gps_row)
    (st : state) :
  answers prov answer ->
  exists st',
    commute_rows table prov commutes offices employees st = (st', Ok tt)
    /\ asked st'
       = asked st ++ flat_map (pair_queries commutes) (pairs offices employees)
    /\ commute_data st'
       = commute_data st
         ++ map (fun pair => slots_update answer commutes (fst pair) (snd pair) slots
                               (new_row (fst pair) (snd pair)))
              (pairs offices employees).
Proof.
  intros Hans. revert st. induction offices as [|o offices IH]; intros st.
  - exists st. cbn [commute_rows pairs map flat_map]. rewrite !app_nil_r.
    repeat split; reflexivity.
  - destruct (office_rows_answered table prov answer commutes o employees st Hans)
      as (st1 & H1 & Ha1 & Hd1).
    destruct (IH st1) as (st' & H' & Ha' & Hd').
    exists st'. cbn [commute_rows]. unfold mbind, M_bind. rewrite H1.
    split; [exact H'|]. unfold pairs in *. cbn [flat_map].
    rewrite flat_map_app, map_app, Ha', Ha1, Hd', Hd1, map_map.
    cbn [fst snd]. rewrite <- !app_assoc. split; reflexivity.
Qed.

(** X23: when the provider answers every query, the loops fill the emptied
    frame with one row per office and employee, office by office and the
    employees in their order.  Each row has the employee as origin and
    the office as destination, the duration of each slot parsed from the
    reply to that slot's query, the miles and the duration parsed from
    the reply for Monday morning, and [-1] in the cost and in the eleven
    emission cells. *)
Theorem commute_rows_fill_frame (table : gmap string string) (prov : provider)
    (answer : query -> reply) (commutes : slot -> Z)
    (offices : list Aggregator.office_row) (employees : list Aggregator.gps_row)
    (st : state) :
  answers prov answer ->
  commute_data st = [] ->
  exists st',
    commute_rows table prov commutes offices employees st = (st', Ok tt)
    /\ Forall2 same_cells
         (map (fun pair => filled_row answer commutes (fst pair) (snd pair))
              (pairs offices employees))
         (commute_data st').
Proof.
  intros Hans Hempty.
  destruct (commute_rows_answered table prov answer commutes offices employees st Hans)
    as (st' & H' & _ & Hd').
  exists st'. split; [exact H'|]. rewrite Hd', Hempty. cbn [app]. clear Hd'.
  induction (pairs offices employees) as [|pair l IH]; cbn [map]; constructor.
  - apply slots_update_filled.
  - exact IH.
Qed.

Lemma commute_rows_fill_frame_witness :
  exists st',
    commute_rows google_api_exceptions always_answers (fun _ => 1000%Z)
      [office_a; office_b] [employee_x; employee_y] (start 0) = (st', Ok tt)
    /\ Forall2 same_cells
         (map (fun pair => filled_row same_reply (fun _ => 1000%Z) (fst pair) (snd pair))
              (pairs [office_a; office_b] [employee_x; employee_y]))
         (commute_data st').
Proof.
  apply (commute_rows_fill_frame google_api_exceptions always_answers same_reply
           (fun _ => 1000%Z) [office_a; office_b] [employee_x; employee_y] (start 0)).
  - intros n q. eexists. reflexivity.
  - reflexivity.
Defined.

(** X24: when the provider answers every query, it is asked ten times per
    office and employee, pair after pair in the order of the loops and
    slot after slot in the order of the week.  A morning query goes from
    the office to the employee and an evening query from the employee to
    the office. *)
Theorem commute_rows_queries (table : gmap string string) (prov : provider)
    (answer : query -> reply) (commutes : slot -> Z)
    (offices : list Aggregator.office_row) (employees : list Aggregator.gps_row)
    (st : state) :
  answers prov answer ->
  (exists st',
     commute_rows table prov commutes offices employees st = (st', Ok tt)
     /\ asked st'
        = asked st ++ flat_map (pair_queries commutes) (pairs offices employees))
  /\ forall office employee d,
       query_of commutes office employee (d, Morning)
       = {| q_origin := (Aggregator.o_latitude office, Aggregator.o_longitude office);
            q_destination := (Aggregator.latitude employee,
                              Aggregator.longitude employee);
            q_departure := commutes (d, Morning) |}
       /\ query_of commutes office employee (d, Evening)
          = {| q_origin := (Aggregator.latitude employee,
                            Aggregator.longitude employee);
               q_destination := (Aggregator.o_latitude office,
                                 Aggregator.o_longitude office);
               q_departure := commutes (d, Evening) |}.
Proof.
  intros Hans. split.
  - destruct (commute_rows_answered table prov answer commutes offices employees st
                Hans) as (st' & H' & Ha' & _).
    exists st'. split; assumption.
  - intros office employee d. split; reflexivity.
Qed.

Lemma commute_rows_queries_witness :
  (exists st',
     commute_rows google_api_exceptions always_answers (fun _ => 1000%Z)
       [office_a; office_b] [employee_x; employee_y] (start 0) = (st', Ok tt)
     /\ asked st'
        = asked (start 0)
          ++ flat_map (pair_queries (fun _ => 1000%Z))
               (pairs [office_a; office_b] [employee_x; employee_y]))
  /\ forall office employee d,
       query_of (fun _ => 1000%Z) office employee (d, Morning)
       = {| q_origin := (Aggregator.o_latitude office, Aggregator.o_longitude office);
            q_destination := (Aggregator.latitude employee,
                              Aggregator.longitude employee);
            q_departure := 1000%Z |}
       /\ query_of (fun _ => 1000%Z) office employee (d, Evening)
          = {| q_origin := (Aggregator.latitude employee,
                            Aggregator.longitude employee);
               q_destination := (Aggregator.o_latitude office,
                                 Aggregator.o_longitude office);
               q_departure := 1000%Z |}.
Proof.
  apply (commute_rows_queries google_api_exceptions always_answers same_reply
           (fun _ => 1000%Z) [office_a; office_b] [employee_x; employee_y] (start 0)).
  intros n q. eexists. reflexivity.
Defined.

(** *** A query that fails *)

(** X25: when the first query of a pair fails, the row of the pair stays in
    the frame as it was created, with [-1] in its 24 value cells; an
    exception leaves the loops, and no later pair is visited. *)
Theorem commute_row_failure_leaves_sentinels (table : gmap string string)
    (prov : provider) (commutes : slot -> Z) (office : Aggregator.office_row)
    (employee : Aggregator.gps_row) (st : state) (took : Z) (e : exn) :
  prov (length (calls (world st))) (query_of commutes office employee (Mon, Morning))
    = (took, Raise e) ->
  exists st' e',
    commute_row table prov commutes office employee st = (st', Raise e')
    /\ commute_data st' = commute_data st ++ [new_row office employee]
    /\ asked st' = asked st ++ [query_of commutes office employee (Mon, Morning)]
    /\ forall employees offices,
         snd (commute_rows table prov commutes (office :: offices)
                (employee :: employees) st) = Raise e'.
Proof.
  intros Hp. unfold query_of in *. cbn [snd endpoints] in *.
  set (w0 := world st) in *.
  assert (Hq : exists w' e',
             query_slot table prov
               (Aggregator.o_latitude office, Aggregator.o_longitude office)
               (Aggregator.latitude employee, Aggregator.longitude employee)
               (commutes (Mon, Morning)) w0 = (w', Raise e')
             /\ map call_query (calls w')
                = map call_query (calls w0)
                  ++ [BuilderTerms.slot_query
                        (Aggregator.o_latitude office, Aggregator.o_longitude office)
                        (Aggregator.latitude employee, Aggregator.longitude employee)
                        (commutes (Mon, Morning))]).
  { destruct (handle_GAPI_exception table e) eqn:Hh.
    - destruct (BuilderFacts.query_slot_recoverable table prov _ _ _ w0 took e Hp Hh)
        as (w' & Hq & Hc).
      exists w'. eexists. split; [exact Hq|exact Hc].
    - destruct (BuilderFacts.query_slot_non_recoverable table prov _ _ _ w0 took e Hp Hh)
        as (w' & Hq & Hc & _).
      exists w'. eexists. split; [exact Hq|exact Hc]. }
  destruct Hq as (w' & e' & Hq & Hc).
  assert (Hrow : commute_row table prov commutes office employee st
                 = ({| world := w'; commute_data := commute_data st ++ [new_row office employee] |},
                    Raise e')).
  { unfold commute_row, mbind, M_bind, append_row.
    change slots with ((Mon, Morning) :: List.tl slots). cbn [fill_slots].
    unfold mbind, M_bind, fill_slot. cbn [snd endpoints].
    unfold mbind, M_bind, on_world. cbn [world commute_data]. fold w0.
    rewrite Hq. reflexivity. }
  eexists. exists e'. split; [exact Hrow|]. cbn [commute_data]. split; [reflexivity|].
  split; [exact Hc|].
  intros employees offices. cbn [commute_rows office_rows]. unfold mbind, M_bind.
  rewrite Hrow. reflexivity.
Qed.

Lemma commute_row_failure_leaves_sentinels_witness :
  exists st' e',
    commute_row google_api_exceptions always_fails (fun _ => 1000%Z) office_a employee_x
      (start 0) = (st', Raise e')
    /\ commute_data st' = commute_data (start 0) ++ [new_row office_a employee_x]
    /\ asked st'
       = asked (start 0) ++ [query_of (fun _ => 1000%Z) office_a employee_x (Mon, Morning)]
    /\ forall employees offices,
         snd (commute_rows google_api_exceptions always_fails (fun _ => 1000%Z)
                (office_a :: offices) (employee_x :: employees) (start 0))
         = Raise e'.
Proof.
  apply (commute_row_failure_leaves_sentinels google_api_exceptions always_fails
           (fun _ => 1000%Z) office_a employee_x (start 0) 1000000
           (Exn "ApiError" "denied")).
  reflexivity.
Defined.

End MatrixFacts.

(** ** Graphing: what the filters keep *)

Module SelectionFacts.
Import Commute Aggregator Selection SelectionTerms.
Local Open Scope Q_scope.
Local Open Scope list_scope.

Lemma match_row_iff (r : row) (lat lon : Q) (t : office_row) :
  Qeq_bool (origin_lat r) lat && Qeq_bool (origin_long r) lon
  && Qeq_bool (destination_lat r) (o_latitude t)
  && Qeq_bool (destination_long r) (o_longitude t) = true
  <-> origin_lat r == lat /\ origin_long r == lon
      /\ destination_lat r == o_latitude t /\ destination_long r == o_longitude t.
Proof.
  rewrite !andb_true_iff, !Qeq_bool_iff. tauto.
Qed.

Lemma check_both_false_iff (value : row -> Q) (lat lon : Q)
    (targets : list office_row) (bound : Q) (commute_data : list row) :
  check value lat lon targets bound commute_data true = false
  /\ check value lat lon targets bound commute_data false = false
  <-> ~ has_row lat lon targets commute_data.
Proof.
  unfold has_row. split.
  - intros [Hin Hout] (t & r & Ht & Hr & Hm).
    apply (match_row_iff r lat lon t) in Hm.
    destruct (Qle_bool (value r) bound) eqn:E.
    + assert (X : check value lat lon targets bound commute_data true = true).
      { apply existsb_exists. exists t. split; [exact Ht|].
        apply existsb_exists. exists r. split; [apply filter_In; split; assumption|].
        cbn [andb]. rewrite E. reflexivity. }
      congruence.
    + assert (X : check value lat lon targets bound commute_data false = true).
      { apply existsb_exists. exists t. split; [exact Ht|].
        apply existsb_exists. exists r. split; [apply filter_In; split; assumption|].
        cbn [andb negb]. unfold Qltb. rewrite E. reflexivity. }
      congruence.
  - intros Hno.
    assert (X : forall inside,
               check value lat lon targets bound commute_data inside = false).
    { intros inside.
      destruct (check value lat lon targets bound commute_data inside) eqn:E;
        [|reflexivity].
      exfalso. apply Hno.
      apply existsb_exists in E. destruct E as (t & Ht & E).
      apply existsb_exists in E. destruct E as (r & Hr & _).
      apply filter_In in Hr. destruct Hr as [Hr Hm].
      apply match_row_iff in Hm. exists t, r. tauto. }
    split; apply X.
Qed.

Lemma point_eta (s : gps_row) :
  {| latitude := latitude s; longitude := longitude s |} = s.
Proof. destruct s. reflexivity. Qed.

Lemma in_filtered (g : gps_row -> bool) (sources : list gps_row) (s : gps_row) :
  In s (map (fun s => {| latitude := latitude s; longitude := longitude s |})
          (List.filter g sources))
  <-> In s sources /\ g s = true.
Proof.
  rewrite in_map_iff. split.
  - intros (s' & E & Hs'). rewrite point_eta in E. subst s'.
    apply filter_In. exact Hs'.
  - intros H. exists s. split; [apply point_eta|apply filter_In; exact H].
Qed.

(** X26: the filters on the driving distance and on the driving time do not
    divide the sources between inside and outside: with either filter, a
    source is missing from the result of the filter and from the result
    of its complement ([inside] false) exactly when the commute data
    holds no row from it to any target; every other source is in one of
    the two results at least. *)
Theorem dropped_by_filter_and_complement_iff (sources : list gps_row)
    (targets : list office_row) (bound : Q) (commute_data : list row)
    (s : gps_row) :
  In s sources ->
  (~ In s (filter_drive_distance sources targets bound commute_data true)
   /\ ~ In s (filter_drive_distance sources targets bound commute_data false)
   <-> ~ has_row (latitude s) (longitude s) targets commute_data)
  /\ (~ In s (filter_drive_time sources targets bound commute_data true)
      /\ ~ In s (filter_drive_time sources targets bound commute_data false)
      <-> ~ has_row (latitude s) (longitude s) targets commute_data).
Proof.
  intros Hs.
  assert (X : forall g : gps_row -> bool,
             ~ In s (map (fun s => {| latitude := latitude s; longitude := longitude s |})
                       (List.filter g sources))
             <-> g s = false).
  { intros g. rewrite in_filtered. destruct (g s); intuition congruence. }
  split.
  - unfold filter_drive_distance. rewrite !X.
    exact (check_both_false_iff miles (latitude s) (longitude s) targets bound
             commute_data).
  - unfold filter_drive_time. rewrite !X.
    exact (check_both_false_iff (fun r => duration_in_traffic r (Mon, Morning))
             (latitude s) (longitude s) targets bound commute_data).
Qed.

Lemma dropped_by_filter_and_complement_iff_witness :
  (~ In emp_1 (filter_drive_distance [emp_1; emp_2] [the_office] 50 [stray_row] true)
   /\ ~ In emp_1 (filter_drive_distance [emp_1; emp_2] [the_office] 50 [stray_row] false)
   <-> ~ has_row (latitude emp_1) (longitude emp_1) [the_office] [stray_row])
  /\ (~ In emp_1 (filter_drive_time [emp_1; emp_2] [the_office] 50 [stray_row] true)
      /\ ~ In emp_1 (filter_drive_time [emp_1; emp_2] [the_office] 50 [stray_row] false)
      <-> ~ has_row (latitude emp_1) (longitude emp_1) [the_office] [stray_row]).
Proof.
  apply (dropped_by_filter_and_complement_iff [emp_1; emp_2] [the_office] 50
           [stray_row] emp_1).
  left. reflexivity.
Defined.

Lemma isin_iff (x : Q) (values : list Q) :
  isin x values = true <-> exists v, In v values /\ x == v.
Proof.
  unfold isin. rewrite existsb_exists. split; intros (v & Hv & E); exists v;
    (split; [exact Hv|]); apply Qeq_bool_iff; exact E.
Qed.

(** X27: [get_commute_values] matches the latitude and the longitude of the
    origin separately: a row to the office is returned as soon as its
    origin has the latitude of one employee and the longitude of an
    employee, the same or another; whether anyone lives there is not
    asked. *)
Theorem get_commute_values_matches_coordinates_separately (emp : list gps_row)
    (office0 : office_row) (offices : list office_row) (commute_data : list row)
    (e1 e2 : gps_row) (r : row) :
  In e1 emp -> In e2 emp -> In r commute_data ->
  goes_to r office0 ->
  origin_lat r == latitude e1 -> origin_long r == longitude e2 ->
  exists rows,
    get_commute_values emp (office0 :: offices) commute_data = Ok rows
    /\ In r rows.
Proof.
  intros H1 H2 Hr [Hlat Hlon] Ho1 Ho2. eexists. split; [reflexivity|].
  apply filter_In. split; [exact Hr|].
  rewrite !andb_true_iff, !Qeq_bool_iff. repeat split; try assumption.
  - apply isin_iff. exists (latitude e1). split; [apply in_map; exact H1|exact Ho1].
  - apply isin_iff. exists (longitude e2). split; [apply in_map; exact H2|exact Ho2].
Qed.


Lemma get_commute_values_matches_coordinates_separately_witness :
  exists rows,
    get_commute_values [emp_1; emp_2] [the_office] [stray_row] = Ok rows
    /\ In stray_row rows.
Proof.
  apply (get_commute_values_matches_coordinates_separately [emp_1; emp_2] the_office []
           [stray_row] emp_1 emp_2 stray_row).
  - left. reflexivity.
  - right. left. reflexivity.
  - left. reflexivity.
  - split; reflexivity.
  - reflexivity.
  - reflexivity.
Defined.

End SelectionFacts.
